(** * PCM audio pipeline of the Text-to-Voice generator: audio transforms,
      8-bit PCM conversion and exporters

    Shallow embedding of [audioProcessor] (convertToPCM, normalizeAudio,
    amplifyAudio, pitchShift, changeSpeed, trimAudio, cutAudio) and of
    [pcmExport] (exportAsCArray, exportAsWAV).

    - A JavaScript [number] is an IEEE-754 binary64 value: [spec_float] with
      the operations of [SpecFloat] at precision 53 and maximal exponent 1024
      (round to nearest, ties to even).  An element of a [Float32Array] is a
      binary64 value that is representable in binary32; a store into such an
      array rounds with [fround].
    - [AudioBuffer] objects live in a store and are addressed by reference, so
      that "returns the same object" and "returns a new object" differ.
    - A call either returns, throws, or loops forever: [outcome]. *)

From Stdlib Require Import ZArith Lia Bool String Ascii DecimalString SpecFloat.
From stdpp Require Import base list.

Local Open Scope Z_scope.

(** ** ECMAScript numbers *)

Module JS.

Definition number := spec_float.

Definition prec : Z := 53.
Definition emax : Z := 1024.

Definition NaN : number := S754_nan.
Definition Infinity : number := S754_infinity false.
Definition pzero : number := S754_zero false.

(** [x + y], [x - y], [x * y], [x / y] on numbers. *)
Definition fadd : number -> number -> number := SFadd prec emax.
Definition fsub : number -> number -> number := SFsub prec emax.
Definition fmul : number -> number -> number := SFmul prec emax.
Definition fdiv : number -> number -> number := SFdiv prec emax.
Definition fneg : number -> number := SFopp.

(** The number denoted by an integer (exact below 2^53). *)
Definition of_Z (n : Z) : number := binary_normalize prec emax n 0 false.
Definition of_nat (n : nat) : number := of_Z (Z.of_nat n).

Definition one : number := of_Z 1.

(** Numeric literals of the sources that are not integers. *)
Definition lit_0_95 : number := fdiv (of_Z 95) (of_Z 100).
Definition lit_127_5 : number := fdiv (of_Z 255) (of_Z 2).

(** [x < y], [x <= y] and [x === y] on numbers: false when either is NaN. *)
Definition flt (x y : number) : bool := SFltb x y.
Definition fle (x y : number) : bool := SFleb x y.
Definition feq (x y : number) : bool := SFeqb x y.

Definition is_nan (x : number) : bool :=
  match x with S754_nan => true | _ => false end.

Definition is_finite (x : number) : bool :=
  match x with S754_zero _ | S754_finite _ _ _ => true | _ => false end.

(** [Math.abs]. *)
Definition Math_abs : number -> number := SFabs.

(** [Math.max(x, y)]: NaN if either is NaN, and [+0] is larger than [-0]. *)
Definition Math_max (x y : number) : number :=
  match SFcompare x y with
  | None => NaN
  | Some Lt => y
  | Some Gt => x
  | Some Eq => match x with S754_zero true => y | _ => x end
  end.

(** [Math.min(x, y)]: NaN if either is NaN, and [-0] is smaller than [+0]. *)
Definition Math_min (x y : number) : number :=
  match SFcompare x y with
  | None => NaN
  | Some Lt => x
  | Some Gt => y
  | Some Eq => match x with S754_zero false => y | _ => x end
  end.

(** The signed integer mantissa of a finite number. *)
Definition signed (s : bool) (m : positive) : Z := cond_Zopp s (Zpos m).

(** [Math.floor]: the largest integral number not above [x]. *)
Definition Math_floor (x : number) : number :=
  match x with
  | S754_finite s m e =>
      if 0 <=? e then x
      else match Z.shiftr (signed s m) (- e) with
           | Z0 => S754_zero s
           | q => of_Z q
           end
  | _ => x
  end.

(** [Math.round]: the integral number closest to [x], ties towards
    [+Infinity]; that is, the floor of [x + 1/2] taken exactly. *)
Definition Math_round (x : number) : number :=
  match x with
  | S754_finite s m e =>
      if 0 <=? e then x
      else match Z.shiftr (2 * signed s m + 2 ^ (- e)) (- e + 1) with
           | Z0 => S754_zero s
           | q => of_Z q
           end
  | _ => x
  end.

(** Truncation towards zero of a finite number; [None] for NaN and the
    infinities.  [magnitude m e] is the integral part of [m * 2^e]. *)
Definition magnitude (m : positive) (e : Z) : Z :=
  if 0 <=? e then Z.shiftl (Zpos m) e else Z.shiftr (Zpos m) (- e).

Definition truncate (x : number) : option Z :=
  match x with
  | S754_zero _ => Some 0
  | S754_finite s m e => Some (cond_Zopp s (magnitude m e))
  | _ => None
  end.

(** Whether a number is integral (NaN and the infinities are not). *)
Definition is_integral (x : number) : bool :=
  match x with
  | S754_zero _ => true
  | S754_finite _ m e => (0 <=? e) || (Z.shiftl (magnitude m e) (- e) =? Zpos m)
  | _ => false
  end.

(** [ToUint8], [ToUint16] and [ToUint32]: NaN and the infinities become 0,
    other numbers are truncated and reduced modulo 2^8, 2^16, 2^32. *)
Definition ToUint8 (x : number) : Z :=
  match truncate x with Some z => z mod 2 ^ 8 | None => 0 end.

Definition ToUint16 (x : number) : Z :=
  match truncate x with Some z => z mod 2 ^ 16 | None => 0 end.

Definition ToUint32 (x : number) : Z :=
  match truncate x with Some z => z mod 2 ^ 32 | None => 0 end.

(** [ToIntegerOrInfinity]. *)
Inductive IntegerOrInfinity := Int (z : Z) | PlusInfinity | MinusInfinity.

Definition ToIntegerOrInfinity (x : number) : IntegerOrInfinity :=
  match x with
  | S754_nan => Int 0
  | S754_infinity false => PlusInfinity
  | S754_infinity true => MinusInfinity
  | _ => Int (default 0 (truncate x))
  end.

(** [Math.fround]: the nearest binary32 value, as a number. *)
Definition fround (x : number) : number :=
  match x with
  | S754_finite s m e =>
      match binary_round 24 128 s m e with
      | S754_finite s' m' e' => binary_round prec emax s' m' e'
      | y => y
      end
  | _ => x
  end.

(** The values a [Float32Array] element can hold. *)
Definition is_float32 (x : number) : bool :=
  match x, fround x with
  | S754_finite s m e, S754_finite s' m' e' =>
      eqb s s' && (m =? m')%positive && (e =? e')
  | S754_finite _ _ _, _ => false
  | _, _ => true
  end.

(** [x || 0] for a number or [undefined] ([None]): [undefined], NaN and the
    zeros are falsy. *)
Definition or_zero (x : option number) : number :=
  match x with
  | Some (S754_finite s m e) => S754_finite s m e
  | Some (S754_infinity s) => S754_infinity s
  | _ => pzero
  end.

(** [ToNumber] of a number or [undefined]. *)
Definition to_number (x : option number) : number := default NaN x.

(** Number of iterations of [for (let i = 0; i < bound; i++)]; [None] when
    the loop does not end: the counter is a number, and [i++] no longer
    changes it once it has reached 2^53. *)
Definition iterations (bound : number) : option nat :=
  match bound with
  | S754_infinity false => None
  | S754_finite false m e =>
      let t := magnitude m e in
      let count := if is_integral bound then t else t + 1 in
      if count <=? 2 ^ 53 then Some (Z.to_nat count) else None
  | _ => Some 0%nat
  end.

End JS.

Import JS.

(** ** Completion of a call *)

Inductive exn := NotSupportedError | RangeError | IndexSizeError | TypeError.

(** A call returns a value, throws (an [async] function then rejects its
    promise), or never ends. *)
Inductive outcome (A : Type) : Type :=
  | Returns (a : A)
  | Throws (e : exn)
  | Diverges.
Arguments Returns {A} a.
Arguments Throws {A} e.
Arguments Diverges {A}.

Definition bind {A B : Type} (m : outcome A) (k : A -> outcome B) : outcome B :=
  match m with
  | Returns a => k a
  | Throws e => Throws e
  | Diverges => Diverges
  end.

Notation "'let*' x ':=' m 'in' k" := (bind m (fun x => k))
  (at level 10, x pattern, m at level 100, k at level 200).

(** [for (let i = start; i < start + count; i++) body], threading the
    mutated state [s] through the iterations. *)
Fixpoint loop {S : Type} (body : nat -> S -> outcome S) (count start : nat) (s : S)
  : outcome S :=
  match count with
  | O => Returns s
  | Datatypes.S count' => let* s' := body start s in loop body count' (Datatypes.S start) s'
  end.

(** [for (let i = 0; i < bound; i++) body] for an integer bound. *)
Definition for_upto {S : Type} (bound : nat) (body : nat -> S -> outcome S) (s : S)
  : outcome S :=
  loop body bound 0%nat s.

(** The same loop when the bound is a number. *)
Definition for_below {S : Type} (bound : number) (body : nat -> S -> outcome S) (s : S)
  : outcome S :=
  match iterations bound with
  | Some n => for_upto n body s
  | None => Diverges
  end.

(** ** Typed arrays *)

Module TypedArray.

(** Contents of a [Float32Array]: numbers representable in binary32. *)
Abbreviation Float32Array := (list number).

(** Contents of a [Uint8Array]: integers in [0, 256). *)
Abbreviation Uint8Array := (list Z).

(** [a[i]] for an integer loop counter. *)
Definition read (a : Float32Array) (i : nat) : option number := a !! i.

(** [a[k]] for a number [k]: [undefined] unless [k] is an integral index
    inside the array ([-0] is the index 0). *)
Definition get (a : Float32Array) (k : number) : option number :=
  match k with
  | S754_zero _ => a !! 0%nat
  | S754_finite false m e =>
      if is_integral k then a !! Z.to_nat (default 0 (truncate k)) else None
  | _ => None
  end.

(** [a[i] = v] on a [Float32Array]: rounds to binary32; a store outside the
    array is ignored. *)
Definition store (a : Float32Array) (i : nat) (v : number) : Float32Array :=
  <[i := fround v]> a.

(** [a[i] = v] on a [Uint8Array]. *)
Definition store8 (a : Uint8Array) (i : nat) (v : number) : Uint8Array :=
  <[i := ToUint8 v]> a.

(** [new Uint8Array(len)]: [ToIndex] of the length (a RangeError outside
    0 .. 2^53 - 1), then zero-filled.  An implementation also raises
    RangeError when it cannot create the data block; that refusal is not
    described here, so a returned array stands for an allocation the
    implementation carried out. *)
Definition new_Uint8Array (len : number) : outcome Uint8Array :=
  match ToIntegerOrInfinity len with
  | Int z =>
      if (0 <=? z) && (z <=? 2 ^ 53 - 1) then Returns (replicate (Z.to_nat z) 0)
      else Throws RangeError
  | _ => Throws RangeError
  end.

(** A relative index of [subarray] and [slice], clamped to the array. *)
Definition clamp_index (len : nat) (k : IntegerOrInfinity) : nat :=
  match k with
  | MinusInfinity => 0%nat
  | PlusInfinity => len
  | Int z =>
      if z <? 0 then Z.to_nat (Z.max (Z.of_nat len + z) 0)
      else Z.to_nat (Z.min z (Z.of_nat len))
  end.

(** [a.subarray(begin, end)]; [end] is [None] when the argument is absent. *)
Definition subarray {A : Type} (a : list A) (begin : number) (end_ : option number)
  : list A :=
  let beginIndex := clamp_index (length a) (ToIntegerOrInfinity begin) in
  let endIndex :=
    match end_ with
    | None => length a
    | Some e => clamp_index (length a) (ToIntegerOrInfinity e)
    end in
  take (endIndex - beginIndex) (drop beginIndex a).

(** [target.set(source, offset)]: RangeError when the offset is negative or
    the source does not fit. *)
Definition set {A : Type} (target source : list A) (offset : number) : outcome (list A) :=
  match ToIntegerOrInfinity offset with
  | Int z =>
      if z <? 0 then Throws RangeError
      else if Z.of_nat (length target) <? Z.of_nat (length source) + z
      then Throws RangeError
      else Returns (take (Z.to_nat z) target ++ source
                      ++ drop (Z.to_nat z + length source) target)
  | _ => Throws RangeError
  end.

End TypedArray.

(** ** Web Audio: [AudioBuffer] objects and [createBuffer] *)

Module AudioBuffer.

Record t := mk {
  sampleRate : number;
  length : nat;
  numberOfChannels : nat;
  channels : list TypedArray.Float32Array
}.

(** The [duration] attribute: length / sampleRate, in seconds. *)
Definition duration (b : t) : number := fdiv (of_nat (length b)) (sampleRate b).

End AudioBuffer.

(** The objects allocated so far, in allocation order; a reference is the
    position of its object. *)
Abbreviation Heap := (list AudioBuffer.t).
Abbreviation Ref := nat.

Definition deref (h : Heap) (r : Ref) : outcome AudioBuffer.t :=
  match h !! r with
  | Some b => Returns b
  | None => Throws TypeError
  end.

(** [buffer.getChannelData(channel)]: the samples of one channel. *)
Definition getChannelData (h : Heap) (r : Ref) (channel : nat)
  : outcome TypedArray.Float32Array :=
  let* b := deref h r in
  match AudioBuffer.channels b !! channel with
  | Some data => Returns data
  | None => Throws IndexSizeError
  end.

(** The array returned by [getChannelData] shares its storage with the
    buffer: after the stores made through it, the channel holds [data]. *)
Definition setChannelData (h : Heap) (r : Ref) (channel : nat)
  (data : TypedArray.Float32Array) : outcome Heap :=
  let* b := deref h r in
  Returns (<[r := AudioBuffer.mk (AudioBuffer.sampleRate b) (AudioBuffer.length b)
                    (AudioBuffer.numberOfChannels b)
                    (<[channel := data]> (AudioBuffer.channels b))]> h).

(** [audioContext.createBuffer(numberOfChannels, length, sampleRate)].  A
    sample rate that is not finite is a TypeError of the [float] argument.
    The call throws NotSupportedError when an argument is negative, zero or
    outside its nominal range (channels 1..32, sample rate 8000..96000 Hz);
    the length counts frames as an [unsigned long], so NaN, the infinities
    and every multiple of 2^32 count as zero.  Otherwise it allocates a
    silent buffer.  An implementation may also refuse a length for lack of
    memory; that refusal is not described here, so a returned buffer stands
    for an allocation the implementation carried out. *)
Definition createBuffer (h : Heap) (numberOfChannels : nat) (length : number)
  (sampleRate : number) : outcome (Ref * Heap) :=
  if negb (is_finite sampleRate) then Throws TypeError
  else
    let rate := fround sampleRate in
    let frames := ToUint32 length in
    if (1 <=? numberOfChannels)%nat && (numberOfChannels <=? 32)%nat
       && negb (flt length pzero) && (1 <=? frames)
       && fle (of_Z 8000) rate && fle rate (of_Z 96000)
    then Returns (List.length h,
                  h ++ [AudioBuffer.mk rate (Z.to_nat frames) numberOfChannels
                          (replicate numberOfChannels
                             (replicate (Z.to_nat frames) pzero))])
    else Throws NotSupportedError.

(** ** audioProcessor: conversion to PCM and the transforms *)

Record PCMOptions := { pcm_sampleRate : number }.

(** The resampling step shared by [convertToPCM], [pitchShift] and
    [changeSpeed]: the sample at the fractional position [sourceIndex],
    linearly interpolated between its two neighbours when both exist. *)
Definition interpolate (sourceData : TypedArray.Float32Array) (sourceIndex : number)
  : number :=
  let index := Math_floor sourceIndex in
  let fraction := fsub sourceIndex index in
  if flt (fadd index one) (of_nat (length sourceData)) then
    fadd (fmul (to_number (TypedArray.get sourceData index)) (fsub one fraction))
         (fmul (to_number (TypedArray.get sourceData (fadd index one))) fraction)
  else
    or_zero (TypedArray.get sourceData index).

(** [Math.max(-1, Math.min(1, sample))]. *)
Definition clamp (sample : number) : number :=
  Math_max (of_Z (-1)) (Math_min one sample).

(** The byte of a sample: clamp, then [Math.round((sample + 1) * 127.5)]. *)
Definition pcm_value (sample : number) : number :=
  Math_round (fmul (fadd (clamp sample) one) lit_127_5).

Definition convertToPCM (audioBuffer : AudioBuffer.t) (options : PCMOptions)
  : outcome TypedArray.Uint8Array :=
  let sampleRate := pcm_sampleRate options in
  let sourceSampleRate := AudioBuffer.sampleRate audioBuffer in
  let* sourceData :=
    match AudioBuffer.channels audioBuffer !! 0%nat with
    | Some data => Returns data
    | None => Throws IndexSizeError
    end in
  let targetLength :=
    Math_floor (fdiv (fmul (of_nat (length sourceData)) sampleRate) sourceSampleRate) in
  let* pcmData := TypedArray.new_Uint8Array targetLength in
  for_below targetLength
    (fun i pcmData =>
       let sourceIndex := fdiv (fmul (of_nat i) sourceSampleRate) sampleRate in
       let sample := interpolate sourceData sourceIndex in
       Returns (TypedArray.store8 pcmData i (pcm_value sample)))
    pcmData.

(** The peak search of [normalizeAudio]. *)
Definition find_peak (channelData : TypedArray.Float32Array) : number :=
  fold_left (fun max sample => Math_max max (Math_abs sample)) channelData pzero.

Definition normalizeAudio (h : Heap) (audioBuffer : Ref) : outcome (Ref * Heap) :=
  let* b := deref h audioBuffer in
  let* channelData := getChannelData h audioBuffer 0 in
  let max := find_peak channelData in
  if feq max pzero then Returns (audioBuffer, h)
  else
    let gain := fdiv lit_0_95 max in
    let normalizedData := map (fun sample => fround (fmul sample gain)) channelData in
    let* (newBuffer, h) :=
      createBuffer h (AudioBuffer.numberOfChannels b)
        (of_nat (AudioBuffer.length b)) (AudioBuffer.sampleRate b) in
    let* h :=
      for_upto (AudioBuffer.numberOfChannels b)
        (fun channel h =>
           let* data := getChannelData h newBuffer channel in
           let* sourceData :=
             if (channel =? 0)%nat then Returns normalizedData
             else getChannelData h audioBuffer channel in
           let* data := TypedArray.set data sourceData pzero in
           setChannelData h newBuffer channel data)
        h in
    Returns (newBuffer, h).

Definition amplifyAudio (h : Heap) (audioBuffer : Ref) (gain : number)
  : outcome (Ref * Heap) :=
  let* b := deref h audioBuffer in
  let* (newBuffer, h) :=
    createBuffer h (AudioBuffer.numberOfChannels b)
      (of_nat (AudioBuffer.length b)) (AudioBuffer.sampleRate b) in
  let* h :=
    for_upto (AudioBuffer.numberOfChannels b)
      (fun channel h =>
         let* sourceData := getChannelData h audioBuffer channel in
         let* targetData := getChannelData h newBuffer channel in
         let* targetData :=
           for_upto (length sourceData)
             (fun i targetData =>
                Returns (TypedArray.store targetData i
                           (clamp (fmul (to_number (TypedArray.read sourceData i)) gain))))
             targetData in
         setChannelData h newBuffer channel targetData)
      h in
  Returns (newBuffer, h).

Section AudioProcessor.

(** [Math.pow] is implementation-approximated; it is left abstract here. *)
Variable Math_pow : number -> number -> number.

Definition pitchShift (h : Heap) (audioBuffer : Ref) (semitones : number)
  : outcome (Ref * Heap) :=
  let* b := deref h audioBuffer in
  let ratio := Math_pow (of_Z 2) (fdiv semitones (of_Z 12)) in
  let newLength := Math_floor (fdiv (of_nat (AudioBuffer.length b)) ratio) in
  let* (newBuffer, h) :=
    createBuffer h (AudioBuffer.numberOfChannels b) newLength
      (AudioBuffer.sampleRate b) in
  let* h :=
    for_upto (AudioBuffer.numberOfChannels b)
      (fun channel h =>
         let* sourceData := getChannelData h audioBuffer channel in
         let* targetData := getChannelData h newBuffer channel in
         let* targetData :=
           for_below newLength
             (fun i targetData =>
                let sourceIndex := fmul (of_nat i) ratio in
                Returns (TypedArray.store targetData i (interpolate sourceData sourceIndex)))
             targetData in
         setChannelData h newBuffer channel targetData)
      h in
  Returns (newBuffer, h).

End AudioProcessor.

Definition changeSpeed (h : Heap) (audioBuffer : Ref) (speed : number)
  : outcome (Ref * Heap) :=
  let* b := deref h audioBuffer in
  let newLength := Math_floor (fdiv (of_nat (AudioBuffer.length b)) speed) in
  let* (newBuffer, h) :=
    createBuffer h (AudioBuffer.numberOfChannels b) newLength
      (AudioBuffer.sampleRate b) in
  let* h :=
    for_upto (AudioBuffer.numberOfChannels b)
      (fun channel h =>
         let* sourceData := getChannelData h audioBuffer channel in
         let* targetData := getChannelData h newBuffer channel in
         let* targetData :=
           for_below newLength
             (fun i targetData =>
                let sourceIndex := fmul (of_nat i) speed in
                Returns (TypedArray.store targetData i (interpolate sourceData sourceIndex)))
             targetData in
         setChannelData h newBuffer channel targetData)
      h in
  Returns (newBuffer, h).

Definition trimAudio (h : Heap) (audioBuffer : Ref) (startTime endTime : number)
  : outcome (Ref * Heap) :=
  let* b := deref h audioBuffer in
  let startSample := Math_floor (fmul startTime (AudioBuffer.sampleRate b)) in
  let endSample := Math_floor (fmul endTime (AudioBuffer.sampleRate b)) in
  let length := fsub endSample startSample in
  let* (newBuffer, h) :=
    createBuffer h (AudioBuffer.numberOfChannels b) length
      (AudioBuffer.sampleRate b) in
  let* h :=
    for_upto (AudioBuffer.numberOfChannels b)
      (fun channel h =>
         let* sourceData := getChannelData h audioBuffer channel in
         let* targetData := getChannelData h newBuffer channel in
         let* targetData :=
           TypedArray.set targetData
             (TypedArray.subarray sourceData startSample (Some endSample)) pzero in
         setChannelData h newBuffer channel targetData)
      h in
  Returns (newBuffer, h).

Definition cutAudio (h : Heap) (audioBuffer : Ref) (startTime endTime : number)
  : outcome (Ref * Heap) :=
  let* b := deref h audioBuffer in
  let startSample := Math_floor (fmul startTime (AudioBuffer.sampleRate b)) in
  let endSample := Math_floor (fmul endTime (AudioBuffer.sampleRate b)) in
  let length := fsub (of_nat (AudioBuffer.length b)) (fsub endSample startSample) in
  let* (newBuffer, h) :=
    createBuffer h (AudioBuffer.numberOfChannels b) length
      (AudioBuffer.sampleRate b) in
  let* h :=
    for_upto (AudioBuffer.numberOfChannels b)
      (fun channel h =>
         let* sourceData := getChannelData h audioBuffer channel in
         let* targetData := getChannelData h newBuffer channel in
         let* targetData :=
           TypedArray.set targetData
             (TypedArray.subarray sourceData pzero (Some startSample)) pzero in
         let* targetData :=
           TypedArray.set targetData
             (TypedArray.subarray sourceData endSample None) startSample in
         setChannelData h newBuffer channel targetData)
      h in
  Returns (newBuffer, h).

(** ** pcmExport: the C array and the WAV file *)

Local Open Scope string_scope.
Local Open Scope list_scope.

(** String concatenation, [s1 + s2]. *)
Infix "+:+" := String.append (at level 60, right associativity).

Record ExportOptions := {
  arrayName : option string;
  sampleRate : number
}.

Record Blob := { blob_bytes : list Z; blob_type : string }.

(** [n.toString()] for a non-negative integer: its decimal digits. *)
Definition nat_toString (n : nat) : string := NilEmpty.string_of_uint (Nat.to_uint n).

(** [v.toString()] for an element of a [Uint8Array]. *)
Definition byte_toString (v : Z) : string := nat_toString (Z.to_nat v).

(** [s.padStart(targetLength, fill)] for a one-character filler: the filler
    is put in front of [s] until the length is reached. *)
Definition padStart (targetLength : nat) (fill : ascii) (s : string) : string :=
  string_of_list_ascii (replicate (targetLength - String.length s) fill) +:+ s.

(** [lines.join(sep)]. *)
Definition join (sep : string) (l : list string) : string := String.concat sep l.

(** [a.slice(start, end)] for indexes inside the array. *)
Definition slice {A : Type} (a : list A) (start end_ : nat) : list A :=
  take (end_ - start) (drop start a).

Definition chunkSize : nat := 16.

(** One line of values: [chunk] is [pcmData.slice(i, i + chunkSize)]. *)
Definition chunk_line (pcmData : list Z) (i : nat) : string :=
  let chunk := slice pcmData i (Nat.min (i + chunkSize) (length pcmData)) in
  let values := join ", " (map (fun v => padStart 3 " " (byte_toString v)) chunk) in
  "  " +:+ values +:+ (if (i + chunkSize <? length pcmData)%nat then "," else "").

(** [for (let i = 0; i < pcmData.length; i += chunkSize) lines.push(..)];
    the loop runs at most [fuel] times. *)
Fixpoint chunk_loop (fuel : nat) (pcmData : list Z) (i : nat) (lines : list string)
  : list string :=
  match fuel with
  | O => lines
  | S fuel' =>
      if (i <? length pcmData)%nat
      then chunk_loop fuel' pcmData (i + chunkSize) (lines ++ [chunk_line pcmData i])
      else lines
  end.

Section PcmExport.

(** [Number::toString] of an arbitrary number is left abstract; lengths and
    bytes are integers and are printed by [nat_toString]. *)
Variable Number_toString : number -> string.

Definition exportAsCArray (pcmData : list Z) (options : ExportOptions) : string :=
  let arrayName := default "audioData" (arrayName options) in
  let sampleRate := sampleRate options in
  let lines := [] in
  let lines := lines ++ ["// PCM Audio Data - " +:+ nat_toString (length pcmData) +:+ " samples"] in
  let lines := lines ++ ["// Sample Rate: " +:+ Number_toString sampleRate +:+ " Hz"] in
  let lines := lines ++ ["// Format: 8-bit unsigned PCM"] in
  let lines := lines ++ ["const uint8_t " +:+ arrayName +:+ "[] = {"] in
  let lines := chunk_loop (length pcmData) pcmData 0 lines in
  let lines := lines ++ ["};"] in
  let lines := lines ++ ["const size_t " +:+ arrayName +:+ "_length = "
                           +:+ nat_toString (length pcmData) +:+ ";"] in
  join (String "010" "") lines.

(** [String.prototype.toUpperCase]; its case mapping is left abstract. *)
Variable toUpperCase : string -> string.

Definition exportAsCHeader (pcmData : list Z) (options : ExportOptions) : string :=
  let arrayName := default "audioData" (arrayName options) in
  let sampleRate := sampleRate options in
  let headerGuard := "AUDIO_DATA_" +:+ toUpperCase arrayName +:+ "_H" in
  let lines := [] in
  let lines := lines ++ ["#ifndef " +:+ headerGuard] in
  let lines := lines ++ ["#define " +:+ headerGuard] in
  let lines := lines ++ [""] in
  let lines := lines ++ ["// PCM Audio Data - " +:+ nat_toString (length pcmData) +:+ " samples"] in
  let lines := lines ++ ["// Sample Rate: " +:+ Number_toString sampleRate +:+ " Hz"] in
  let lines := lines ++ ["// Format: 8-bit unsigned PCM"] in
  let lines := lines ++ ["extern const uint8_t " +:+ arrayName +:+ "[];"] in
  let lines := lines ++ ["extern const size_t " +:+ arrayName +:+ "_length;"] in
  let lines := lines ++ [""] in
  let lines := lines ++ ["#endif // " +:+ headerGuard] in
  join (String "010" "") lines.

End PcmExport.

(** [new Blob([pcmData], { type: 'application/octet-stream' })]. *)
Definition exportAsRAW (pcmData : list Z) : Blob :=
  {| blob_bytes := pcmData; blob_type := "application/octet-stream" |}.

(** [DataView] stores; each throws RangeError outside the buffer. *)
Module DataView.

Definition le_bytes (width : nat) (v : Z) : list Z :=
  map (fun k => (v / 2 ^ (8 * Z.of_nat k)) mod 256) (seq 0 width).

Definition write (view : list Z) (offset : nat) (bytes : list Z) : outcome (list Z) :=
  if (offset + length bytes <=? length view)%nat
  then Returns (take offset view ++ bytes ++ drop (offset + length bytes) view)
  else Throws RangeError.

Definition setUint8 (view : list Z) (offset : nat) (v : number) : outcome (list Z) :=
  write view offset [ToUint8 v].

(** [view.setUint16(offset, v, true)]: little-endian. *)
Definition setUint16 (view : list Z) (offset : nat) (v : number) : outcome (list Z) :=
  write view offset (le_bytes 2 (ToUint16 v)).

(** [view.setUint32(offset, v, true)]: little-endian. *)
Definition setUint32 (view : list Z) (offset : nat) (v : number) : outcome (list Z) :=
  write view offset (le_bytes 4 (ToUint32 v)).

End DataView.

(** [string.charCodeAt(i)]; NaN outside the string. *)
Definition charCodeAt (s : string) (i : nat) : number :=
  match String.get i s with
  | Some c => of_nat (nat_of_ascii c)
  | None => NaN
  end.

(** The local [writeString] of [exportAsWAV]. *)
Definition writeString (view : list Z) (offset : nat) (s : string) : outcome (list Z) :=
  for_upto (String.length s)
    (fun i view => DataView.setUint8 view (offset + i) (charCodeAt s i))
    view.

Definition exportAsWAV (pcmData : list Z) (sampleRate : number) : outcome Blob :=
  let buffer := replicate (44 + length pcmData) 0 in
  let view := buffer in
  let* view := writeString view 0 "RIFF" in
  let* view := DataView.setUint32 view 4 (fadd (of_Z 36) (of_nat (length pcmData))) in
  let* view := writeString view 8 "WAVE" in
  let* view := writeString view 12 "fmt " in
  let* view := DataView.setUint32 view 16 (of_Z 16) in
  let* view := DataView.setUint16 view 20 (of_Z 1) in
  let* view := DataView.setUint16 view 22 (of_Z 1) in
  let* view := DataView.setUint32 view 24 sampleRate in
  let* view := DataView.setUint32 view 28 sampleRate in
  let* view := DataView.setUint16 view 32 (of_Z 1) in
  let* view := DataView.setUint16 view 34 (of_Z 8) in
  let* view := writeString view 36 "data" in
  let* view := DataView.setUint32 view 40 (of_nat (length pcmData)) in
  let* dataView := TypedArray.set (drop 44 view) pcmData pzero in
  Returns {| blob_bytes := take 44 view ++ dataView; blob_type := "audio/wav" |}.

(** ** Well-formed inputs *)

Local Open Scope Z_scope.

(** Numbers are kept in the canonical form of binary64. *)
Definition valid (x : number) : Prop := valid_binary prec emax x = true.

(** An element of a [Float32Array]: a canonical number that [fround] keeps. *)
Definition float32_value (x : number) : bool :=
  valid_binary prec emax x && is_float32 x.

(** An [AudioBuffer] as the platform builds them: 1 to 32 channels, each of
    [length] samples, at least one sample frame, a sample rate between 8000
    and 96000 Hz, and binary32 values throughout. *)
Definition wf_buffer (b : AudioBuffer.t) : bool :=
  (1 <=? AudioBuffer.numberOfChannels b)%nat
  && (AudioBuffer.numberOfChannels b <=? 32)%nat
  && (1 <=? AudioBuffer.length b)%nat
  && (Z.of_nat (AudioBuffer.length b) <? 2 ^ 32)
  && (length (AudioBuffer.channels b) =? AudioBuffer.numberOfChannels b)%nat
  && forallb (fun data => (length data =? AudioBuffer.length b)%nat
                          && forallb float32_value data)
       (AudioBuffer.channels b)
  && is_finite (AudioBuffer.sampleRate b)
  && float32_value (AudioBuffer.sampleRate b)
  && fle (of_Z 8000) (AudioBuffer.sampleRate b)
  && fle (AudioBuffer.sampleRate b) (of_Z 96000).

(** Every sample is a finite number (neither NaN nor an infinity). *)
Definition finite_samples (b : AudioBuffer.t) : bool :=
  forallb (forallb is_finite) (AudioBuffer.channels b).

(** Two mantissa/exponent pairs that denote the same value. *)
Definition same_value (m : positive) (e : Z) (m' : positive) (e' : Z) : Prop :=
  Zpos m * 2 ^ (e - Z.min e e') = Zpos m' * 2 ^ (e' - Z.min e e').

(** Position of a number in the order: class, then exponent, then mantissa. *)
Definition order_key (x : number) : Z * Z * Z :=
  match x with
  | S754_nan => (0, 0, 0)
  | S754_zero _ => (0, 0, 0)
  | S754_infinity false => (2, 0, 0)
  | S754_infinity true => (-2, 0, 0)
  | S754_finite false m e => (1, e, Zpos m)
  | S754_finite true m e => (-1, - e, - Zpos m)
  end.

Definition lex_lt (a b : Z * Z * Z) : Prop :=
  let '(a1, a2, a3) := a in
  let '(b1, b2, b3) := b in
  a1 < b1 \/ (a1 = b1 /\ (a2 < b2 \/ (a2 = b2 /\ a3 < b3))).

(** * Specification-side definitions *)

Record wf_buffer_facts (b : AudioBuffer.t) : Prop := {
  wf_channels_pos : (1 <= AudioBuffer.numberOfChannels b <= 32)%nat;
  wf_length_pos : (1 <= AudioBuffer.length b)%nat;
  wf_length_u32 : Z.of_nat (AudioBuffer.length b) < 2 ^ 32;
  wf_channels_length : length (AudioBuffer.channels b) = AudioBuffer.numberOfChannels b;
  wf_channel_data : forall c data, AudioBuffer.channels b !! c = Some data ->
      length data = AudioBuffer.length b
      /\ forall i s, data !! i = Some s -> valid s /\ fround s = s;
  wf_rate_finite : is_finite (AudioBuffer.sampleRate b) = true;
  wf_rate_float32 : fround (AudioBuffer.sampleRate b) = AudioBuffer.sampleRate b;
  wf_rate_range : fle (of_Z 8000) (AudioBuffer.sampleRate b) = true
                  /\ fle (AudioBuffer.sampleRate b) (of_Z 96000) = true
}.

(** ** amplifyAudio *)

(** The sample written by [amplifyAudio]. *)
Definition amplified (gain sample : number) : number :=
  fround (clamp (fmul sample gain)).

(** ** pitchShift and changeSpeed *)

(** The channel written by the resampling loop: [count] iterations over a
    silent array of [newLength] samples. *)
Definition resampled (ratio : number) (count newLength : nat) (sourceData : list number)
  : list number :=
  fold_left
    (fun targetData i =>
       TypedArray.store targetData i (interpolate sourceData (fmul (of_nat i) ratio)))
    (seq 0 count) (replicate newLength pzero).

(** *** The identity resampling *)

(** Two numbers that are equal, or two zeros. *)
Definition same_number (x y : number) : Prop :=
  x = y \/ exists s s', x = S754_zero s /\ y = S754_zero s'.

(** The channel 0 written by [normalizeAudio]. *)
Definition normalized (channelData : list number) : list number :=
  map (fun sample => fround (fmul sample (fdiv lit_0_95 (find_peak channelData))))
      channelData.

(** ** convertToPCM *)

(** The byte written at index [i] of the PCM data. *)
Definition pcm_byte (audioBuffer : AudioBuffer.t) (options : PCMOptions)
  (sourceData : list number) (i : nat) : Z :=
  ToUint8
    (pcm_value
       (interpolate sourceData
          (fdiv (fmul (of_nat i) (AudioBuffer.sampleRate audioBuffer))
                (pcm_sampleRate options)))).

(** The length computed by [convertToPCM], as a number. *)
Definition targetLength (audioBuffer : AudioBuffer.t) (options : PCMOptions)
  (sourceData : list number) : number :=
  Math_floor (fdiv (fmul (of_nat (length sourceData)) (pcm_sampleRate options))
                   (AudioBuffer.sampleRate audioBuffer)).

(** ** exportAsWAV *)

(** The header writes of [exportAsWAV], with the bytes of the three fields
    that depend on the arguments already computed. *)
Definition wav_header_writes (riffSize rate dataSize : list Z) (view : list Z)
  : outcome (list Z) :=
  let* view := writeString view 0 "RIFF" in
  let* view := DataView.write view 4 riffSize in
  let* view := writeString view 8 "WAVE" in
  let* view := writeString view 12 "fmt " in
  let* view := DataView.setUint32 view 16 (of_Z 16) in
  let* view := DataView.setUint16 view 20 (of_Z 1) in
  let* view := DataView.setUint16 view 22 (of_Z 1) in
  let* view := DataView.write view 24 rate in
  let* view := DataView.write view 28 rate in
  let* view := DataView.setUint16 view 32 (of_Z 1) in
  let* view := DataView.setUint16 view 34 (of_Z 8) in
  let* view := writeString view 36 "data" in
  DataView.write view 40 dataSize.

(** The 44 bytes of the header, field by field. *)
Definition wav_header (riffSize rate dataSize : list Z) : list Z :=
  [82; 73; 70; 70] ++ riffSize
  ++ [87; 65; 86; 69] ++ [102; 109; 116; 32]
  ++ [16; 0; 0; 0] ++ [1; 0] ++ [1; 0]
  ++ rate ++ rate
  ++ [1; 0] ++ [8; 0]
  ++ [100; 97; 116; 97] ++ dataSize.

(** Little-endian bytes of an unsigned 32-bit integer. *)
Definition u32le (n : Z) : list Z :=
  [n mod 256; (n / 2 ^ 8) mod 256; (n / 2 ^ 16) mod 256; (n / 2 ^ 24) mod 256].

(** Number of rows of [chunkSize] values. *)
Definition row_count (pcmData : list Z) : nat := Nat.div (length pcmData + 15) 16.

Local Open Scope string_scope.
Local Open Scope list_scope.

(** The rows of values as described: 16 values per row, each padded by [pad]
    to width 3 and separated by a comma and a space; every row but the last
    ends with a comma. *)
Definition value_rows (pad : string -> string) (pcmData : list Z) : list string :=
  map (fun k =>
         "  " +:+ join ", " (map (fun v => pad (byte_toString v))
                               (take 16 (drop (16 * k) pcmData)))
         +:+ (if (16 * (k + 1) <? length pcmData)%nat then "," else ""))
      (seq 0 (row_count pcmData)).

(** The text of the C array as described, for a given padding of the values. *)
Definition c_array_text (pad : string -> string) (Number_toString : number -> string)
  (pcmData : list Z) (options : ExportOptions) : string :=
  let name := default "audioData" (arrayName options) in
  join (String "010" "")
    (["// PCM Audio Data - " +:+ nat_toString (length pcmData) +:+ " samples";
      "// Sample Rate: " +:+ Number_toString (sampleRate options) +:+ " Hz";
      "// Format: 8-bit unsigned PCM";
      "const uint8_t " +:+ name +:+ "[] = {"]
     ++ value_rows pad pcmData
     ++ ["};";
         "const size_t " +:+ name +:+ "_length = " +:+ nat_toString (length pcmData) +:+ ";"]).

(** Padding on the right: the filler is put behind [s]. *)
Definition padEnd (targetLength : nat) (fill : ascii) (s : string) : string :=
  s +:+ string_of_list_ascii (replicate (targetLength - String.length s) fill).

Local Open Scope Z_scope.

(** ** Sample inputs *)

Definition half : number := fdiv one (of_Z 2).

(** A mono buffer at 44100 Hz whose samples all equal [v]. *)
Definition constant_buffer (n : nat) (v : number) : AudioBuffer.t :=
  AudioBuffer.mk (of_Z 44100) n 1 [replicate n v].

(** A mono buffer at 44100 Hz with the given samples. *)
Definition mono_buffer (samples : list number) : AudioBuffer.t :=
  AudioBuffer.mk (of_Z 44100) (length samples) 1 [samples].

(** The sample [i] of channel [c]. *)
Definition sample (b : AudioBuffer.t) (c i : nat) : option number :=
  match AudioBuffer.channels b !! c with
  | Some data => data !! i
  | None => None
  end.

(** [Math.pow] where the examples use it, at exponent zero: ECMAScript fixes
    [Math.pow(x, 0) = 1] for every [x]. *)
Definition Math_pow_at_zero (base exponent : number) : number := one.

(** [Number::toString] on the integral numbers of the examples. *)
Definition integral_toString (x : number) : string :=
  nat_toString (Z.to_nat (default 0 (truncate x))).

(** *** C1 *)

(** Reading a constant array of [n] elements. *)
Definition get_constant (n : Z) (v : number) (k : number) : option number :=
  match k with
  | S754_zero _ => if 0 <? n then Some v else None
  | S754_finite false m e =>
      if is_integral k
      then if default 0 (truncate k) <? n then Some v else None
      else None
  | _ => None
  end.

(** [pcm_byte] on a constant array of [n] elements, without the array. *)
Definition constant_pcm_byte (n : Z) (v sourceRate targetRate : number) (i : Z) : Z :=
  let sourceIndex := fdiv (fmul (of_Z i) sourceRate) targetRate in
  let index := Math_floor sourceIndex in
  let fraction := fsub sourceIndex index in
  ToUint8
    (pcm_value
       (if flt (fadd index one) (of_Z n) then
          fadd (fmul (to_number (get_constant n v index)) (fsub one fraction))
               (fmul (to_number (get_constant n v (fadd index one))) fraction)
        else or_zero (get_constant n v index))).

(** The integers [start], [start + 1], ... ([count] of them). *)
Fixpoint zrange (count : nat) (start : Z) : list Z :=
  match count with
  | O => []
  | S count' => start :: zrange count' (start + 1)
  end.


(** The [width] bytes of a file from [offset] on. *)
Definition field (offset width : nat) (bytes : list Z) : list Z :=
  take width (drop offset bytes).

(** The character codes of an ASCII string. *)
Definition char_codes (s : string) : list Z :=
  map (fun c => Z.of_nat (nat_of_ascii c)) (list_ascii_of_string s).

(** Little-endian bytes of an unsigned 16-bit integer. *)
Definition u16le (n : Z) : list Z := [n mod 256; (n / 2 ^ 8) mod 256].

(** The options of the example: array name [x], 8000 Hz. *)
Definition example_options : ExportOptions :=
  {| arrayName := Some "x"; sampleRate := of_Z 8000 |}.

(** ** Attributes of the returned buffer *)

(** The buffer a call returns has the sample rate and the number of channels
    of [b]. *)
Definition keeps_attributes (b : AudioBuffer.t) (result : outcome (Ref * Heap)) : Prop :=
  forall (r' : Ref) (h' : Heap),
    result = Returns (r', h') ->
    exists b' : AudioBuffer.t,
      h' !! r' = Some b'
      /\ AudioBuffer.sampleRate b' = AudioBuffer.sampleRate b
      /\ AudioBuffer.numberOfChannels b' = AudioBuffer.numberOfChannels b.

(** ** Sample indices as numbers *)

(** A number that is the sample index [z]: the integer itself, or a zero of
    either sign when [z = 0]. *)
Definition index_number (x : number) (z : Z) : Prop :=
  (0 < z /\ x = of_Z z) \/ (z = 0 /\ exists s : bool, x = S754_zero s).

(** Eight distinct samples at 44100 Hz, and the time of a sample index. *)
Definition eight_samples : AudioBuffer.t :=
  mono_buffer [pzero; half; one; fneg half; fneg one; of_Z 2; of_Z 3; of_Z 4].

Definition time_of_index (i : Z) : number := fdiv (of_Z i) (of_Z 44100).

(** ** The store under the transforms *)

(** A call that returns has appended exactly one buffer to the store [h] and
    returns the reference of that buffer, which is not [r]; the buffers of
    [h] are as they were. *)
Definition returns_new_buffer (h : Heap) (r : Ref) (result : outcome (Ref * Heap)) : Prop :=
  forall (r' : Ref) (h' : Heap),
    result = Returns (r', h') ->
    exists b' : AudioBuffer.t,
      h' = h ++ [b'] /\ r' = length h /\ r' <> r
      /\ forall (r0 : Ref) (b0 : AudioBuffer.t), h !! r0 = Some b0 -> h' !! r0 = Some b0.

(** ** Reading a WAV file back *)

(** The unsigned integer whose little-endian bytes are given. *)
Definition le_value (bytes : list Z) : Z :=
  fold_right (fun byte rest => byte + 256 * rest) 0 bytes.

(** ** Rounding to nearest *)

(** The record [mrs] locates the fraction [N / D]: [shr_m mrs] is its
    integral part, and the round and sticky bits tell where the fraction lies
    between that integer and the next. *)
Definition located (mrs : shr_record) (N D : Z) : Prop :=
  match shr_r mrs, shr_s mrs with
  | false, false => N = shr_m mrs * D
  | false, true => shr_m mrs * D < N /\ 2 * N < (2 * shr_m mrs + 1) * D
  | true, false => 2 * N = (2 * shr_m mrs + 1) * D
  | true, true => (2 * shr_m mrs + 1) * D < 2 * N /\ N < (shr_m mrs + 1) * D
  end.

(** * Properties *)

Lemma digits2_pos_size (m : positive) : digits2_pos m = Pos.size m.
Proof. induction m; simpl; congruence. Qed.

Lemma digits2_bounds (m : positive) :
  2 ^ (Zpos (digits2_pos m) - 1) <= Zpos m < 2 ^ Zpos (digits2_pos m).
Proof.
  induction m as [m IH | m IH | ]; simpl digits2_pos.
  - rewrite Pos2Z.inj_succ, Z.pow_succ_r by lia.
    replace (Z.succ (Zpos (digits2_pos m)) - 1) with (Z.succ (Zpos (digits2_pos m) - 1)) by lia.
    rewrite Z.pow_succ_r by lia. lia.
  - rewrite Pos2Z.inj_succ, Z.pow_succ_r by lia.
    replace (Z.succ (Zpos (digits2_pos m)) - 1) with (Z.succ (Zpos (digits2_pos m) - 1)) by lia.
    rewrite Z.pow_succ_r by lia. lia.
  - simpl. lia.
Qed.

(** The number of binary digits is determined by the enclosing powers of two. *)
Lemma digits2_unique (m : positive) (d : Z) :
  2 ^ (d - 1) <= Zpos m < 2 ^ d -> Zpos (digits2_pos m) = d.
Proof.
  intros [Hlo Hhi]. pose proof (digits2_bounds m) as [Hlo' Hhi'].
  assert (0 < d). { destruct (Z.ltb_spec 0 d); auto. rewrite Z.pow_neg_r in Hlo by lia.
    assert (d = 0 \/ d < 0) as [-> | ?] by lia; [simpl in Hhi; lia | rewrite Z.pow_neg_r in Hhi; lia]. }
  destruct (Z.lt_trichotomy (Zpos (digits2_pos m)) d) as [Hc | [Hc | Hc]]; auto; exfalso.
  - assert (2 ^ Zpos (digits2_pos m) <= 2 ^ (d - 1)) by (apply Z.pow_le_mono_r; lia). lia.
  - assert (2 ^ d <= 2 ^ (Zpos (digits2_pos m) - 1)) by (apply Z.pow_le_mono_r; lia). lia.
Qed.

Lemma digits2_shift (m : positive) (k : Z) (q : positive) :
  0 <= k -> Zpos q = Zpos m * 2 ^ k ->
  Zpos (digits2_pos q) = Zpos (digits2_pos m) + k.
Proof.
  intros Hk Hq. apply digits2_unique. rewrite Hq.
  pose proof (digits2_bounds m) as [Hlo Hhi].
  replace (Zpos (digits2_pos m) + k - 1) with ((Zpos (digits2_pos m) - 1) + k) by lia.
  rewrite !Z.pow_add_r by lia.
  assert (0 < 2 ^ k) by (apply Z.pow_pos_nonneg; lia). nia.
Qed.

Lemma iter_pos_comm {A} (f : A -> A) (n : positive) (x : A) :
  SpecFloat.iter_pos f n (f x) = f (SpecFloat.iter_pos f n x).
Proof.
  revert x; induction n as [n IH | n IH | ]; intros x; simpl; auto.
  - now rewrite !IH.
  - now rewrite !IH.
Qed.

Lemma iter_pos_succ {A} (f : A -> A) (n : positive) (x : A) :
  SpecFloat.iter_pos f (Pos.succ n) x = f (SpecFloat.iter_pos f n x).
Proof.
  revert x; induction n as [n IH | n IH | ]; intros x; simpl; auto.
  - rewrite !IH. now rewrite !iter_pos_comm.
  - now rewrite !iter_pos_comm.
Qed.

(** Shifting right a mantissa whose low bits are zero is exact. *)
Lemma shr_1_exact (m : Z) :
  shr_1 (Build_shr_record (2 * m) false false) = Build_shr_record m false false.
Proof. destruct m as [ | q | q]; reflexivity. Qed.

Lemma iter_shr_exact (n : positive) (m : Z) :
  SpecFloat.iter_pos shr_1 n (Build_shr_record (m * 2 ^ Zpos n) false false)
  = Build_shr_record m false false.
Proof.
  revert m; induction n as [ | n IH] using Pos.peano_ind; intros m.
  - simpl. replace (m * 2 ^ 1) with (2 * m) by lia. apply shr_1_exact.
  - rewrite iter_pos_succ, Pos2Z.inj_succ, Z.pow_succ_r by lia.
    replace (m * (2 * 2 ^ Zpos n)) with ((2 * m) * 2 ^ Zpos n) by lia.
    rewrite IH. apply shr_1_exact.
Qed.

Lemma pos_iter_xO (m d : positive) : Zpos (Pos.iter xO m d) = Zpos m * 2 ^ Zpos d.
Proof.
  induction d as [ | d IH] using Pos.peano_ind.
  - simpl. lia.
  - rewrite Pos.iter_succ, Pos2Z.inj_succ, Z.pow_succ_r by lia.
    rewrite Pos2Z.inj_xO, IH. lia.
Qed.

Section Rounding.
Variables (p emx : Z).

Lemma canonical_fexp m e :
  canonical_mantissa p emx m e = true -> fexp p emx (Zpos (digits2_pos m) + e) = e.
Proof. unfold canonical_mantissa. intros H. now apply Z.eqb_eq in H. Qed.

Lemma bounded_inv m e :
  bounded p emx m e = true ->
  fexp p emx (Zpos (digits2_pos m) + e) = e /\ e <= emx - p.
Proof.
  unfold bounded. intros H. apply andb_true_iff in H as [H1 H2].
  split; [now apply canonical_fexp | now apply Z.leb_le].
Qed.

(** Rounding a value that is representable gives back its canonical form. *)
Lemma binary_round_aux_exact s mz e m' e' :
  bounded p emx m' e' = true -> e <= e' -> mz = Zpos m' * 2 ^ (e' - e) ->
  binary_round_aux p emx s mz e loc_Exact = S754_finite s m' e'.
Proof.
  intros Hb Hle Hm. destruct (bounded_inv _ _ Hb) as [Hc Hmax].
  assert (0 < mz) by (rewrite Hm; apply Z.mul_pos_pos; [lia | apply Z.pow_pos_nonneg; lia]).
  destruct mz as [ | m | m]; try lia.
  assert (Hd : Zpos (digits2_pos m) + e = Zpos (digits2_pos m') + e').
  { rewrite (digits2_shift m' (e' - e) m) by (auto; lia). lia. }
  assert (Hshr : shr_fexp p emx (Zpos m) e loc_Exact
                 = (Build_shr_record (Zpos m') false false, e')).
  { unfold shr_fexp. simpl Zdigits2. rewrite Hd, Hc. simpl shr_record_of_loc.
    unfold shr. destruct (e' - e) as [ | k | k] eqn:Hk; try lia.
    - f_equal; [ | lia]. f_equal. rewrite Hm. simpl. lia.
    - rewrite Hm, iter_shr_exact. f_equal. lia. }
  unfold binary_round_aux. rewrite Hshr. simpl shr_m. simpl loc_of_shr_record.
  simpl round_nearest_even.
  assert (Hshr' : shr_fexp p emx (Zpos m') e' loc_Exact
                  = (Build_shr_record (Zpos m') false false, e')).
  { unfold shr_fexp. simpl Zdigits2. rewrite Hc, Z.sub_diag. reflexivity. }
  rewrite Hshr'. simpl shr_m.
  apply Z.leb_le in Hmax. now rewrite Hmax.
Qed.

Lemma same_value_digits m e m' e' :
  same_value m e m' e' ->
  Zpos (digits2_pos m) + e = Zpos (digits2_pos m') + e'.
Proof.
  unfold same_value. intros H.
  destruct (Z.le_ge_cases e e') as [Hle | Hle].
  - rewrite Z.min_l, Z.sub_diag in H by lia. simpl in H. rewrite Z.mul_1_r in H.
    rewrite (digits2_shift m' (e' - e) m) by (auto; lia). lia.
  - rewrite Z.min_r, Z.sub_diag in H by lia. simpl in H. rewrite Z.mul_1_r in H.
    rewrite (digits2_shift m (e - e') m') by (auto; lia). lia.
Qed.

Lemma binary_round_exact s m e m' e' :
  bounded p emx m' e' = true -> same_value m e m' e' ->
  binary_round p emx s m e = S754_finite s m' e'.
Proof.
  intros Hb Hv. destruct (bounded_inv _ _ Hb) as [Hc Hmax].
  pose proof (same_value_digits _ _ _ _ Hv) as Hd.
  unfold binary_round. rewrite Hd, Hc. unfold shl_align, same_value in *.
  destruct (e' - e) as [ | k | k] eqn:Hk.
  - assert (e' = e) as -> by lia. rewrite Z.min_id, Z.sub_diag in Hv. simpl in Hv.
    apply binary_round_aux_exact; auto; try lia. rewrite Z.sub_diag. simpl. lia.
  - rewrite Z.min_l, Z.sub_diag in Hv by lia. simpl (2 ^ 0) in Hv. rewrite Z.mul_1_r in Hv.
    apply binary_round_aux_exact; auto; lia.
  - rewrite Z.min_r, Z.sub_diag in Hv by lia. simpl (2 ^ 0) in Hv. rewrite Z.mul_1_r in Hv.
    apply binary_round_aux_exact; auto; try lia.
    rewrite Z.sub_diag, pos_iter_xO. simpl (2 ^ 0). rewrite Z.mul_1_r, <- Hv.
    f_equal. f_equal. lia.
Qed.

End Rounding.

(** ** Binary64 facts *)


Lemma digits2_le_53 (q : positive) : Zpos q < 2 ^ 53 -> Zpos (digits2_pos q) <= 53.
Proof.
  intros Hq. pose proof (digits2_bounds q) as [Hlo _].
  destruct (Z.le_gt_cases (Zpos (digits2_pos q)) 53) as [ | Hgt]; auto.
  assert (2 ^ 53 <= 2 ^ (Zpos (digits2_pos q) - 1)) by (apply Z.pow_le_mono_r; lia). lia.
Qed.

(** An integer below 2^53 is a number: its canonical mantissa and exponent. *)
Lemma of_Z_canonical (n : Z) :
  0 < n < 2 ^ 53 ->
  exists m e, of_Z n = S754_finite false m e /\ bounded prec emax m e = true
              /\ e <= 0 /\ Zpos m = n * 2 ^ (- e) /\ 2 ^ 52 <= Zpos m < 2 ^ 53.
Proof.
  intros [Hpos Hlt]. destruct n as [ | q | q]; try lia.
  pose proof (digits2_le_53 q Hlt) as Hd.
  set (d := Zpos (digits2_pos q)) in *.
  assert (Hm : 0 < Zpos q * 2 ^ (53 - d)).
  { assert (0 < 2 ^ (53 - d)) by (apply Z.pow_pos_nonneg; lia). lia. }
  exists (Z.to_pos (Zpos q * 2 ^ (53 - d))), (d - 53).
  assert (Hmz : Zpos (Z.to_pos (Zpos q * 2 ^ (53 - d))) = Zpos q * 2 ^ (53 - d))
    by (apply Z2Pos.id; lia).
  assert (Hb : bounded prec emax (Z.to_pos (Zpos q * 2 ^ (53 - d))) (d - 53) = true).
  { unfold bounded, canonical_mantissa. apply andb_true_iff. split.
    - apply Z.eqb_eq.
      rewrite (digits2_shift q (53 - d) _) by (auto; lia). fold d.
      unfold fexp, emin, prec, emax. lia.
    - apply Z.leb_le. unfold prec, emax. lia. }
  assert (Hdm : Zpos (digits2_pos (Z.to_pos (Zpos q * 2 ^ (53 - d)))) = 53).
  { rewrite (digits2_shift q (53 - d) _) by (auto; lia). fold d. lia. }
  pose proof (digits2_bounds (Z.to_pos (Zpos q * 2 ^ (53 - d)))) as Hbd.
  rewrite Hdm in Hbd. change (53 - 1) with 52 in Hbd.
  split; [ | split; [ | split; [ | split]]]; auto; try lia.
  - unfold of_Z, binary_normalize. apply binary_round_exact; auto.
    unfold same_value. rewrite Z.min_r by lia. rewrite Hmz, Z.sub_diag. simpl (2 ^ 0).
    rewrite Z.mul_1_r. f_equal. f_equal. lia.
  - rewrite Hmz. f_equal. f_equal. lia.
Qed.

Lemma magnitude_spec (m : positive) (e : Z) :
  magnitude m e = if 0 <=? e then Zpos m * 2 ^ e else Zpos m / 2 ^ (- e).
Proof.
  unfold magnitude. destruct (Z.leb_spec 0 e).
  - now rewrite Z.shiftl_mul_pow2.
  - now rewrite Z.shiftr_div_pow2 by lia.
Qed.

Lemma magnitude_nonneg (m : positive) (e : Z) : 0 <= magnitude m e.
Proof.
  rewrite magnitude_spec. destruct (Z.leb_spec 0 e).
  - apply Z.mul_nonneg_nonneg; [lia | apply Z.pow_nonneg; lia].
  - apply Z.div_pos; [lia | apply Z.pow_pos_nonneg; lia].
Qed.

Lemma truncate_of_Z (n : Z) : 0 <= n < 2 ^ 53 -> truncate (of_Z n) = Some n.
Proof.
  intros [Hn Hlt]. destruct (Z.eq_dec n 0) as [-> | Hne]; [reflexivity | ].
  destruct (of_Z_canonical n) as (m & e & -> & _ & He & Hm & _); [lia | ].
  unfold truncate. simpl cond_Zopp. f_equal. rewrite magnitude_spec.
  destruct (Z.leb_spec 0 e).
  - assert (e = 0) as -> by lia. simpl in Hm. simpl. lia.
  - rewrite Hm. apply Z.div_mul. apply Z.pow_nonzero; lia.
Qed.

Lemma is_integral_of_Z (n : Z) : 0 <= n < 2 ^ 53 -> is_integral (of_Z n) = true.
Proof.
  intros [Hn Hlt]. destruct (Z.eq_dec n 0) as [-> | Hne]; [reflexivity | ].
  destruct (of_Z_canonical n) as (m & e & -> & _ & He & Hm & _); [lia | ].
  unfold is_integral. destruct (Z.leb_spec 0 e); [reflexivity | ].
  simpl orb. apply Z.eqb_eq. rewrite magnitude_spec.
  destruct (Z.leb_spec 0 e); [lia | ].
  rewrite Z.shiftl_mul_pow2, Hm, Z.div_mul by (try apply Z.pow_nonzero; lia).
  reflexivity.
Qed.

Lemma Math_floor_of_Z (n : Z) : 0 <= n < 2 ^ 53 -> Math_floor (of_Z n) = of_Z n.
Proof.
  intros [Hn Hlt]. destruct (Z.eq_dec n 0) as [-> | Hne]; [reflexivity | ].
  destruct (of_Z_canonical n) as (m & e & Heq & _ & He & Hm & _); [lia | ].
  rewrite Heq. unfold Math_floor. destruct (Z.leb_spec 0 e); [reflexivity | ].
  unfold signed. simpl cond_Zopp. rewrite Z.shiftr_div_pow2 by lia.
  rewrite Hm, Z.div_mul by (apply Z.pow_nonzero; lia).
  destruct n; try lia. now rewrite Heq.
Qed.

Lemma ToUint32_of_Z (n : Z) : 0 <= n < 2 ^ 32 -> ToUint32 (of_Z n) = n.
Proof.
  intros Hn. unfold ToUint32. rewrite truncate_of_Z by lia. apply Z.mod_small. lia.
Qed.

Lemma iterations_of_Z (n : Z) : 0 <= n < 2 ^ 53 -> iterations (of_Z n) = Some (Z.to_nat n).
Proof.
  intros [Hn Hlt]. destruct (Z.eq_dec n 0) as [-> | Hne]; [reflexivity | ].
  pose proof (truncate_of_Z n) as Ht. pose proof (is_integral_of_Z n) as Hi.
  destruct (of_Z_canonical n) as (m & e & Heq & _ & He & Hm & _); [lia | ].
  rewrite Heq in *. unfold iterations. rewrite Hi by lia.
  unfold truncate in Ht. simpl cond_Zopp in Ht. specialize (Ht ltac:(lia)).
  injection Ht as ->. cbv zeta.
  destruct (Z.leb_spec n (2 ^ 53)); [reflexivity | lia].
Qed.

Lemma one_eq : one = S754_finite false 4503599627370496 (-52).
Proof. reflexivity. Qed.

Lemma fmul_one (x : number) : valid x -> fmul x one = x.
Proof.
  intros Hv. rewrite one_eq.
  destruct x as [s | s | | s m e]; try (now destruct s); try reflexivity.
  unfold fmul, SFmul. rewrite xorb_false_r.
  apply binary_round_aux_exact; auto; try lia.
  replace (e - (e + -52)) with 52 by lia. rewrite Pos2Z.inj_mul. reflexivity.
Qed.

Lemma fexp_mono_gen (p emx a b : Z) : a <= b -> fexp p emx a <= fexp p emx b.
Proof. unfold fexp. lia. Qed.

Lemma fexp_mono (a b : Z) : a <= b -> fexp prec emax a <= fexp prec emax b.
Proof. unfold fexp. lia. Qed.

Lemma fdiv_one (x : number) : valid x -> fdiv x one = x.
Proof.
  intros Hv. rewrite one_eq.
  destruct x as [s | s | | s m e]; try (now destruct s); try reflexivity.
  unfold fdiv, SFdiv, SFdiv_core_binary.
  destruct (bounded_inv _ _ _ _ Hv) as [Hc Hmax].
  change (Zdigits2 (Z.pos 4503599627370496)) with 53.
  change (Zdigits2 (Z.pos m)) with (Z.pos (digits2_pos m)).
  set (e' := Z.min (fexp prec emax (Z.pos (digits2_pos m) + e - (53 + -52))) (e - -52)).
  assert (He' : e' <= e).
  { pose proof (fexp_mono (Z.pos (digits2_pos m) + e - (53 + -52))
                          (Z.pos (digits2_pos m) + e) ltac:(lia)). lia. }
  destruct (e - -52 - e') as [ | k | k] eqn:Hk; try lia.
  assert (Hsh : Z.shiftl (Z.pos m) (Z.pos k) = (Z.pos m * 2 ^ (e - e')) * 4503599627370496).
  { rewrite Z.shiftl_mul_pow2 by lia. rewrite <- Z.mul_assoc. f_equal.
    change 4503599627370496 with (2 ^ 52). rewrite <- Z.pow_add_r by lia. f_equal. lia. }
  rewrite Hsh.
  pose proof (Z.div_mul (Z.pos m * 2 ^ (e - e')) 4503599627370496 ltac:(lia)) as Hq.
  pose proof (Z.mod_mul (Z.pos m * 2 ^ (e - e')) 4503599627370496 ltac:(lia)) as Hr.
  unfold Z.div, Z.modulo in Hq, Hr.
  destruct (Z.div_eucl (Z.pos m * 2 ^ (e - e') * 4503599627370496) 4503599627370496)
    as [q r]. subst q r.
  rewrite xorb_false_r. change (new_location 4503599627370496 0) with loc_Exact.
  apply binary_round_aux_exact; auto.
Qed.

Lemma fsub_diag (x : number) : is_finite x = true -> fsub x x = pzero.
Proof.
  destruct x as [s | s | | s m e]; simpl; try discriminate; intros _.
  - now destruct s.
  - unfold fsub; simpl SFsub. now rewrite Z.sub_diag.
Qed.

Lemma shl_align_fst (m : positive) (e ez : Z) :
  ez <= e -> Zpos (fst (shl_align m e ez)) = Zpos m * 2 ^ (e - ez).
Proof.
  intros Hle. unfold shl_align. destruct (ez - e) as [ | k | k] eqn:Hk; try lia.
  - replace (e - ez) with 0 by lia. simpl. lia.
  - simpl fst. rewrite pos_iter_xO. f_equal. f_equal. lia.
Qed.

Lemma fadd_of_Z (a b : Z) :
  0 <= a -> 0 <= b -> a + b < 2 ^ 53 -> fadd (of_Z a) (of_Z b) = of_Z (a + b).
Proof.
  intros Ha Hb Hab.
  destruct (Z.eq_dec a 0) as [-> | Hna].
  { rewrite Z.add_0_l. destruct (Z.eq_dec b 0) as [-> | Hnb]; [reflexivity | ].
    destruct (of_Z_canonical b) as (m & e & -> & _); [lia | ]. reflexivity. }
  destruct (Z.eq_dec b 0) as [-> | Hnb].
  { rewrite Z.add_0_r. destruct (of_Z_canonical a) as (m & e & -> & _); [lia | ]. reflexivity. }
  destruct (of_Z_canonical a) as (ma & ea & -> & _ & Hea & Hma & _); [lia | ].
  destruct (of_Z_canonical b) as (mb & eb & -> & _ & Heb & Hmb & _); [lia | ].
  destruct (of_Z_canonical (a + b)) as (mc & ec & -> & Hbc & Hec & Hmc & _); [lia | ].
  unfold fadd, SFadd, cond_Zopp.
  set (ez := Z.min ea eb).
  pose proof (shl_align_fst ma ea ez ltac:(lia)) as H1.
  pose proof (shl_align_fst mb eb ez ltac:(lia)) as H2.
  assert (Hsum : Zpos (fst (shl_align ma ea ez)) + Zpos (fst (shl_align mb eb ez))
                 = (a + b) * 2 ^ (- ez)).
  { rewrite H1, H2, Hma, Hmb, <- !Z.mul_assoc, <- !Z.pow_add_r by lia.
    replace (- ea + (ea - ez)) with (- ez) by lia.
    replace (- eb + (eb - ez)) with (- ez) by lia. lia. }
  rewrite Hsum.
  assert (0 < (a + b) * 2 ^ (- ez))
    by (apply Z.mul_pos_pos; [lia | apply Z.pow_pos_nonneg; lia]).
  destruct ((a + b) * 2 ^ (- ez)) as [ | M | M] eqn:HM; try lia.
  unfold binary_normalize. apply binary_round_exact; auto.
  unfold same_value. rewrite <- HM, Hmc, <- !Z.mul_assoc, <- !Z.pow_add_r by lia.
  f_equal. f_equal. lia.
Qed.

Lemma valid_of_Z (n : Z) : 0 <= n < 2 ^ 53 -> valid (of_Z n).
Proof.
  intros [Hn Hlt]. destruct (Z.eq_dec n 0) as [-> | Hne]; [reflexivity | ].
  destruct (of_Z_canonical n) as (m & e & -> & Hb & _); [lia | ]. exact Hb.
Qed.

Lemma is_finite_of_Z (n : Z) : 0 <= n < 2 ^ 53 -> is_finite (of_Z n) = true.
Proof.
  intros [Hn Hlt]. destruct (Z.eq_dec n 0) as [-> | Hne]; [reflexivity | ].
  destruct (of_Z_canonical n) as (m & e & -> & Hb & _); [lia | ]. reflexivity.
Qed.

(** On integers, [<] on numbers is [<] on the integers. *)
Lemma flt_of_Z (a b : Z) :
  0 <= a < 2 ^ 53 -> 0 <= b < 2 ^ 53 -> flt (of_Z a) (of_Z b) = (a <? b).
Proof.
  intros Ha Hb.
  destruct (Z.eq_dec a 0) as [-> | Hna]; destruct (Z.eq_dec b 0) as [-> | Hnb].
  - reflexivity.
  - destruct (of_Z_canonical b) as (m & e & -> & _); [lia | ].
    change (flt (of_Z 0) (S754_finite false m e)) with true.
    symmetry. apply Z.ltb_lt. lia.
  - destruct (of_Z_canonical a) as (m & e & -> & _); [lia | ].
    change (flt (S754_finite false m e) (of_Z 0)) with false.
    symmetry. apply Z.ltb_ge. lia.
  - destruct (of_Z_canonical a) as (ma & ea & -> & _ & Hea & Hma & Hra); [lia | ].
    destruct (of_Z_canonical b) as (mb & eb & -> & _ & Heb & Hmb & Hrb); [lia | ].
    unfold flt, SFltb, SFcompare.
    assert (Hpa : 0 < 2 ^ (- ea)) by (apply Z.pow_pos_nonneg; lia).
    assert (Hpb : 0 < 2 ^ (- eb)) by (apply Z.pow_pos_nonneg; lia).
    destruct (Z.compare_spec ea eb) as [Heq | Hlt | Hgt].
    + subst eb. rewrite Pos.compare_cont_spec. simpl Pos.switch_Eq.
      change (Pos.compare ma mb) with (Z.compare (Zpos ma) (Zpos mb)).
      rewrite Hma, Hmb.
      destruct (Z.compare_spec (a * 2 ^ (- ea)) (b * 2 ^ (- ea))) as [H | H | H];
        symmetry; [apply Z.ltb_ge | apply Z.ltb_lt | apply Z.ltb_ge]; nia.
    + symmetry. apply Z.ltb_lt.
      assert (H2 : 2 ^ (- ea) = 2 ^ (- eb) * 2 ^ (eb - ea)).
      { rewrite <- Z.pow_add_r by lia. f_equal. lia. }
      assert (2 <= 2 ^ (eb - ea)).
      { change 2 with (2 ^ 1) at 1. apply Z.pow_le_mono_r; lia. }
      destruct (Z.lt_ge_cases a b) as [ | Hge]; auto. exfalso.
      assert (b * 2 ^ (- eb) * 2 <= a * 2 ^ (- ea)); [ | lia].
      rewrite H2. nia.
    + symmetry. apply Z.ltb_ge.
      assert (H2 : 2 ^ (- eb) = 2 ^ (- ea) * 2 ^ (ea - eb)).
      { rewrite <- Z.pow_add_r by lia. f_equal. lia. }
      assert (2 <= 2 ^ (ea - eb)).
      { change 2 with (2 ^ 1) at 1. apply Z.pow_le_mono_r; lia. }
      destruct (Z.lt_ge_cases a b) as [Hlt | ]; auto. exfalso.
      assert (a * 2 ^ (- ea) * 2 <= b * 2 ^ (- eb)); [ | lia].
      rewrite H2. nia.
Qed.

Lemma get_of_Z (a : list number) (i : nat) :
  Z.of_nat i < 2 ^ 53 -> TypedArray.get a (of_nat i) = a !! i.
Proof.
  intros Hi. unfold of_nat.
  pose proof (truncate_of_Z (Z.of_nat i) ltac:(lia)) as Ht.
  pose proof (is_integral_of_Z (Z.of_nat i) ltac:(lia)) as Hint.
  destruct (Z.eq_dec (Z.of_nat i) 0) as [H0 | Hne].
  { rewrite H0. assert (i = 0%nat) as -> by lia. reflexivity. }
  destruct (of_Z_canonical (Z.of_nat i)) as (m & e & Heq & _); [lia | ].
  rewrite Heq in *. unfold TypedArray.get. rewrite Hint, Ht. simpl.
  now rewrite Nat2Z.id.
Qed.

Lemma get_of_Z_nat (a : list number) (z : Z) :
  0 <= z < 2 ^ 53 -> TypedArray.get a (of_Z z) = a !! Z.to_nat z.
Proof.
  intros Hz. pose proof (get_of_Z a (Z.to_nat z)) as H. unfold of_nat in H.
  rewrite Z2Nat.id in H by lia. apply H. lia.
Qed.

Lemma shr_1_m (mrs : shr_record) :
  0 <= shr_m mrs -> shr_m (shr_1 mrs) = shr_m mrs / 2.
Proof.
  destruct mrs as [m r s]. simpl. intros Hm.
  destruct m as [ | [q | q | ] | q]; try lia; simpl shr_m; try reflexivity.
  - apply (Z.div_unique _ 2 _ 1); lia.
  - apply (Z.div_unique _ 2 _ 0); lia.
Qed.

Lemma iter_shr_m (n : positive) (mrs : shr_record) :
  0 <= shr_m mrs -> shr_m (SpecFloat.iter_pos shr_1 n mrs) = shr_m mrs / 2 ^ Zpos n.
Proof.
  intros Hm. induction n as [ | n IH] using Pos.peano_ind.
  - simpl SpecFloat.iter_pos. rewrite shr_1_m by auto. reflexivity.
  - rewrite iter_pos_succ, shr_1_m, IH.
    + rewrite Pos2Z.inj_succ, Z.pow_succ_r, Z.div_div by lia.
      f_equal. lia.
    + rewrite IH. apply Z.div_pos; [lia | apply Z.pow_pos_nonneg; lia].
Qed.

Lemma Zdigits2_bounds (m : Z) :
  0 < m -> 2 ^ (Zdigits2 m - 1) <= m < 2 ^ Zdigits2 m /\ 0 < Zdigits2 m.
Proof.
  destruct m as [ | q | q]; try lia. intros _. simpl Zdigits2.
  split; [apply digits2_bounds | lia].
Qed.

Lemma Zdigits2_unique (m d : Z) : 2 ^ (d - 1) <= m < 2 ^ d -> 0 < m -> Zdigits2 m = d.
Proof.
  destruct m as [ | q | q]; try lia. intros H _. simpl. now apply digits2_unique.
Qed.

Lemma round_nearest_even_cases (m : Z) (l : location) :
  round_nearest_even m l = m \/ round_nearest_even m l = m + 1.
Proof.
  destruct l as [ | []]; simpl; auto. destruct (Z.even m); auto.
Qed.

Section RoundingCases.
Variables (p emx : Z).
Hypothesis Hp : 0 < p.

Local Abbreviation fexp' := (fexp p emx).
Local Abbreviation emin' := (emin p emx).

Lemma shr_fexp_m (m e : Z) (l : location) :
  0 < m -> e <= fexp' (Zdigits2 m + e) ->
  shr_fexp p emx m e l
  = (fst (shr_fexp p emx m e l), fexp' (Zdigits2 m + e))
  /\ shr_m (fst (shr_fexp p emx m e l)) = m / 2 ^ (fexp' (Zdigits2 m + e) - e).
Proof.
  intros Hm He. unfold shr_fexp, shr.
  assert (Hrec : shr_m (shr_record_of_loc m l) = m) by (destruct l as [ | []]; reflexivity).
  destruct (fexp' (Zdigits2 m + e) - e) as [ | k | k] eqn:Hk; try lia.
  - simpl fst. rewrite Hrec. split; [f_equal; lia | ]. simpl. now rewrite Z.div_1_r.
  - simpl fst. rewrite iter_shr_m by (rewrite Hrec; lia). rewrite Hrec.
    split; [f_equal; lia | reflexivity].
Qed.

(** The result of rounding: zero, an infinity, or a canonical number whose
    magnitude does not go beyond the next power of two. *)
Lemma binary_round_aux_cases (s : bool) (m e : Z) (l : location) :
  0 < m -> e <= fexp' (Zdigits2 m + e) ->
  binary_round_aux p emx s m e l = S754_zero s
  \/ (binary_round_aux p emx s m e l = S754_infinity s
      /\ emx - p < fexp' (Z.max (Zdigits2 m + e) emin' + 1))
  \/ exists m' e',
       binary_round_aux p emx s m e l = S754_finite s m' e'
       /\ bounded p emx m' e' = true
       /\ (Zpos (digits2_pos m') + e' <= Zdigits2 m + e
           \/ (Zpos m' = 2 ^ (Zpos (digits2_pos m') - 1)
               /\ Zpos (digits2_pos m') + e' <= Z.max (Zdigits2 m + e) emin' + 1)).
Proof.
  intros Hm He.
  destruct (shr_fexp_m m e l Hm He) as [Hs1 Hm1].
  destruct (Zdigits2_bounds m Hm) as [[Hlo Hhi] Hdpos].
  set (d := Zdigits2 m) in *. set (E := d + e) in *. set (f := fexp' E) in *.
  set (n := f - e) in *. assert (Hn : 0 <= n) by lia.
  unfold binary_round_aux. rewrite Hs1.
  set (mrs1 := fst (shr_fexp p emx m e l)) in *.
  set (m1 := shr_m mrs1) in *.
  assert (H2n : 0 < 2 ^ n) by (apply Z.pow_pos_nonneg; lia).
  assert (Hm1nn : 0 <= m1) by (rewrite Hm1; apply Z.div_pos; lia).
  assert (Hfmin : emin' <= f) by (unfold f, fexp; lia).
  pose proof (round_nearest_even_cases m1 (loc_of_shr_record mrs1)) as Hr.
  set (m1' := round_nearest_even m1 (loc_of_shr_record mrs1)) in *.
  destruct (Z.eq_dec m1' 0) as [Hz | Hnz].
  { left. rewrite Hz. unfold shr_fexp. simpl Zdigits2. simpl shr_record_of_loc.
    replace (fexp' (0 + f) - f) with (Z.min 0 (emin' - f + 0) + Z.max (- p) (emin' - f) - Z.min 0 (emin' - f))
      by (unfold fexp; lia).
    unfold shr.
    destruct (Z.min 0 (emin' - f + 0) + Z.max (- p) (emin' - f) - Z.min 0 (emin' - f))
      as [ | k | k] eqn:Hk; try reflexivity. lia. }
  assert (Hm1'pos : 0 < m1') by lia.
  (* the mantissa after the first shift *)
  assert (Hcase : (n < d /\ 2 ^ (d - n - 1) <= m1 < 2 ^ (d - n)) \/ (d <= n /\ m1 = 0)).
  { destruct (Z.lt_ge_cases n d) as [Hnd | Hnd]; [left | right]; (split; [exact Hnd | ]).
    - rewrite Hm1. split.
      + apply Z.div_le_lower_bound; [lia | ].
        rewrite <- Z.pow_add_r by lia. replace (n + (d - n - 1)) with (d - 1) by lia.
        exact Hlo.
      + apply Z.div_lt_upper_bound; [lia | ].
        rewrite <- Z.pow_add_r by lia. replace (n + (d - n)) with d by lia. exact Hhi.
    - rewrite Hm1. apply Z.div_small. split; [lia | ].
      eapply Z.lt_le_trans; [exact Hhi | apply Z.pow_le_mono_r; lia]. }
  destruct (Zdigits2_bounds m1' Hm1'pos) as [[Hlo' Hhi'] Hd'pos].
  set (d' := Zdigits2 m1') in *.
  (* the magnitude of the rounded mantissa *)
  assert (HE' : (d' + f = E /\ n < d)
                \/ (m1' = 2 ^ (d' - 1) /\ d' + f <= Z.max E emin' + 1 /\ E <= d' + f)).
  { destruct Hcase as [(Hnd & Hl & Hu) | (Hnd & Hm10)].
    - destruct (Z.eq_dec m1' (2 ^ (d - n))) as [Hpow | Hnpow].
      + right. assert (Hd' : d' = d - n + 1).
        { apply Zdigits2_unique; auto. replace (d - n + 1 - 1) with (d - n) by lia.
          rewrite Hpow. split; [lia | ]. apply Z.pow_lt_mono_r; lia. }
        rewrite Hd'. replace (d - n + 1 - 1) with (d - n) by lia.
        split; [exact Hpow | ]. unfold n, E. lia.
      + left. split; [ | exact Hnd]. assert (Hd' : d' = d - n).
        { apply Zdigits2_unique; auto. lia. }
        rewrite Hd'. unfold n, E. lia.
    - right. assert (H1 : m1' = 1) by lia.
      assert (Hd' : d' = 1) by (unfold d'; rewrite H1; reflexivity).
      rewrite Hd'. simpl. split; [exact H1 | ].
      assert (f = emin') by (unfold n, f, fexp, E in *; lia).
      unfold E. lia. }
  assert (Hn2 : 0 <= fexp' (d' + f) - f).
  { unfold f at 2. destruct HE' as [[-> _] | (_ & _ & Hge)]; [fold f; lia | ].
    pose proof (fexp_mono_gen p emx E (d' + f) Hge). lia. }
  destruct (shr_fexp_m m1' f loc_Exact Hm1'pos ltac:(fold d'; lia)) as [Hs2 Hm2].
  fold d' in Hs2, Hm2. rewrite Hs2.
  set (mrs2 := fst (shr_fexp p emx m1' f loc_Exact)) in *.
  set (n2 := fexp' (d' + f) - f) in *.
  assert (H2n2 : 0 < 2 ^ n2) by (apply Z.pow_pos_nonneg; lia).
  assert (Hcanon : shr_m mrs2 > 0 /\ Zdigits2 (shr_m mrs2) + fexp' (d' + f) = d' + f
                   /\ (m1' = 2 ^ (d' - 1) -> shr_m mrs2 = 2 ^ (Zdigits2 (shr_m mrs2) - 1))).
  { rewrite Hm2. destruct (Z.eq_dec n2 0) as [Hn20 | Hn2pos].
    - rewrite Hn20. simpl (2 ^ 0). rewrite Z.div_1_r. fold d'.
      split; [lia | ]. split; [lia | auto].
    - assert (Hn2' : n2 < d').
      { unfold n2, fexp. lia. }
      assert (Hq : 2 ^ (d' - n2 - 1) <= m1' / 2 ^ n2 < 2 ^ (d' - n2)).
      { split.
        - apply Z.div_le_lower_bound; [lia | ].
          rewrite <- Z.pow_add_r by lia. replace (n2 + (d' - n2 - 1)) with (d' - 1) by lia.
          exact Hlo'.
        - apply Z.div_lt_upper_bound; [lia | ].
          rewrite <- Z.pow_add_r by lia. replace (n2 + (d' - n2)) with d' by lia.
          exact Hhi'. }
      assert (0 < 2 ^ (d' - n2 - 1)) by (apply Z.pow_pos_nonneg; lia).
      assert (Hdq : Zdigits2 (m1' / 2 ^ n2) = d' - n2).
      { apply Zdigits2_unique; [ | lia]. exact Hq. }
      rewrite Hdq. split; [lia | ]. split; [unfold n2; lia | ].
      intros Hpow. rewrite Hpow.
      replace (d' - 1) with ((d' - n2 - 1) + n2) by lia.
      rewrite Z.pow_add_r by lia. rewrite Z.div_mul by lia. reflexivity. }
  destruct Hcanon as (Hpos2 & Hcan & Hpow2).
  destruct (shr_m mrs2) as [ | m' | m'] eqn:Hm'; try lia.
  destruct (Z.leb_spec (fexp' (d' + f)) (emx - p)) as [Hle | Hgt].
  2:{ right; left. split; [reflexivity | ]. fold d E.
      assert (Hb : d' + f <= Z.max E emin' + 1) by (destruct HE' as [[HEq _] | (_ & Hle' & _)]; lia).
      pose proof (fexp_mono_gen p emx _ _ Hb). lia. }
  right; right. exists m', (fexp' (d' + f)). split; [reflexivity | ].
  simpl Zdigits2 in Hcan, Hpow2.
  split.
  - unfold bounded, canonical_mantissa. apply andb_true_iff. split.
    + apply Z.eqb_eq. rewrite Hcan. reflexivity.
    + now apply Z.leb_le.
  - rewrite Hcan. fold d E.
    destruct HE' as [[HEq _] | (Hpw & Hle' & _)]; [left; lia | right].
    split; [now apply Hpow2 | exact Hle'].
Qed.

End RoundingCases.

Lemma Zpos_digits2_mul (mx my : positive) :
  Zpos (digits2_pos mx) + Zpos (digits2_pos my) - 1 <= Zpos (digits2_pos (mx * my)).
Proof.
  pose proof (digits2_bounds mx) as [Hx _]. pose proof (digits2_bounds my) as [Hy _].
  pose proof (digits2_bounds (mx * my)) as [_ Hxy]. rewrite Pos2Z.inj_mul in Hxy.
  set (dx := Zpos (digits2_pos mx)) in *. set (dy := Zpos (digits2_pos my)) in *.
  set (D := Zpos (digits2_pos (mx * my))) in *.
  destruct (Z.le_gt_cases (dx + dy - 1) D) as [ | Hgt]; auto. exfalso.
  assert (2 ^ D <= 2 ^ (dx - 1 + (dy - 1))) by (apply Z.pow_le_mono_r; lia).
  rewrite Z.pow_add_r in H by lia.
  assert (0 < 2 ^ (dx - 1)) by (apply Z.pow_pos_nonneg; lia).
  assert (0 < 2 ^ (dy - 1)) by (apply Z.pow_pos_nonneg; lia).
  nia.
Qed.

(** Products of numbers are numbers in canonical form. *)
Lemma valid_fmul (x y : number) : valid x -> valid y -> valid (fmul x y).
Proof.
  intros Hx Hy. destruct x as [sx | sx | | sx mx ex], y as [sy | sy | | sy my ey];
    try reflexivity.
  unfold fmul, SFmul.
  destruct (bounded_inv _ _ _ _ Hx) as [Hcx _]. destruct (bounded_inv _ _ _ _ Hy) as [Hcy _].
  pose proof (Zpos_digits2_mul mx my) as HD.
  destruct (binary_round_aux_cases prec emax ltac:(reflexivity) (xorb sx sy)
              (Zpos (mx * my)) (ex + ey) loc_Exact ltac:(lia)) as [-> | [[-> _] | (m' & e' & -> & Hb & _)]];
    try reflexivity; try exact Hb.
  simpl Zdigits2. unfold fexp, emin, prec, emax in *. lia.
Qed.

Lemma fmul_finite_not_nan (x y : number) :
  valid x -> valid y -> is_finite x = true -> is_finite y = true ->
  is_nan (fmul x y) = false.
Proof.
  intros Hx Hy Hfx Hfy. destruct x as [sx | sx | | sx mx ex], y as [sy | sy | | sy my ey];
    try discriminate; try reflexivity.
  unfold fmul, SFmul.
  destruct (bounded_inv _ _ _ _ Hx) as [Hcx _]. destruct (bounded_inv _ _ _ _ Hy) as [Hcy _].
  pose proof (Zpos_digits2_mul mx my) as HD.
  destruct (binary_round_aux_cases prec emax ltac:(reflexivity) (xorb sx sy)
              (Zpos (mx * my)) (ex + ey) loc_Exact ltac:(lia)) as [-> | [[-> _] | (m' & e' & -> & _)]];
    try reflexivity.
  simpl Zdigits2. unfold fexp, emin, prec, emax in *. lia.
Qed.

Lemma shl_align_fexp (p emx : Z) (m : positive) (e : Z) :
  let '(mz, ez) := shl_align m e (fexp p emx (Zpos (digits2_pos m) + e)) in
  Zpos (digits2_pos mz) + ez = Zpos (digits2_pos m) + e
  /\ ez <= fexp p emx (Zpos (digits2_pos mz) + ez).
Proof.
  unfold shl_align.
  destruct (fexp p emx (Zpos (digits2_pos m) + e) - e) as [ | k | k] eqn:Hk.
  - split; lia.
  - split; lia.
  - assert (Hd : Zpos (digits2_pos (Pos.iter xO m k)) = Zpos (digits2_pos m) + Zpos k).
    { apply digits2_shift; [lia | apply pos_iter_xO]. }
    rewrite Hd. split; [lia | ].
    replace (Zpos (digits2_pos m) + Zpos k + fexp p emx (Zpos (digits2_pos m) + e))
      with (Zpos (digits2_pos m) + e) by lia. lia.
Qed.

Lemma binary_round_cases (p emx : Z) (s : bool) (m : positive) (e : Z) :
  0 < p ->
  binary_round p emx s m e = S754_zero s
  \/ (binary_round p emx s m e = S754_infinity s
      /\ emx - p < fexp p emx (Z.max (Zpos (digits2_pos m) + e) (emin p emx) + 1))
  \/ exists m' e',
       binary_round p emx s m e = S754_finite s m' e'
       /\ bounded p emx m' e' = true
       /\ (Zpos (digits2_pos m') + e' <= Zpos (digits2_pos m) + e
           \/ (Zpos m' = 2 ^ (Zpos (digits2_pos m') - 1)
               /\ Zpos (digits2_pos m') + e'
                  <= Z.max (Zpos (digits2_pos m) + e) (emin p emx) + 1)).
Proof.
  intros Hp. unfold binary_round.
  pose proof (shl_align_fexp p emx m e) as Hal.
  destruct (shl_align m e (fexp p emx (Zpos (digits2_pos m) + e))) as [mz ez].
  destruct Hal as [Hd He]. rewrite <- Hd.
  apply (binary_round_aux_cases p emx Hp s (Zpos mz) ez loc_Exact); [lia | exact He].
Qed.

(** A binary32 value, seen as a binary64 number. *)
Lemma binary32_to_binary64 (s : bool) (m : positive) (e : Z) :
  bounded 24 128 m e = true ->
  exists m3 e3,
    binary_round prec emax s m e = S754_finite s m3 e3
    /\ bounded prec emax m3 e3 = true
    /\ 53 + e3 = Zpos (digits2_pos m) + e
    /\ Zpos m3 = Zpos m * 2 ^ (53 - Zpos (digits2_pos m)).
Proof.
  intros Hb. destruct (bounded_inv _ _ _ _ Hb) as [Hc Hmax].
  set (d := Zpos (digits2_pos m)) in *.
  assert (Hd : 0 < d <= 24) by (unfold d, fexp, emin in *; lia).
  assert (He : -149 <= e) by (unfold fexp, emin in Hc; lia).
  assert (Hpos : 0 < Zpos m * 2 ^ (53 - d)).
  { apply Z.mul_pos_pos; [lia | apply Z.pow_pos_nonneg; lia]. }
  exists (Z.to_pos (Zpos m * 2 ^ (53 - d))), (e - (53 - d)).
  assert (Hmz : Zpos (Z.to_pos (Zpos m * 2 ^ (53 - d))) = Zpos m * 2 ^ (53 - d))
    by (apply Z2Pos.id; lia).
  assert (Hb3 : bounded prec emax (Z.to_pos (Zpos m * 2 ^ (53 - d))) (e - (53 - d)) = true).
  { unfold bounded, canonical_mantissa. apply andb_true_iff. split.
    - apply Z.eqb_eq. rewrite (digits2_shift m (53 - d) _) by (auto; lia). fold d.
      unfold fexp, emin, prec, emax. lia.
    - apply Z.leb_le. unfold prec, emax. lia. }
  split; [ | split; [exact Hb3 | split; [lia | exact Hmz]]].
  apply binary_round_exact; auto.
  unfold same_value. rewrite Z.min_r by lia. rewrite Hmz, Z.sub_diag. simpl (2 ^ 0).
  rewrite Z.mul_1_r. f_equal. f_equal. lia.
Qed.

Lemma pos_compare_cont_Eq (a b : positive) :
  Pos.compare_cont Eq a b = (Zpos a ?= Zpos b).
Proof. reflexivity. Qed.

(** Canonical numbers of magnitude at most 1 compare as such with 1 and -1. *)
Lemma fle_one_of_magnitude (s : bool) (m : positive) (e : Z) :
  (53 + e <= 0 \/ (53 + e = 1 /\ Zpos m = 2 ^ 52)) ->
  fle (S754_finite s m e) one = true /\ fle (of_Z (-1)) (S754_finite s m e) = true.
Proof.
  intros H. rewrite one_eq. change (of_Z (-1)) with (S754_finite true 4503599627370496 (-52)).
  unfold fle, SFleb, SFcompare. destruct s.
  - split; [reflexivity | ]. destruct H as [H | [H Hm]].
    + assert (Hc : (-52 ?= e) = Gt) by (apply Z.compare_gt_iff; lia). now rewrite Hc.
    + assert (e = -52) as -> by lia. simpl Z.compare. rewrite pos_compare_cont_Eq.
      rewrite Hm. reflexivity.
  - split; [ | reflexivity]. destruct H as [H | [H Hm]].
    + assert (Hc : (e ?= -52) = Lt) by (apply Z.compare_lt_iff; lia). now rewrite Hc.
    + assert (e = -52) as -> by lia. simpl Z.compare. rewrite pos_compare_cont_Eq.
      rewrite Hm. reflexivity.
Qed.

(** Conversely, a canonical number between -1 and 1 has magnitude at most 1. *)
Lemma magnitude_of_fle_one (s : bool) (m : positive) (e : Z) :
  valid (S754_finite s m e) ->
  fle (S754_finite s m e) one = true -> fle (of_Z (-1)) (S754_finite s m e) = true ->
  Zpos (digits2_pos m) + e <= 0 \/ (e = -52 /\ m = 4503599627370496%positive).
Proof.
  intros Hv. rewrite one_eq. change (of_Z (-1)) with (S754_finite true 4503599627370496 (-52)).
  destruct (bounded_inv _ _ _ _ Hv) as [Hc _].
  pose proof (digits2_bounds m) as [Hlo Hhi].
  set (d := Zpos (digits2_pos m)) in *.
  assert (Hd : d <= 53) by (unfold d, fexp, emin, prec, emax in *; lia).
  assert (Hkey : (e < -52 \/ (e = -52 /\ Zpos m <= 2 ^ 52)) ->
                 d + e <= 0 \/ (e = -52 /\ m = 4503599627370496%positive)).
  { intros [He | [He Hm]]; [left; lia | ].
    subst e. assert (d = 53) by (unfold d, fexp, emin, prec, emax in *; lia).
    right. split; [reflexivity | ]. rewrite H in Hlo. change (2 ^ (53 - 1)) with (2 ^ 52) in Hlo.
    assert (Zpos m = 2 ^ 52) by lia. change (2 ^ 52) with 4503599627370496 in H0. congruence. }
  unfold fle, SFleb, SFcompare. destruct s; intros H1 H2; apply Hkey.
  - destruct (Z.compare_spec (-52) e) as [Heq | Hlt | Hgt]; try discriminate; [ | left; lia].
    right. split; [lia | ]. rewrite pos_compare_cont_Eq in H2.
    change (2 ^ 52) with 4503599627370496.
    destruct (Z.compare_spec 4503599627370496 (Zpos m)); simpl in H2; try discriminate; lia.
  - destruct (Z.compare_spec e (-52)) as [Heq | Hlt | Hgt]; try discriminate; [ | left; lia].
    right. split; [lia | ]. rewrite pos_compare_cont_Eq in H1.
    change (2 ^ 52) with 4503599627370496.
    destruct (Z.compare_spec (Zpos m) 4503599627370496); simpl in H1; try discriminate; lia.
Qed.

(** Rounding to binary32 keeps a number between -1 and 1. *)
Lemma fround_range (c : number) :
  valid c -> fle c one = true -> fle (of_Z (-1)) c = true ->
  fle (fround c) one = true /\ fle (of_Z (-1)) (fround c) = true.
Proof.
  intros Hv H1 H2. destruct c as [s | s | | s m e]; try (split; assumption).
  destruct (magnitude_of_fle_one s m e Hv H1 H2) as [HE | [-> ->]].
  2:{ destruct s; split; reflexivity. }
  unfold fround.
  destruct (binary_round_cases 24 128 s m e ltac:(lia))
    as [-> | [[-> Hinf] | (m' & e' & -> & Hb & Hmag)]].
  - destruct s; split; reflexivity.
  - exfalso. unfold fexp, emin in Hinf. lia.
  - destruct (binary32_to_binary64 s m' e' Hb) as (m3 & e3 & -> & Hb3 & HE3 & Hm3).
    apply fle_one_of_magnitude.
    destruct Hmag as [Hle | [Hpow Hle]]; [left; lia | ].
    unfold emin in Hle.
    destruct (Z.le_gt_cases (Zpos (digits2_pos m') + e') 0) as [ | Hgt]; [left; lia | right].
    split; [lia | ]. rewrite Hm3, Hpow, <- Z.pow_add_r.
    + f_equal. lia.
    + pose proof (Pos2Z.is_pos (digits2_pos m')). lia.
    + destruct (bounded_inv _ _ _ _ Hb) as [Hc _]. unfold fexp, emin in Hc. lia.
Qed.

(** ** The order on numbers *)

Lemma SFcompare_key (x y : number) :
  is_nan x = false -> is_nan y = false ->
  match SFcompare x y with
  | Some Lt => lex_lt (order_key x) (order_key y)
  | Some Eq => order_key x = order_key y
  | Some Gt => lex_lt (order_key y) (order_key x)
  | None => False
  end.
Proof.
  destruct x as [sx | sx | | sx mx ex], y as [sy | sy | | sy my ey];
    try discriminate; intros _ _; unfold SFcompare, lex_lt, order_key;
    try (destruct sx; try destruct sy; simpl; first [lia | reflexivity]).
  rewrite pos_compare_cont_Eq.
  destruct sx, sy; try (simpl; lia);
    destruct (Z.compare_spec ex ey); simpl; try lia;
    destruct (Pos.compare_spec mx my); simpl; subst; first [reflexivity | lia].
Qed.

Lemma fle_key (x y : number) :
  fle x y = true <->
  is_nan x = false /\ is_nan y = false
  /\ (lex_lt (order_key x) (order_key y) \/ order_key x = order_key y).
Proof.
  unfold fle, SFleb. split.
  - intros H. assert (Hx : is_nan x = false) by (destruct x; auto; discriminate).
    assert (Hy : is_nan y = false) by (destruct x, y; auto; discriminate).
    pose proof (SFcompare_key x y Hx Hy) as Hk.
    destruct (SFcompare x y) as [[] | ]; try discriminate; auto.
  - intros (Hx & Hy & Hk). pose proof (SFcompare_key x y Hx Hy) as Hc.
    destruct (SFcompare x y) as [[] | ]; auto.
    unfold lex_lt in *. destruct (order_key x) as [[a1 a2] a3], (order_key y) as [[b1 b2] b3].
    destruct Hk as [Hk | Hk]; [lia | ]. injection Hk as -> -> ->. lia.
Qed.

Lemma fle_refl (x : number) : is_nan x = false -> fle x x = true.
Proof. intros Hx. apply fle_key. auto. Qed.

Lemma fle_trans (x y z : number) : fle x y = true -> fle y z = true -> fle x z = true.
Proof.
  rewrite !fle_key. intros (Hx & Hy & Hxy) (_ & Hz & Hyz). repeat split; auto.
  unfold lex_lt in *.
  destruct (order_key x) as [[a1 a2] a3], (order_key y) as [[b1 b2] b3],
    (order_key z) as [[c1 c2] c3].
  destruct Hxy as [Hxy | Hxy], Hyz as [Hyz | Hyz];
    try (injection Hxy as -> -> ->); try (injection Hyz as -> -> ->); auto.
  left. lia.
Qed.

Lemma fle_total (x y : number) :
  is_nan x = false -> is_nan y = false -> fle x y = true \/ fle y x = true.
Proof.
  intros Hx Hy. pose proof (SFcompare_key x y Hx Hy) as Hk. rewrite !fle_key.
  destruct (SFcompare x y) as [[] | ]; [left | left | right | contradiction]; auto.
Qed.

(** [Math.max] returns one of its arguments, which is above both. *)
Lemma Math_max_spec (x y : number) :
  is_nan x = false -> is_nan y = false ->
  (Math_max x y = x \/ Math_max x y = y)
  /\ fle x (Math_max x y) = true /\ fle y (Math_max x y) = true.
Proof.
  intros Hx Hy. pose proof (SFcompare_key x y Hx Hy) as Hk. unfold Math_max.
  destruct (SFcompare x y) as [[] | ] eqn:Hc; try contradiction.
  - assert (Hxy : fle x y = true) by (apply fle_key; auto).
    assert (Hyx : fle y x = true) by (apply fle_key; auto).
    destruct x as [[] | | | ]; auto using fle_refl.
  - split; [auto | ]. split; [apply fle_key; auto | now apply fle_refl].
  - split; [auto | ]. split; [now apply fle_refl | apply fle_key; auto].
Qed.

Lemma Math_min_spec (x y : number) :
  is_nan x = false -> is_nan y = false ->
  (Math_min x y = x \/ Math_min x y = y)
  /\ fle (Math_min x y) x = true /\ fle (Math_min x y) y = true.
Proof.
  intros Hx Hy. pose proof (SFcompare_key x y Hx Hy) as Hk. unfold Math_min.
  destruct (SFcompare x y) as [[] | ] eqn:Hc; try contradiction.
  - assert (Hxy : fle x y = true) by (apply fle_key; auto).
    assert (Hyx : fle y x = true) by (apply fle_key; auto).
    destruct x as [[] | | | ]; auto using fle_refl.
  - split; [auto | ]. split; [now apply fle_refl | apply fle_key; auto].
  - split; [auto | ]. split; [apply fle_key; auto | now apply fle_refl].
Qed.

(** The clamped sample is -1, 1 or the sample, and lies between -1 and 1. *)
Lemma clamp_spec (x : number) :
  is_nan x = false ->
  (clamp x = x \/ clamp x = one \/ clamp x = of_Z (-1))
  /\ fle (clamp x) one = true /\ fle (of_Z (-1)) (clamp x) = true.
Proof.
  intros Hx. unfold clamp.
  destruct (Math_min_spec one x eq_refl Hx) as (Hmin & Hmin1 & _).
  assert (Hn : is_nan (Math_min one x) = false) by (destruct Hmin as [-> | ->]; auto).
  destruct (Math_max_spec (of_Z (-1)) (Math_min one x) eq_refl Hn) as (Hmax & Hmax1 & _).
  split; [ | split; [ | exact Hmax1]].
  - destruct Hmax as [-> | ->]; auto. destruct Hmin as [-> | ->]; auto.
  - destruct Hmax as [-> | ->]; [reflexivity | exact Hmin1].
Qed.

Lemma clamp_nan : clamp NaN = NaN.
Proof. reflexivity. Qed.

Lemma valid_clamp (x : number) : valid x -> valid (clamp x).
Proof.
  intros Hv. destruct (is_nan x) eqn:Hx.
  - destruct x; try discriminate. reflexivity.
  - destruct (clamp_spec x Hx) as ([-> | [-> | ->]] & _); auto; reflexivity.
Qed.

(** ** Loops and completions *)

Lemma bind_Returns {A B : Type} (m : outcome A) (k : A -> outcome B) (b : B) :
  bind m k = Returns b -> exists a, m = Returns a /\ k a = Returns b.
Proof. destruct m as [a | e | ]; simpl; intros H; try discriminate. eauto. Qed.

Tactic Notation "bind_inv" hyp(H) "as" simple_intropattern(a) ident(Ha) :=
  apply bind_Returns in H as (a & Ha & H).

(** A property kept by every iteration that returns is kept by the loop. *)
Lemma loop_invariant {S : Type} (I : S -> Prop) (body : nat -> S -> outcome S)
  (n i : nat) (s s' : S) :
  (forall j t t', I t -> body j t = Returns t' -> I t') ->
  I s -> loop body n i s = Returns s' -> I s'.
Proof.
  intros Hbody. revert i s. induction n as [ | n IH]; intros i s Hs H; simpl in H.
  - now injection H as <-.
  - bind_inv H as t Ht. eapply IH; [ | exact H]. eauto.
Qed.

(** A loop whose iterations all return is a fold over the indices. *)
Lemma loop_pure {S : Type} (g : nat -> S -> S) (n i : nat) (s : S) :
  loop (fun j t => Returns (g j t)) n i s
  = Returns (fold_left (fun t j => g j t) (seq i n) s).
Proof.
  revert i s. induction n as [ | n IH]; intros i s; simpl; [reflexivity | apply IH].
Qed.

(** Storing [v j] at every index [j] of a range. *)
Lemma fold_insert_length {A : Type} (v : nat -> A) (n i : nat) (t : list A) :
  length (fold_left (fun t j => <[j := v j]> t) (seq i n) t) = length t.
Proof.
  revert i t. induction n as [ | n IH]; intros i t; simpl; [reflexivity | ].
  now rewrite IH, length_insert.
Qed.

Lemma fold_insert_lookup {A : Type} (v : nat -> A) (n i : nat) (t : list A) (j : nat) :
  fold_left (fun t j => <[j := v j]> t) (seq i n) t !! j
  = if decide (i <= j < i + n)%nat then (fun _ => v j) <$> (t !! j) else t !! j.
Proof.
  revert i t. induction n as [ | n IH]; intros i t; simpl.
  - destruct (decide _); [lia | reflexivity].
  - rewrite IH. destruct (decide (i = j)) as [-> | Hne].
    + destruct (decide (S j <= j < S j + n)%nat); [lia | ].
      destruct (decide (j <= j < j + S n)%nat); [ | lia].
      destruct (decide (j < length t)%nat) as [Hlt | Hge].
      * rewrite list_lookup_insert_eq by lia.
        destruct (lookup_lt_is_Some_2 t j Hlt) as [x ->]. reflexivity.
      * rewrite list_insert_ge by lia. rewrite (lookup_ge_None_2 t j) by lia. reflexivity.
    + rewrite list_lookup_insert_ne by auto.
      destruct (decide (S i <= j < S i + n)%nat), (decide (i <= j < i + S n)%nat);
        try lia; reflexivity.
Qed.

(** A loop that stores at all the indices of an array computes a map. *)
Lemma fold_insert_all {A : Type} (v : nat -> A) (n : nat) (t : list A) :
  length t = n ->
  fold_left (fun t j => <[j := v j]> t) (seq 0 n) t = map v (seq 0 n).
Proof.
  intros Hlen. apply list_eq. intros j. rewrite fold_insert_lookup.
  change (map v (seq 0 n)) with (v <$> seq 0 n). rewrite list_lookup_fmap.
  destruct (decide (0 <= j < 0 + n)%nat) as [Hj | Hj].
  - rewrite lookup_seq_lt by lia. destruct (lookup_lt_is_Some_2 t j ltac:(lia)) as [x ->].
    reflexivity.
  - rewrite lookup_seq_ge by lia. rewrite (lookup_ge_None_2 t j) by lia. reflexivity.
Qed.

(** ** Heap accesses *)

Lemma deref_old (h : Heap) (nb : AudioBuffer.t) (r : Ref) (b : AudioBuffer.t) :
  h !! r = Some b -> deref (h ++ [nb]) r = Returns b.
Proof. intros H. unfold deref. now rewrite (lookup_app_l_Some _ _ _ _ H). Qed.

Lemma deref_new (h : Heap) (nb : AudioBuffer.t) :
  deref (h ++ [nb]) (length h) = Returns nb.
Proof. unfold deref. now rewrite list_lookup_middle. Qed.

Lemma getChannelData_old (h : Heap) (nb : AudioBuffer.t) (r : Ref) (b : AudioBuffer.t)
  (c : nat) (data : list number) :
  h !! r = Some b -> AudioBuffer.channels b !! c = Some data ->
  getChannelData (h ++ [nb]) r c = Returns data.
Proof.
  intros H Hc. unfold getChannelData. rewrite (deref_old _ _ _ _ H). simpl. now rewrite Hc.
Qed.

Lemma getChannelData_new (h : Heap) (nb : AudioBuffer.t) (c : nat) (data : list number) :
  AudioBuffer.channels nb !! c = Some data ->
  getChannelData (h ++ [nb]) (length h) c = Returns data.
Proof.
  intros Hc. unfold getChannelData. rewrite deref_new. simpl. now rewrite Hc.
Qed.

Lemma setChannelData_new (h : Heap) (R : number) (L C : nat) (chans : list (list number))
  (c : nat) (data : list number) :
  setChannelData (h ++ [AudioBuffer.mk R L C chans]) (length h) c data
  = Returns (h ++ [AudioBuffer.mk R L C (<[c := data]> chans)]).
Proof.
  unfold setChannelData. rewrite deref_new. simpl. f_equal.
  replace (length h) with (length h + 0)%nat at 1 by lia.
  now rewrite insert_app_r.
Qed.

(** The loop over the channels of a fresh buffer: when the iteration for
    channel [c] replaces that channel by [G c], the loop fills the buffer
    with [G 0], [G 1], ... *)
Lemma channel_loop (h : Heap) (R : number) (L C : nat)
  (body : nat -> Heap -> outcome Heap) (G : nat -> list number)
  (chans0 : list (list number)) :
  length chans0 = C ->
  (forall c chans, (c < C)%nat -> length chans = C -> chans !! c = chans0 !! c ->
     body c (h ++ [AudioBuffer.mk R L C chans])
     = Returns (h ++ [AudioBuffer.mk R L C (<[c := G c]> chans)])) ->
  for_upto C body (h ++ [AudioBuffer.mk R L C chans0])
  = Returns (h ++ [AudioBuffer.mk R L C (map G (seq 0 C))]).
Proof.
  intros Hlen Hbody. unfold for_upto.
  assert (Hgen : forall n i chans,
             (i + n = C)%nat -> length chans = C ->
             (forall c, (i <= c)%nat -> chans !! c = chans0 !! c) ->
             loop body n i (h ++ [AudioBuffer.mk R L C chans])
             = Returns (h ++ [AudioBuffer.mk R L C (take i chans ++ map G (seq i n))])).
  { induction n as [ | n IH]; intros i chans Hi Hl Hrest; simpl.
    - rewrite app_nil_r, take_ge by lia. reflexivity.
    - rewrite Hbody by (auto; lia). simpl.
      rewrite IH.
      + do 4 f_equal. rewrite (take_S_r _ _ (G i)) by (apply list_lookup_insert_eq; lia).
        rewrite take_insert_ge by lia. now rewrite <- app_assoc.
      + lia.
      + now rewrite length_insert.
      + intros c Hc. rewrite list_lookup_insert_ne by lia. apply Hrest. lia. }
  rewrite (Hgen C 0%nat chans0) by (auto; lia). reflexivity.
Qed.

Lemma deref_Some (h : Heap) (r : Ref) (b : AudioBuffer.t) :
  h !! r = Some b -> deref h r = Returns b.
Proof. intros H. unfold deref. now rewrite H. Qed.

Lemma getChannelData_Some (h : Heap) (r : Ref) (b : AudioBuffer.t) (c : nat)
  (data : list number) :
  h !! r = Some b -> AudioBuffer.channels b !! c = Some data ->
  getChannelData h r c = Returns data.
Proof.
  intros H Hc. unfold getChannelData. rewrite (deref_Some _ _ _ H). simpl. now rewrite Hc.
Qed.

(** ** Well-formed buffers *)

Lemma is_float32_fround (x : number) : is_float32 x = true -> fround x = x.
Proof.
  unfold is_float32. destruct x as [s | s | | s m e]; try reflexivity.
  destruct (fround (S754_finite s m e)) as [s' | s' | | s' m' e']; try discriminate.
  intros H. apply andb_true_iff in H as [H He]. apply andb_true_iff in H as [Hs Hm].
  apply Bool.eqb_prop in Hs. apply Pos.eqb_eq in Hm. apply Z.eqb_eq in He. congruence.
Qed.

Lemma float32_value_inv (x : number) :
  float32_value x = true -> valid x /\ fround x = x.
Proof.
  unfold float32_value. intros H. apply andb_true_iff in H as [Hv Hf].
  split; [exact Hv | now apply is_float32_fround].
Qed.

Lemma wf_buffer_inv (b : AudioBuffer.t) : wf_buffer b = true -> wf_buffer_facts b.
Proof.
  unfold wf_buffer. intros H.
  repeat (let H' := fresh "H" in apply andb_true_iff in H as [H H']).
  apply Nat.leb_le in H. apply Nat.leb_le in H8. apply Nat.leb_le in H7.
  apply Z.ltb_lt in H6. apply Nat.eqb_eq in H5.
  rewrite forallb_forall in H4.
  split; auto; try lia.
  - intros c data Hc. apply list_elem_of_lookup_2, list_elem_of_In in Hc.
    specialize (H4 _ Hc). apply andb_true_iff in H4 as [Hl Hs].
    apply Nat.eqb_eq in Hl. split; [exact Hl | ].
    intros i s Hi. rewrite forallb_forall in Hs.
    apply list_elem_of_lookup_2, list_elem_of_In in Hi.
    apply float32_value_inv. auto.
  - now apply float32_value_inv in H2 as [_ ?].
Qed.

(** [createBuffer] with the attributes of a well-formed buffer: only the
    length decides. *)
Lemma createBuffer_wf (h : Heap) (b : AudioBuffer.t) (len : number) :
  wf_buffer b = true ->
  createBuffer h (AudioBuffer.numberOfChannels b) len (AudioBuffer.sampleRate b)
  = if negb (flt len pzero) && (1 <=? ToUint32 len)
    then Returns (length h,
                  h ++ [AudioBuffer.mk (AudioBuffer.sampleRate b) (Z.to_nat (ToUint32 len))
                          (AudioBuffer.numberOfChannels b)
                          (replicate (AudioBuffer.numberOfChannels b)
                             (replicate (Z.to_nat (ToUint32 len)) pzero))])
    else Throws NotSupportedError.
Proof.
  intros Hwf. destruct (wf_buffer_inv b Hwf) as [[Hc1 Hc2] _ _ _ _ Hfin Hf32 [Hr1 Hr2]].
  unfold createBuffer. rewrite Hfin. simpl negb. cbv iota zeta. rewrite Hf32, Hr1, Hr2.
  apply Nat.leb_le in Hc1, Hc2. rewrite Hc1, Hc2. simpl andb.
  rewrite !andb_true_r. reflexivity.
Qed.

(** The same for a length that is not negative and counts [n] frames. *)
Lemma createBuffer_frames (h : Heap) (b : AudioBuffer.t) (len : number) (n : Z) :
  wf_buffer b = true -> flt len pzero = false -> ToUint32 len = n ->
  createBuffer h (AudioBuffer.numberOfChannels b) len (AudioBuffer.sampleRate b)
  = if (1 <=? n) && (n <? 2 ^ 32)
    then Returns (length h,
                  h ++ [AudioBuffer.mk (AudioBuffer.sampleRate b) (Z.to_nat n)
                          (AudioBuffer.numberOfChannels b)
                          (replicate (AudioBuffer.numberOfChannels b)
                             (replicate (Z.to_nat n) pzero))])
    else Throws NotSupportedError.
Proof.
  intros Hwf Hneg Hn. rewrite (createBuffer_wf h b len Hwf), Hneg, Hn. simpl negb.
  assert (Hlt : (n <? 2 ^ 32) = true).
  { apply Z.ltb_lt. subst n. unfold ToUint32.
    destruct (truncate len); [apply Z.mod_pos_bound | ]; lia. }
  rewrite Hlt, andb_true_r. reflexivity.
Qed.

(** The number of a count is not negative. *)
Lemma flt_of_Z_zero (n : Z) : 0 <= n < 2 ^ 53 -> flt (of_Z n) pzero = false.
Proof.
  intros Hn. change pzero with (of_Z 0). rewrite flt_of_Z by lia. apply Z.ltb_ge. lia.
Qed.

Lemma flt_of_nat_zero (n : nat) : Z.of_nat n < 2 ^ 53 -> flt (of_nat n) pzero = false.
Proof. intros Hn. apply flt_of_Z_zero. lia. Qed.

Lemma ToUint32_range (x : number) : 0 <= ToUint32 x < 2 ^ 32.
Proof.
  unfold ToUint32. destruct (truncate x); [apply Z.mod_pos_bound | ]; lia.
Qed.

Lemma amplify_inner (gain : number) (sourceData targetData : list number) :
  length targetData = length sourceData ->
  for_upto (length sourceData)
    (fun i targetData =>
       Returns (TypedArray.store targetData i
                  (clamp (fmul (to_number (TypedArray.read sourceData i)) gain))))
    targetData
  = Returns (map (amplified gain) sourceData).
Proof.
  intros Hlen. unfold for_upto. rewrite loop_pure. f_equal. unfold TypedArray.store.
  rewrite (fold_insert_all
             (fun j => fround (clamp (fmul (to_number (TypedArray.read sourceData j)) gain))))
    by exact Hlen.
  apply list_eq. intros j.
  change (map ?f ?l) with (f <$> l). rewrite !list_lookup_fmap.
  destruct (decide (j < length sourceData)%nat) as [Hj | Hj].
  - rewrite lookup_seq_lt by lia. destruct (lookup_lt_is_Some_2 sourceData j Hj) as [s Hs].
    simpl. unfold TypedArray.read. rewrite Hs. reflexivity.
  - rewrite lookup_seq_ge by lia. rewrite (lookup_ge_None_2 sourceData j) by lia.
    reflexivity.
Qed.

Lemma map_channels (b : AudioBuffer.t) (F : list number -> list number) :
  length (AudioBuffer.channels b) = AudioBuffer.numberOfChannels b ->
  map (fun c => F (default [] (AudioBuffer.channels b !! c)))
      (seq 0 (AudioBuffer.numberOfChannels b))
  = map F (AudioBuffer.channels b).
Proof.
  intros Hlen. apply list_eq. intros j.
  change (map ?f ?l) with (f <$> l). rewrite !list_lookup_fmap.
  destruct (decide (j < AudioBuffer.numberOfChannels b)%nat) as [Hj | Hj].
  - rewrite lookup_seq_lt by lia.
    destruct (lookup_lt_is_Some_2 (AudioBuffer.channels b) j ltac:(lia)) as [s Hs].
    simpl. rewrite Hs. reflexivity.
  - rewrite lookup_seq_ge by lia.
    rewrite (lookup_ge_None_2 (AudioBuffer.channels b) j) by lia. reflexivity.
Qed.

(** [amplifyAudio] always returns, with a new buffer of amplified samples. *)
Lemma amplifyAudio_spec (h : Heap) (r : Ref) (b : AudioBuffer.t) (gain : number) :
  h !! r = Some b -> wf_buffer b = true ->
  amplifyAudio h r gain
  = Returns (length h,
             h ++ [AudioBuffer.mk (AudioBuffer.sampleRate b) (AudioBuffer.length b)
                     (AudioBuffer.numberOfChannels b)
                     (map (map (amplified gain)) (AudioBuffer.channels b))]).
Proof.
  intros Hr Hwf. pose proof (wf_buffer_inv b Hwf) as [Hc Hl1 Hl2 Hcl Hdata _ _ _].
  unfold amplifyAudio, deref. rewrite Hr. simpl bind.
  rewrite (createBuffer_frames h b _ (Z.of_nat (AudioBuffer.length b)) Hwf)
    by (first [apply flt_of_nat_zero | apply ToUint32_of_Z]; lia).
  assert (H1 : (1 <=? Z.of_nat (AudioBuffer.length b)) = true) by (apply Z.leb_le; lia).
  assert (H2 : (Z.of_nat (AudioBuffer.length b) <? 2 ^ 32) = true) by (apply Z.ltb_lt; lia).
  rewrite H1, H2. simpl andb. cbv iota. simpl bind. rewrite Nat2Z.id.
  rewrite (channel_loop h _ _ _ _
             (fun c => map (amplified gain) (default [] (AudioBuffer.channels b !! c)))).
  - simpl bind. rewrite (map_channels b (map (amplified gain))) by exact Hcl. reflexivity.
  - apply length_replicate.
  - intros c chans Hc' Hlen Hzero.
    rewrite lookup_replicate_2 in Hzero by lia.
    destruct (lookup_lt_is_Some_2 (AudioBuffer.channels b) c ltac:(lia)) as [src Hsrc].
    destruct (Hdata c src Hsrc) as [Hsl _].
    rewrite (getChannelData_old _ _ _ _ _ _ Hr Hsrc). simpl bind.
    rewrite (getChannelData_new h (AudioBuffer.mk _ _ _ chans) c _ Hzero). simpl bind.
    rewrite amplify_inner by (rewrite length_replicate; lia). simpl bind.
    rewrite setChannelData_new, Hsrc. reflexivity.
Qed.

Lemma pitchShift_changeSpeed (Math_pow : number -> number -> number)
  (h : Heap) (r : Ref) (semitones : number) :
  pitchShift Math_pow h r semitones
  = changeSpeed h r (Math_pow (of_Z 2) (fdiv semitones (of_Z 12))).
Proof. reflexivity. Qed.

(** [changeSpeed] throws when the new length is negative or, as an unsigned
    32-bit integer, zero; otherwise it returns a new resampled buffer, unless
    the new length is beyond 2^53, where its loops do not end. *)
Lemma changeSpeed_spec (h : Heap) (r : Ref) (b : AudioBuffer.t) (speed : number) :
  h !! r = Some b -> wf_buffer b = true ->
  let newLength := Math_floor (fdiv (of_nat (AudioBuffer.length b)) speed) in
  changeSpeed h r speed
  = if flt newLength pzero || (ToUint32 newLength =? 0) then Throws NotSupportedError
    else match iterations newLength with
         | Some count =>
             Returns (length h,
                      h ++ [AudioBuffer.mk (AudioBuffer.sampleRate b)
                              (Z.to_nat (ToUint32 newLength))
                              (AudioBuffer.numberOfChannels b)
                              (map (resampled speed count (Z.to_nat (ToUint32 newLength)))
                                 (AudioBuffer.channels b))])
         | None => Diverges
         end.
Proof.
  intros Hr Hwf newLength.
  pose proof (wf_buffer_inv b Hwf) as [Hc Hl1 Hl2 Hcl Hdata _ _ _].
  unfold changeSpeed, deref. rewrite Hr. simpl bind. fold newLength.
  rewrite (createBuffer_wf h b _ Hwf).
  pose proof (ToUint32_range newLength) as Hrange.
  destruct (flt newLength pzero); [reflexivity | ]. simpl negb. simpl orb. simpl andb.
  destruct (Z.eqb_spec (ToUint32 newLength) 0) as [Hz | Hnz].
  { rewrite Hz. reflexivity. }
  assert (H1 : (1 <=? ToUint32 newLength) = true) by (apply Z.leb_le; lia).
  rewrite H1. cbv iota. simpl bind.
  destruct (iterations newLength) as [k | ] eqn:Hk.
  - rewrite (channel_loop h _ _ _ _
               (fun c => resampled speed k (Z.to_nat (ToUint32 newLength))
                           (default [] (AudioBuffer.channels b !! c)))).
    + simpl bind. rewrite (map_channels b (resampled speed k _)) by exact Hcl. reflexivity.
    + apply length_replicate.
    + intros c chans Hc' Hlen Hzero.
      rewrite lookup_replicate_2 in Hzero by lia.
      destruct (lookup_lt_is_Some_2 (AudioBuffer.channels b) c ltac:(lia)) as [src Hsrc].
      rewrite (getChannelData_old _ _ _ _ _ _ Hr Hsrc). simpl bind.
      rewrite (getChannelData_new h (AudioBuffer.mk _ _ _ chans) c _ Hzero). simpl bind.
      unfold for_below. rewrite Hk. unfold for_upto. rewrite loop_pure. simpl bind.
      rewrite setChannelData_new, Hsrc. reflexivity.
  - destruct (wf_channels_pos b (wf_buffer_inv b Hwf)) as [Hpos _].
    destruct (AudioBuffer.numberOfChannels b) as [ | C] eqn:HC; [lia | ].
    unfold for_upto. cbn [loop].
    destruct (lookup_lt_is_Some_2 (AudioBuffer.channels b) 0%nat ltac:(lia)) as [src Hsrc].
    rewrite (getChannelData_old _ _ _ _ _ _ Hr Hsrc). simpl bind.
    rewrite (getChannelData_new h (AudioBuffer.mk _ _ _ _) 0%nat
               (replicate (Z.to_nat (ToUint32 newLength)) pzero)).
    + simpl bind. unfold for_below. rewrite Hk. reflexivity.
    + reflexivity.
Qed.

Lemma same_number_feq (x y : number) :
  is_finite y = true -> same_number x y -> feq x y = true.
Proof.
  intros Hy [-> | (s & s' & -> & ->)]; [ | reflexivity].
  unfold feq, SFeqb. pose proof (SFcompare_key y y) as Hk.
  assert (Hn : is_nan y = false) by (destruct y; auto; discriminate).
  specialize (Hk Hn Hn). destruct (SFcompare y y) as [[] | ]; auto.
  - unfold lex_lt in Hk. destruct (order_key y) as [[a1 a2] a3]. lia.
  - unfold lex_lt in Hk. destruct (order_key y) as [[a1 a2] a3]. lia.
Qed.

(** Interpolating at an integral position gives the sample at that position
    (up to the sign of zero) when that sample and the next are finite. *)
Lemma interpolate_at_index (sourceData : list number) (i : nat) (s : number) :
  Z.of_nat (length sourceData) < 2 ^ 32 ->
  sourceData !! i = Some s -> valid s -> is_finite s = true ->
  (forall s', sourceData !! S i = Some s' -> is_finite s' = true) ->
  same_number (interpolate sourceData (fmul (of_nat i) one)) s.
Proof.
  intros Hlen Hs Hv Hfin Hnext.
  assert (Hi : (i < length sourceData)%nat) by (apply lookup_lt_is_Some_1; eauto).
  unfold interpolate, of_nat.
  rewrite fmul_one by (apply valid_of_Z; lia).
  rewrite Math_floor_of_Z by lia.
  rewrite fsub_diag by (apply is_finite_of_Z; lia).
  assert (Hadd : fadd (of_Z (Z.of_nat i)) one = of_Z (Z.of_nat i + 1))
    by (apply (fadd_of_Z (Z.of_nat i) 1); lia).
  rewrite !Hadd, flt_of_Z by lia.
  rewrite get_of_Z_nat by lia. rewrite Nat2Z.id, Hs.
  simpl to_number. change (fsub one pzero) with one. rewrite fmul_one by exact Hv.
  destruct (Z.ltb_spec (Z.of_nat i + 1) (Z.of_nat (length sourceData))) as [Hlt | Hge].
  - rewrite get_of_Z_nat by lia.
    replace (Z.to_nat (Z.of_nat i + 1)) with (S i) by lia.
    destruct (lookup_lt_is_Some_2 sourceData (S i) ltac:(lia)) as [s' Hs'].
    rewrite Hs'. simpl to_number. specialize (Hnext s' Hs').
    destruct s as [ss | ss | | ss ms es], s' as [ss' | ss' | | ss' ms' es'];
      try discriminate; try (left; reflexivity).
    + right. destruct ss, ss'; simpl; eauto.
    + right. destruct ss, ss'; simpl; eauto.
  - destruct s as [ss | ss | | ss ms es]; try discriminate.
    + right. simpl. eauto.
    + left. reflexivity.
Qed.

(** ** normalizeAudio *)

Lemma is_nan_abs (x : number) : is_nan (Math_abs x) = is_nan x.
Proof. now destruct x. Qed.

(** Without NaN samples the peak is the largest absolute value, or 0 for an
    empty channel. *)
Lemma find_peak_from (channelData : list number) (acc : number) :
  is_nan acc = false ->
  Forall (fun s => is_nan s = false) channelData ->
  let peak := fold_left (fun max sample => Math_max max (Math_abs sample)) channelData acc in
  is_nan peak = false
  /\ fle acc peak = true
  /\ Forall (fun s => fle (Math_abs s) peak = true) channelData
  /\ (peak = acc \/ Exists (fun s => peak = Math_abs s) channelData).
Proof.
  revert acc. induction channelData as [ | s l IH]; intros acc Hacc Hall; simpl.
  - repeat split; auto using fle_refl.
  - inversion Hall as [ | ? ? Hs Hl]; subst.
    assert (Hsn : is_nan (Math_abs s) = false) by now rewrite is_nan_abs.
    destruct (Math_max_spec acc (Math_abs s) Hacc Hsn) as (Hor & Hle1 & Hle2).
    assert (Hmn : is_nan (Math_max acc (Math_abs s)) = false)
      by (destruct Hor as [-> | ->]; auto).
    destruct (IH (Math_max acc (Math_abs s)) Hmn Hl) as (Hn & Hge & Hfa & Hex).
    repeat split; auto.
    + eapply fle_trans; eauto.
    + constructor; [eapply fle_trans; eauto | exact Hfa].
    + destruct Hex as [Heq | Hex]; [ | right; now constructor 2].
      rewrite Heq. destruct Hor as [-> | ->]; [now left | right; now constructor 1].
Qed.

Lemma find_peak_spec (channelData : list number) :
  Forall (fun s => is_nan s = false) channelData ->
  Forall (fun s => fle (Math_abs s) (find_peak channelData) = true) channelData
  /\ (find_peak channelData = pzero
      \/ Exists (fun s => find_peak channelData = Math_abs s) channelData).
Proof.
  intros Hall. destruct (find_peak_from channelData pzero eq_refl Hall) as (_ & _ & H1 & H2).
  split; assumption.
Qed.

Lemma set_whole {A : Type} (target source : list A) :
  length target = length source ->
  TypedArray.set target source pzero = Returns source.
Proof.
  intros Hlen. unfold TypedArray.set. simpl ToIntegerOrInfinity. cbv iota.
  change (0 <? 0) with false. cbv iota. rewrite Z.add_0_r, Hlen, Z.ltb_irrefl.
  simpl Z.to_nat. rewrite take_0, drop_ge by lia. simpl. now rewrite app_nil_r.
Qed.

Lemma first_channel_replaced (b : AudioBuffer.t) (channelData : list number)
  (others : list (list number)) (new0 : list number) :
  AudioBuffer.channels b = channelData :: others ->
  length (AudioBuffer.channels b) = AudioBuffer.numberOfChannels b ->
  map (fun c => if (c =? 0)%nat then new0
                else default [] (AudioBuffer.channels b !! c))
      (seq 0 (AudioBuffer.numberOfChannels b))
  = new0 :: others.
Proof.
  intros Hch Hlen. rewrite <- Hlen, Hch. simpl length. simpl seq. simpl map.
  f_equal. apply list_eq. intros j.
  change (map ?f ?l) with (f <$> l). rewrite list_lookup_fmap.
  destruct (decide (j < length others)%nat) as [Hj | Hj].
  - rewrite lookup_seq_lt by lia. simpl.
    destruct (lookup_lt_is_Some_2 others j Hj) as [x Hx]. now rewrite Hx.
  - rewrite lookup_seq_ge by lia. rewrite (lookup_ge_None_2 others j) by lia. reflexivity.
Qed.

(** [normalizeAudio] returns its argument when the peak of channel 0 is zero,
    and otherwise a new buffer whose channel 0 is scaled and whose other
    channels are copies. *)
Lemma normalizeAudio_spec (h : Heap) (r : Ref) (b : AudioBuffer.t)
  (channelData : list number) (others : list (list number)) :
  h !! r = Some b -> wf_buffer b = true ->
  AudioBuffer.channels b = channelData :: others ->
  normalizeAudio h r
  = if feq (find_peak channelData) pzero then Returns (r, h)
    else Returns (length h,
                  h ++ [AudioBuffer.mk (AudioBuffer.sampleRate b) (AudioBuffer.length b)
                          (AudioBuffer.numberOfChannels b)
                          (normalized channelData :: others)]).
Proof.
  intros Hr Hwf Hch. pose proof (wf_buffer_inv b Hwf) as [Hc Hl1 Hl2 Hcl Hdata _ _ _].
  unfold normalizeAudio. rewrite (deref_Some _ _ _ Hr). simpl bind.
  rewrite (getChannelData_Some h r b 0%nat channelData Hr) by (now rewrite Hch). simpl bind.
  destruct (feq (find_peak channelData) pzero); [reflexivity | ].
  rewrite (createBuffer_frames h b _ (Z.of_nat (AudioBuffer.length b)) Hwf)
    by (first [apply flt_of_nat_zero | apply ToUint32_of_Z]; lia).
  assert (H1 : (1 <=? Z.of_nat (AudioBuffer.length b)) = true) by (apply Z.leb_le; lia).
  assert (H2 : (Z.of_nat (AudioBuffer.length b) <? 2 ^ 32) = true) by (apply Z.ltb_lt; lia).
  rewrite H1, H2. simpl andb. cbv iota. simpl bind. rewrite Nat2Z.id.
  destruct (Hdata 0%nat channelData) as [Hl0 _]; [now rewrite Hch | ].
  rewrite (channel_loop h _ _ _ _
             (fun c => if (c =? 0)%nat then normalized channelData
                       else default [] (AudioBuffer.channels b !! c))).
  - simpl bind. rewrite (first_channel_replaced b channelData others) by auto.
    reflexivity.
  - apply length_replicate.
  - intros c chans Hc' Hlen Hzero.
    rewrite lookup_replicate_2 in Hzero by lia.
    rewrite (getChannelData_new h (AudioBuffer.mk _ _ _ chans) c _ Hzero). simpl bind.
    destruct (Nat.eqb_spec c 0) as [-> | Hne].
    + simpl bind. rewrite set_whole.
      * simpl bind. apply setChannelData_new.
      * unfold normalized. rewrite length_replicate, length_map. lia.
    + destruct (lookup_lt_is_Some_2 (AudioBuffer.channels b) c ltac:(lia)) as [src Hsrc].
      destruct (Hdata c src Hsrc) as [Hsl _].
      rewrite (getChannelData_old _ _ _ _ _ _ Hr Hsrc). simpl bind.
      rewrite set_whole by (rewrite length_replicate; lia). simpl bind.
      rewrite setChannelData_new, Hsrc. reflexivity.
Qed.

(** ** trimAudio and cutAudio *)

(** A loop over the channels of the new buffer leaves the heap as it was,
    but for the samples of the new buffer. *)
Lemma channel_loop_frame (h : Heap) (R : number) (L C : nat)
  (body : nat -> Heap -> outcome Heap) (chans0 : list (list number)) (n : nat) (h' : Heap) :
  (forall c chans h'',
     body c (h ++ [AudioBuffer.mk R L C chans]) = Returns h'' ->
     exists chans', h'' = h ++ [AudioBuffer.mk R L C chans']) ->
  for_upto n body (h ++ [AudioBuffer.mk R L C chans0]) = Returns h' ->
  exists chans', h' = h ++ [AudioBuffer.mk R L C chans'].
Proof.
  intros Hbody Hloop.
  apply (loop_invariant (fun t => exists chans, t = h ++ [AudioBuffer.mk R L C chans])
           body n 0%nat (h ++ [AudioBuffer.mk R L C chans0]) h'); [ | eauto | exact Hloop].
  intros j t t' [chans ->] Ht. eauto.
Qed.

Lemma createBuffer_Returns (h : Heap) (b : AudioBuffer.t) (len : number) (r' : Ref)
  (h' : Heap) :
  wf_buffer b = true ->
  createBuffer h (AudioBuffer.numberOfChannels b) len (AudioBuffer.sampleRate b)
  = Returns (r', h') ->
  r' = length h
  /\ h' = h ++ [AudioBuffer.mk (AudioBuffer.sampleRate b) (Z.to_nat (ToUint32 len))
                  (AudioBuffer.numberOfChannels b)
                  (replicate (AudioBuffer.numberOfChannels b)
                     (replicate (Z.to_nat (ToUint32 len)) pzero))].
Proof.
  intros Hwf. rewrite (createBuffer_wf h b len Hwf).
  destruct (negb (flt len pzero) && (1 <=? ToUint32 len)); [ | discriminate].
  intros H. injection H as <- <-. auto.
Qed.

(** The attributes of the buffer returned by [trimAudio]. *)
Lemma trimAudio_attributes (h : Heap) (r : Ref) (b : AudioBuffer.t)
  (startTime endTime : number) (r' : Ref) (h' : Heap) :
  h !! r = Some b -> wf_buffer b = true ->
  trimAudio h r startTime endTime = Returns (r', h') ->
  exists L chans,
    r' = length h
    /\ h' = h ++ [AudioBuffer.mk (AudioBuffer.sampleRate b) L
                    (AudioBuffer.numberOfChannels b) chans].
Proof.
  intros Hr Hwf H. unfold trimAudio in H. rewrite (deref_Some _ _ _ Hr) in H. simpl bind in H.
  bind_inv H as [newBuffer h1] Hcreate.
  apply (createBuffer_Returns h b _ _ _ Hwf) in Hcreate as [-> ->].
  bind_inv H as h2 Hloop. injection H as <- <-.
  apply channel_loop_frame in Hloop as [chans' ->]; [eauto | ].
  intros c chans h'' Hb.
  bind_inv Hb as sourceData Hs. bind_inv Hb as targetData Ht. bind_inv Hb as data Hd.
  rewrite setChannelData_new in Hb. injection Hb as <-. eauto.
Qed.

(** The attributes of the buffer returned by [cutAudio]. *)
Lemma cutAudio_attributes (h : Heap) (r : Ref) (b : AudioBuffer.t)
  (startTime endTime : number) (r' : Ref) (h' : Heap) :
  h !! r = Some b -> wf_buffer b = true ->
  cutAudio h r startTime endTime = Returns (r', h') ->
  exists L chans,
    r' = length h
    /\ h' = h ++ [AudioBuffer.mk (AudioBuffer.sampleRate b) L
                    (AudioBuffer.numberOfChannels b) chans].
Proof.
  intros Hr Hwf H. unfold cutAudio in H. rewrite (deref_Some _ _ _ Hr) in H. simpl bind in H.
  bind_inv H as [newBuffer h1] Hcreate.
  apply (createBuffer_Returns h b _ _ _ Hwf) in Hcreate as [-> ->].
  bind_inv H as h2 Hloop. injection H as <- <-.
  apply channel_loop_frame in Hloop as [chans' ->]; [eauto | ].
  intros c chans h'' Hb.
  bind_inv Hb as sourceData Hs. bind_inv Hb as targetData Ht.
  bind_inv Hb as data Hd. bind_inv Hb as data' Hd'.
  rewrite setChannelData_new in Hb. injection Hb as <-. eauto.
Qed.

Lemma positive_rate (b : AudioBuffer.t) :
  wf_buffer b = true ->
  exists m e, AudioBuffer.sampleRate b = S754_finite false m e.
Proof.
  intros Hwf. destruct (wf_buffer_inv b Hwf) as [_ _ _ _ _ Hfin _ [Hr1 _]].
  destruct (AudioBuffer.sampleRate b) as [s | s | | [] m e]; try discriminate; eauto.
Qed.

Lemma clamp_index_small (len : nat) (z : Z) :
  0 <= z <= Z.of_nat len -> TypedArray.clamp_index len (Int z) = Z.to_nat z.
Proof.
  intros Hz. unfold TypedArray.clamp_index.
  destruct (Z.ltb_spec z 0); [lia | ]. f_equal. lia.
Qed.

(** Trimming from 0 to a time whose sample index [e] lies inside the buffer:
    the new buffer holds the first [e] samples of every channel. *)
Lemma trimAudio_prefix (h : Heap) (r : Ref) (b : AudioBuffer.t) (endTime : number) (e : Z) :
  h !! r = Some b -> wf_buffer b = true ->
  truncate (Math_floor (fmul endTime (AudioBuffer.sampleRate b))) = Some e ->
  1 <= e <= Z.of_nat (AudioBuffer.length b) ->
  trimAudio h r pzero endTime
  = Returns (length h,
             h ++ [AudioBuffer.mk (AudioBuffer.sampleRate b) (Z.to_nat e)
                     (AudioBuffer.numberOfChannels b)
                     (map (take (Z.to_nat e)) (AudioBuffer.channels b))]).
Proof.
  intros Hr Hwf He Hrange.
  pose proof (wf_buffer_inv b Hwf) as [Hc Hl1 Hl2 Hcl Hdata _ _ _].
  destruct (positive_rate b Hwf) as (mr & er & Hrate).
  unfold trimAudio. rewrite (deref_Some _ _ _ Hr). cbn [bind].
  set (endSample := Math_floor (fmul endTime (AudioBuffer.sampleRate b))) in *.
  assert (Hstart : Math_floor (fmul pzero (AudioBuffer.sampleRate b)) = pzero)
    by (rewrite Hrate; reflexivity).
  rewrite Hstart.
  assert (Hsub : fsub endSample pzero = endSample).
  { destruct endSample as [s | s | | s m ex]; try discriminate; [ | reflexivity].
    simpl in He. injection He as <-. lia. }
  rewrite Hsub.
  assert (Hu32 : ToUint32 endSample = e).
  { unfold ToUint32. rewrite He. apply Z.mod_small. lia. }
  assert (Hint : ToIntegerOrInfinity endSample = Int e).
  { destruct endSample as [s | s | | s m ex]; try discriminate; simpl in *; congruence. }
  assert (Hnn : flt endSample pzero = false).
  { destruct endSample as [s | [] | | [] m ex]; try discriminate; try reflexivity.
    simpl in He. injection He as <-. pose proof (magnitude_nonneg m ex). lia. }
  rewrite (createBuffer_frames h b _ e Hwf Hnn Hu32).
  assert (H1 : (1 <=? e) = true) by (apply Z.leb_le; lia).
  assert (H2 : (e <? 2 ^ 32) = true) by (apply Z.ltb_lt; lia).
  rewrite H1, H2. simpl andb. cbv iota. simpl bind.
  rewrite (channel_loop h _ _ _ _
             (fun c => take (Z.to_nat e) (default [] (AudioBuffer.channels b !! c)))).
  - simpl bind. rewrite (map_channels b (take (Z.to_nat e))) by exact Hcl. reflexivity.
  - apply length_replicate.
  - intros c chans Hc' Hlen Hzero.
    rewrite lookup_replicate_2 in Hzero by lia.
    destruct (lookup_lt_is_Some_2 (AudioBuffer.channels b) c ltac:(lia)) as [src Hsrc].
    destruct (Hdata c src Hsrc) as [Hsl _].
    rewrite (getChannelData_old _ _ _ _ _ _ Hr Hsrc). simpl bind.
    rewrite (getChannelData_new h (AudioBuffer.mk _ _ _ chans) c _ Hzero). simpl bind.
    assert (Hsubarray : TypedArray.subarray src pzero (Some endSample) = take (Z.to_nat e) src).
    { unfold TypedArray.subarray. rewrite Hint. simpl ToIntegerOrInfinity.
      rewrite !clamp_index_small by lia. simpl Z.to_nat. rewrite drop_0. f_equal. lia. }
    rewrite Hsubarray, set_whole by (rewrite length_replicate, length_take; lia).
    simpl bind. rewrite setChannelData_new, Hsrc. reflexivity.
Qed.

Lemma new_Uint8Array_Returns (len : number) (a : list Z) :
  TypedArray.new_Uint8Array len = Returns a ->
  a = replicate (length a) 0
  /\ (is_nan len = false -> truncate len = Some (Z.of_nat (length a)))
  /\ (is_nan len = true -> a = [])
  /\ exists k, iterations len = Some k /\ (length a <= k)%nat.
Proof.
  unfold TypedArray.new_Uint8Array.
  destruct len as [s | [] | | s m e]; simpl ToIntegerOrInfinity; cbv iota; try discriminate.
  - simpl. intros H. injection H as <-. repeat split; eauto; discriminate.
  - simpl. intros H. injection H as <-. repeat split; eauto; discriminate.
  - set (t := magnitude m e).
    assert (Ht : 0 <= t) by apply magnitude_nonneg.
    simpl default. fold t.
    destruct ((0 <=? cond_Zopp s t) && (cond_Zopp s t <=? 2 ^ 53 - 1)) eqn:Hc; [ | discriminate].
    apply andb_true_iff in Hc as [Hc1 Hc2]. apply Z.leb_le in Hc1.
    intros H. injection H as <-. rewrite length_replicate.
    split; [reflexivity | ]. split; [ | split; [discriminate | ]].
    + intros _. unfold truncate. fold t. f_equal. symmetry. apply Z2Nat.id. exact Hc1.
    + unfold iterations. destruct s.
      * exists 0%nat. split; [reflexivity | ]. clearbody t. unfold cond_Zopp in *. lia.
      * fold t. simpl cond_Zopp in *. clearbody t. apply Z.leb_le in Hc2. cbv zeta.
        destruct (is_integral _).
        -- destruct (Z.leb_spec t (2 ^ 53)); [ | lia]. eexists. split; [reflexivity | lia].
        -- destruct (Z.leb_spec (t + 1) (2 ^ 53)); [ | lia].
           eexists. split; [reflexivity | lia].
Qed.

(** [convertToPCM] fills every byte of the array it allocates. *)
Lemma convertToPCM_spec (audioBuffer : AudioBuffer.t) (options : PCMOptions)
  (sourceData : list number) (pcmData : list Z) :
  AudioBuffer.channels audioBuffer !! 0%nat = Some sourceData ->
  TypedArray.new_Uint8Array (targetLength audioBuffer options sourceData) = Returns pcmData ->
  convertToPCM audioBuffer options
  = Returns (map (pcm_byte audioBuffer options sourceData) (seq 0 (length pcmData))).
Proof.
  intros Hsrc Hnew. unfold convertToPCM. rewrite Hsrc. cbn [bind].
  fold (targetLength audioBuffer options sourceData). rewrite Hnew. cbn [bind].
  destruct (new_Uint8Array_Returns _ _ Hnew) as (Hzero & _ & _ & k & Hk & Hle).
  unfold for_below. rewrite Hk. unfold for_upto. rewrite loop_pure. f_equal.
  unfold TypedArray.store8. apply list_eq. intros j.
  rewrite (fold_insert_lookup
             (fun i => ToUint8 (pcm_value (interpolate sourceData
                (fdiv (fmul (of_nat i) (AudioBuffer.sampleRate audioBuffer))
                      (pcm_sampleRate options)))))).
  change (map ?f ?l) with (f <$> l). rewrite list_lookup_fmap.
  destruct (decide (j < length pcmData)%nat) as [Hj | Hj].
  - rewrite lookup_seq_lt by lia. destruct (decide (0 <= j < 0 + k)%nat); [ | lia].
    destruct (lookup_lt_is_Some_2 pcmData j Hj) as [x ->]. reflexivity.
  - rewrite lookup_seq_ge by lia. rewrite (lookup_ge_None_2 pcmData j) by lia.
    destruct (decide _); reflexivity.
Qed.

Lemma convertToPCM_Returns (audioBuffer : AudioBuffer.t) (options : PCMOptions)
  (bytes : list Z) :
  convertToPCM audioBuffer options = Returns bytes ->
  exists sourceData pcmData,
    AudioBuffer.channels audioBuffer !! 0%nat = Some sourceData
    /\ TypedArray.new_Uint8Array (targetLength audioBuffer options sourceData)
       = Returns pcmData
    /\ bytes = map (pcm_byte audioBuffer options sourceData) (seq 0 (length pcmData)).
Proof.
  intros H. pose proof H as H'. unfold convertToPCM in H'.
  destruct (AudioBuffer.channels audioBuffer !! 0%nat) as [sourceData | ] eqn:Hsrc;
    [ | discriminate].
  cbn [bind] in H'. fold (targetLength audioBuffer options sourceData) in H'.
  destruct (TypedArray.new_Uint8Array (targetLength audioBuffer options sourceData))
    as [pcmData | | ] eqn:Hnew; try discriminate.
  exists sourceData, pcmData. repeat split; auto.
  rewrite (convertToPCM_spec _ _ _ _ Hsrc Hnew) in H. now injection H as <-.
Qed.

Lemma ToUint8_range (x : number) : 0 <= ToUint8 x <= 255.
Proof.
  unfold ToUint8. destruct (truncate x); [ | lia].
  pose proof (Z.mod_pos_bound z (2 ^ 8) ltac:(lia)). change (2 ^ 8) with 256 in *. lia.
Qed.

Lemma wav_header_writes_spec (a1 a2 a3 a4 r1 r2 r3 r4 d1 d2 d3 d4 : Z) (rest : list Z) :
  wav_header_writes [a1; a2; a3; a4] [r1; r2; r3; r4] [d1; d2; d3; d4]
    (replicate 44 0 ++ rest)
  = Returns (wav_header [a1; a2; a3; a4] [r1; r2; r3; r4] [d1; d2; d3; d4] ++ rest).
Proof. vm_compute. reflexivity. Qed.

Lemma le_bytes_4 (n : Z) : DataView.le_bytes 4 n = u32le n.
Proof.
  unfold DataView.le_bytes, u32le. simpl map.
  change (8 * Z.of_nat 0) with 0. change (8 * Z.of_nat 1) with 8.
  change (8 * Z.of_nat 2) with 16. change (8 * Z.of_nat 3) with 24.
  now rewrite Z.pow_0_r, Z.div_1_r.
Qed.

Lemma exportAsWAV_spec (pcmData : list Z) (sampleRate : number) :
  exportAsWAV pcmData sampleRate
  = Returns {| blob_bytes :=
                 wav_header (u32le (ToUint32 (fadd (of_Z 36) (of_nat (length pcmData)))))
                            (u32le (ToUint32 sampleRate))
                            (u32le (ToUint32 (of_nat (length pcmData))))
                 ++ pcmData;
               blob_type := "audio/wav" |}.
Proof.
  change (exportAsWAV pcmData sampleRate)
    with (let* view :=
            wav_header_writes
              (DataView.le_bytes 4 (ToUint32 (fadd (of_Z 36) (of_nat (length pcmData)))))
              (DataView.le_bytes 4 (ToUint32 sampleRate))
              (DataView.le_bytes 4 (ToUint32 (of_nat (length pcmData))))
              (replicate (44 + length pcmData) 0) in
          let* dataView := TypedArray.set (drop 44 view) pcmData pzero in
          Returns {| blob_bytes := take 44 view ++ dataView; blob_type := "audio/wav" |}).
  rewrite !le_bytes_4, replicate_add. unfold u32le at 1 2 3.
  rewrite wav_header_writes_spec. cbn [bind].
  rewrite drop_app_length' by reflexivity.
  rewrite set_whole by apply length_replicate. cbn [bind].
  rewrite take_app_length' by reflexivity. reflexivity.
Qed.

(** ** exportAsCArray *)

Local Open Scope string_scope.
Local Open Scope list_scope.

Lemma take_min_length {A : Type} (n : nat) (l : list A) :
  take (Nat.min n (length l)) l = take n l.
Proof.
  destruct (Nat.le_ge_cases n (length l)).
  - now rewrite Nat.min_l.
  - rewrite Nat.min_r by lia. now rewrite !take_ge by lia.
Qed.

Lemma chunk_line_row (pcmData : list Z) (k : nat) :
  chunk_line pcmData (16 * k)
  = "  " +:+ join ", " (map (fun v => padStart 3 " " (byte_toString v))
                          (take 16 (drop (16 * k) pcmData)))
    +:+ (if (16 * (k + 1) <? length pcmData)%nat then "," else "").
Proof.
  unfold chunk_line, slice, chunkSize.
  replace (Nat.min (16 * k + 16) (length pcmData) - 16 * k)%nat
    with (Nat.min 16 (length (drop (16 * k) pcmData))) by (rewrite length_drop; lia).
  rewrite take_min_length. replace (16 * k + 16)%nat with (16 * (k + 1))%nat by lia.
  reflexivity.
Qed.

(** The loop of [exportAsCArray] pushes one row per chunk. *)
Lemma chunk_loop_rows (pcmData : list Z) (fuel k : nat) (lines : list string) :
  (row_count pcmData <= k + fuel)%nat ->
  chunk_loop fuel pcmData (16 * k) lines
  = lines ++ map (fun k =>
                    "  " +:+ join ", " (map (fun v => padStart 3 " " (byte_toString v))
                                          (take 16 (drop (16 * k) pcmData)))
                    +:+ (if (16 * (k + 1) <? length pcmData)%nat then "," else ""))
                 (seq k (row_count pcmData - k)).
Proof.
  unfold row_count.
  revert k lines. induction fuel as [ | fuel IH]; intros k lines Hfuel; cbn [chunk_loop].
  - replace ((length pcmData + 15) / 16 - k)%nat with 0%nat by lia.
    simpl. now rewrite app_nil_r.
  - pose proof (Nat.div_mod_eq (length pcmData + 15) 16) as Hdiv.
    pose proof (Nat.mod_upper_bound (length pcmData + 15) 16 ltac:(lia)) as Hmod.
    destruct (Nat.ltb_spec (16 * k) (length pcmData)) as [Hlt | Hge].
    + unfold chunkSize. replace (16 * k + 16)%nat with (16 * S k)%nat by lia.
      rewrite IH by lia. rewrite chunk_line_row, <- app_assoc. f_equal.
      replace ((length pcmData + 15) / 16 - k)%nat
        with (S ((length pcmData + 15) / 16 - S k)) by lia.
      reflexivity.
    + replace ((length pcmData + 15) / 16 - k)%nat with 0%nat by lia.
      simpl. now rewrite app_nil_r.
Qed.

Lemma row_count_le (pcmData : list Z) : (row_count pcmData <= length pcmData)%nat.
Proof.
  unfold row_count. destruct pcmData as [ | x l]; [reflexivity | ].
  apply Nat.Div0.div_le_upper_bound. simpl length. lia.
Qed.

Lemma exportAsCArray_text (Number_toString : number -> string)
  (pcmData : list Z) (options : ExportOptions) :
  exportAsCArray Number_toString pcmData options
  = c_array_text (padStart 3 " ") Number_toString pcmData options.
Proof.
  unfold exportAsCArray, c_array_text, value_rows.
  change 0%nat with (16 * 0)%nat at 1.
  rewrite chunk_loop_rows by (pose proof (row_count_le pcmData); lia).
  rewrite Nat.sub_0_r. simpl app. rewrite <- !app_assoc. reflexivity.
Qed.

Local Open Scope Z_scope.

Lemma lookup_replicate_ltb {A : Type} (n : nat) (v : A) (i : nat) :
  replicate n v !! i = if (i <? n)%nat then Some v else None.
Proof.
  destruct (Nat.ltb_spec i n).
  - now apply lookup_replicate_2.
  - now apply lookup_replicate_None.
Qed.

Lemma truncate_nonneg (m : positive) (e : Z) :
  0 <= default 0 (truncate (S754_finite false m e)).
Proof.
  simpl. apply magnitude_nonneg.
Qed.

Lemma get_replicate (n : nat) (v k : number) :
  TypedArray.get (replicate n v) k = get_constant (Z.of_nat n) v k.
Proof.
  unfold TypedArray.get, get_constant.
  destruct k as [s | s | | [] m e]; try reflexivity.
  - rewrite lookup_replicate_ltb.
    destruct (Nat.ltb_spec 0 n), (Z.ltb_spec 0 (Z.of_nat n)); auto; lia.
  - destruct (is_integral _); [ | reflexivity].
    rewrite lookup_replicate_ltb. pose proof (truncate_nonneg m e) as Hnn.
    destruct (Nat.ltb_spec (Z.to_nat (default 0 (truncate (S754_finite false m e)))) n),
      (Z.ltb_spec (default 0 (truncate (S754_finite false m e))) (Z.of_nat n)); auto; lia.
Qed.

Lemma pcm_byte_constant (b : AudioBuffer.t) (options : PCMOptions) (n : nat) (v : number)
  (i : nat) :
  pcm_byte b options (replicate n v) i
  = constant_pcm_byte (Z.of_nat n) v (AudioBuffer.sampleRate b) (pcm_sampleRate options)
      (Z.of_nat i).
Proof.
  unfold pcm_byte, constant_pcm_byte, interpolate.
  now rewrite !get_replicate, length_replicate.
Qed.

Lemma zrange_lookup (count : nat) (start : Z) (i : nat) :
  (i < count)%nat -> zrange count start !! i = Some (start + Z.of_nat i).
Proof.
  revert start i. induction count as [ | count IH]; intros start i Hi; [lia | ].
  destruct i as [ | i]; simpl.
  - f_equal. lia.
  - rewrite IH by lia. f_equal. lia.
Qed.

Lemma scenario_bytes :
  forallb (fun i => constant_pcm_byte 88200 half (of_Z 44100) (of_Z 8000) i =? 191)
          (zrange (Z.to_nat 16000) 0) = true.
Proof. vm_compute. reflexivity. Qed.

Lemma of_nat_to_nat (z : Z) : 0 <= z -> of_nat (Z.to_nat z) = of_Z z.
Proof. intros Hz. unfold of_nat. now rewrite Z2Nat.id. Qed.

Lemma new_Uint8Array_Int (len : number) (z : Z) :
  ToIntegerOrInfinity len = Int z -> 0 <= z <= 2 ^ 53 - 1 ->
  TypedArray.new_Uint8Array len = Returns (replicate (Z.to_nat z) 0).
Proof.
  intros Hint Hz. unfold TypedArray.new_Uint8Array. rewrite Hint.
  assert (H1 : (0 <=? z) = true) by (apply Z.leb_le; lia).
  assert (H2 : (z <=? 2 ^ 53 - 1) = true) by (apply Z.leb_le; lia).
  now rewrite H1, H2.
Qed.

(** Converting a constant mono buffer: when every index gives the same byte,
    the result is that byte repeated. *)
Lemma convertToPCM_constant (n count : nat) (v rate target : number) (byte : Z) :
  TypedArray.new_Uint8Array (Math_floor (fdiv (fmul (of_nat n) target) rate))
  = Returns (replicate count 0) ->
  (forall i, (i < count)%nat ->
     constant_pcm_byte (Z.of_nat n) v rate target (Z.of_nat i) = byte) ->
  convertToPCM (AudioBuffer.mk rate n 1 [replicate n v]) {| pcm_sampleRate := target |}
  = Returns (replicate count byte).
Proof.
  intros Hnew Hbyte.
  rewrite (convertToPCM_spec _ _ (replicate n v) (replicate count 0)).
  - f_equal. rewrite length_replicate. apply list_eq. intros i.
    change (map ?f ?l) with (f <$> l). rewrite list_lookup_fmap, lookup_replicate_ltb.
    destruct (Nat.ltb_spec i count) as [Hi | Hi].
    + rewrite lookup_seq_lt by lia. cbn [fmap option_fmap option_map]. f_equal.
      rewrite pcm_byte_constant. now apply Hbyte.
    + rewrite lookup_seq_ge by lia. reflexivity.
  - reflexivity.
  - unfold targetLength. rewrite length_replicate. exact Hnew.
Qed.

(** ** The claims *)

(** C1. Every byte returned by [convertToPCM] lies in [0, 255] and is the
    byte of its interpolated sample: the sample is clamped to [-1, 1], mapped
    to [Math.round((sample + 1) * 127.5)] and stored in the [Uint8Array];
    this for arbitrary samples and rates.  For two seconds of the constant
    0.5 at 44100 Hz converted at 8000 Hz, the 16000 bytes all equal 191. *)
Theorem convertToPCM_bytes :
  (forall (audioBuffer : AudioBuffer.t) (options : PCMOptions) (bytes : list Z),
     convertToPCM audioBuffer options = Returns bytes ->
     exists sourceData,
       AudioBuffer.channels audioBuffer !! 0%nat = Some sourceData
       /\ forall (i : nat) (byte : Z), bytes !! i = Some byte ->
            0 <= byte <= 255
            /\ byte
               = ToUint8
                   (Math_round
                      (fmul
                         (fadd
                            (clamp
                               (interpolate sourceData
                                  (fdiv (fmul (of_nat i) (AudioBuffer.sampleRate audioBuffer))
                                        (pcm_sampleRate options))))
                            one)
                         lit_127_5)))
  /\ convertToPCM (constant_buffer (Z.to_nat 88200) half) {| pcm_sampleRate := of_Z 8000 |}
     = Returns (replicate (Z.to_nat 16000) 191).
Proof.
  split.
  - intros audioBuffer options bytes H.
    destruct (convertToPCM_Returns _ _ _ H) as (sourceData & pcmData & Hsrc & _ & ->).
    exists sourceData. split; [exact Hsrc | ]. intros i byte Hi.
    change (map ?f ?l) with (f <$> l) in Hi. rewrite list_lookup_fmap in Hi.
    destruct (seq 0 (length pcmData) !! i) as [j | ] eqn:Hj; [ | discriminate].
    apply lookup_seq in Hj as [-> _]. simpl in Hi. injection Hi as <-.
    split; [apply ToUint8_range | reflexivity].
  - apply convertToPCM_constant.
    + rewrite of_nat_to_nat by lia. apply new_Uint8Array_Int; [ | lia].
      vm_compute. reflexivity.
    + intros i Hi. pose proof scenario_bytes as Hall. rewrite forallb_forall in Hall.
      rewrite Z2Nat.id by lia. apply Z.eqb_eq, Hall.
      apply list_elem_of_In, (list_elem_of_lookup_2 _ i).
      rewrite zrange_lookup by lia. reflexivity.
Qed.

Lemma convertToPCM_bytes_witness :
  convertToPCM (mono_buffer [of_Z 5; of_Z (-5)]) {| pcm_sampleRate := of_Z 44100 |}
  = Returns [255; 0]
  /\ exists sourceData,
       AudioBuffer.channels (mono_buffer [of_Z 5; of_Z (-5)]) !! 0%nat = Some sourceData
       /\ forall (i : nat) (byte : Z), [255; 0] !! i = Some byte ->
            0 <= byte <= 255
            /\ byte
               = ToUint8
                   (Math_round
                      (fmul
                         (fadd
                            (clamp
                               (interpolate sourceData
                                  (fdiv (fmul (of_nat i)
                                           (AudioBuffer.sampleRate
                                              (mono_buffer [of_Z 5; of_Z (-5)])))
                                        (pcm_sampleRate {| pcm_sampleRate := of_Z 44100 |}))))
                            one)
                         lit_127_5)).
Proof.
  split; [vm_compute; reflexivity | ].
  apply (proj1 convertToPCM_bytes). vm_compute. reflexivity.
Defined.

(** C2. The byte sequence returned by [convertToPCM] has the length
    [floor(sourceLength * targetRate / sourceRate)], the product and the
    quotient being those of the program (binary64); a NaN there gives no
    bytes.  One second at 44100 Hz converted at 8000 Hz gives 8000 bytes,
    whatever the samples. *)
Theorem convertToPCM_length :
  (forall (audioBuffer : AudioBuffer.t) (options : PCMOptions) (bytes : list Z),
     convertToPCM audioBuffer options = Returns bytes ->
     exists sourceData,
       AudioBuffer.channels audioBuffer !! 0%nat = Some sourceData
       /\ let floor_length :=
            Math_floor (fdiv (fmul (of_nat (length sourceData)) (pcm_sampleRate options))
                             (AudioBuffer.sampleRate audioBuffer)) in
          (is_nan floor_length = false ->
             truncate floor_length = Some (Z.of_nat (length bytes)))
          /\ (is_nan floor_length = true -> bytes = []))
  /\ (forall sourceData : list number,
        Z.of_nat (length sourceData) = 44100 ->
        exists bytes,
          convertToPCM (mono_buffer sourceData) {| pcm_sampleRate := of_Z 8000 |}
          = Returns bytes
          /\ Z.of_nat (length bytes) = 8000).
Proof.
  split.
  - intros audioBuffer options bytes H.
    destruct (convertToPCM_Returns _ _ _ H) as (sourceData & pcmData & Hsrc & Hnew & ->).
    exists sourceData. split; [exact Hsrc | ].
    destruct (new_Uint8Array_Returns _ _ Hnew) as (_ & Hlen & Hnan & _).
    rewrite length_map, length_seq. split; [exact Hlen | ].
    intros Hn. rewrite (Hnan Hn). reflexivity.
  - intros sourceData Hlen.
    exists (map (pcm_byte (mono_buffer sourceData) {| pcm_sampleRate := of_Z 8000 |} sourceData)
              (seq 0 (length (replicate (Z.to_nat 8000) 0)))).
    split.
    + apply convertToPCM_spec; [reflexivity | ].
      unfold targetLength, of_nat. rewrite Hlen. apply new_Uint8Array_Int; [ | lia].
      vm_compute. reflexivity.
    + rewrite length_map, length_seq, length_replicate. lia.
Qed.

Lemma convertToPCM_length_witness :
  convertToPCM (mono_buffer [half; half; half; half]) {| pcm_sampleRate := of_Z 22050 |}
  = Returns [191; 191]
  /\ exists sourceData,
       AudioBuffer.channels (mono_buffer [half; half; half; half]) !! 0%nat = Some sourceData
       /\ let floor_length :=
            Math_floor (fdiv (fmul (of_nat (length sourceData))
                                (pcm_sampleRate {| pcm_sampleRate := of_Z 22050 |}))
                             (AudioBuffer.sampleRate (mono_buffer [half; half; half; half]))) in
          (is_nan floor_length = false ->
             truncate floor_length = Some (Z.of_nat (length [191; 191])))
          /\ (is_nan floor_length = true -> [191; 191] = []).
Proof.
  split; [vm_compute; reflexivity | ].
  apply (proj1 convertToPCM_length). vm_compute. reflexivity.
Defined.

(** ** Completion and samples of the transforms *)

Lemma sample_map (R : number) (L C : nat) (f : number -> number) (b : AudioBuffer.t)
  (c i : nat) :
  sample (AudioBuffer.mk R L C (map (map f) (AudioBuffer.channels b))) c i
  = f <$> sample b c i.
Proof.
  unfold sample. cbn [AudioBuffer.channels].
  change (map (map f) ?l) with (map f <$> l). rewrite list_lookup_fmap.
  destruct (AudioBuffer.channels b !! c) as [data | ]; [ | reflexivity].
  cbn [fmap option_fmap option_map]. change (map f data) with (f <$> data).
  apply list_lookup_fmap.
Qed.

Lemma sample_wf (b : AudioBuffer.t) (c i : nat) (s : number) :
  wf_buffer b = true -> sample b c i = Some s -> valid s /\ fround s = s.
Proof.
  intros Hwf Hs. unfold sample in Hs.
  destruct (AudioBuffer.channels b !! c) as [data | ] eqn:Hc; [ | discriminate].
  destruct (wf_channel_data b (wf_buffer_inv b Hwf) c data Hc) as [_ Hdata]. eauto.
Qed.

Lemma sample_finite (b : AudioBuffer.t) (c i : nat) (s : number) :
  finite_samples b = true -> sample b c i = Some s -> is_finite s = true.
Proof.
  unfold finite_samples, sample. intros Hfin Hs.
  destruct (AudioBuffer.channels b !! c) as [data | ] eqn:Hc; [ | discriminate].
  rewrite forallb_forall in Hfin.
  specialize (Hfin data ltac:(eapply list_elem_of_In, list_elem_of_lookup_2; eauto)).
  rewrite forallb_forall in Hfin. apply Hfin.
  eapply list_elem_of_In, list_elem_of_lookup_2; eauto.
Qed.

(** The last buffer of a store is the one at the store's former length. *)
Lemma lookup_new (h : Heap) (b : AudioBuffer.t) : (h ++ [b]) !! length h = Some b.
Proof. rewrite lookup_app_r by lia. now rewrite Nat.sub_diag. Qed.

(** A clamped product that is not NaN lies between -1 and 1, also once
    stored in a [Float32Array]. *)
Lemma amplified_range (gain s : number) :
  valid gain -> valid s -> is_nan (fmul s gain) = false ->
  fle (of_Z (-1)) (amplified gain s) = true /\ fle (amplified gain s) one = true.
Proof.
  intros Hg Hs Hnan. unfold amplified.
  destruct (clamp_spec (fmul s gain) Hnan) as (_ & Hle & Hge).
  destruct (fround_range (clamp (fmul s gain))) as [H1 H2]; auto.
  apply valid_clamp, valid_fmul; assumption.
Qed.

Lemma amplified_nan (gain s : number) :
  is_nan (fmul s gain) = true -> amplified gain s = NaN.
Proof.
  unfold amplified. intros H. destruct (fmul s gain); try discriminate. reflexivity.
Qed.

(** Evaluating the conjuncts of a closed statement. *)
Ltac evaluate :=
  repeat match goal with |- _ /\ _ => split end; vm_compute; reflexivity.






(** C6, as stated, fails: a NaN sample stays NaN under [amplifyAudio] with
    gain 1, and NaN is not between -1 and 1. *)
Lemma amplifyAudio_nan_sample :
  wf_buffer (mono_buffer [half; NaN]) = true
  /\ is_finite one = true
  /\ amplifyAudio [mono_buffer [half; NaN]] 0 one
     = Returns (1%nat, [mono_buffer [half; NaN]; mono_buffer [half; NaN]])
  /\ sample (mono_buffer [half; NaN]) 0 1 = Some NaN
  /\ fle (of_Z (-1)) NaN = false
  /\ fle NaN one = false.
Proof. evaluate. Qed.

(** C6 (amended). For every buffer and every gain, [amplifyAudio] returns a
    new buffer in which every sample of every channel is the input sample
    multiplied by the gain, clamped by [Math.max(-1, Math.min(1, _))] and
    stored as binary32.  An output sample lies in [-1, 1] when the product is
    not NaN, and is NaN when it is; so for a finite gain every output sample
    of a buffer of finite samples lies in [-1, 1]. *)
Theorem amplifyAudio_samples (h : Heap) (r : Ref) (b : AudioBuffer.t) (gain : number) :
  h !! r = Some b -> wf_buffer b = true ->
  exists b' : AudioBuffer.t,
    amplifyAudio h r gain = Returns (length h, h ++ [b'])
    /\ AudioBuffer.length b' = AudioBuffer.length b
    /\ (forall c i : nat,
          sample b' c i = (fun s => fround (clamp (fmul s gain))) <$> sample b c i)
    /\ (valid gain ->
        forall (c i : nat) (s s' : number),
          sample b c i = Some s -> sample b' c i = Some s' ->
          (is_nan (fmul s gain) = false -> fle (of_Z (-1)) s' = true /\ fle s' one = true)
          /\ (is_nan (fmul s gain) = true -> s' = NaN))
    /\ (valid gain -> is_finite gain = true -> finite_samples b = true ->
        forall (c i : nat) (s' : number),
          sample b' c i = Some s' -> fle (of_Z (-1)) s' = true /\ fle s' one = true).
Proof.
  intros Hr Hwf. eexists. split; [apply (amplifyAudio_spec h r b gain Hr Hwf) | ].
  split; [reflexivity | ].
  assert (Hsample : forall c i : nat,
            sample (AudioBuffer.mk (AudioBuffer.sampleRate b) (AudioBuffer.length b)
                      (AudioBuffer.numberOfChannels b)
                      (map (map (amplified gain)) (AudioBuffer.channels b))) c i
            = amplified gain <$> sample b c i) by (intros; apply sample_map).
  split; [exact Hsample | ].
  split.
  - intros Hg c i s s' Hs Hs'. rewrite Hsample, Hs in Hs'. injection Hs' as <-.
    destruct (sample_wf b c i s Hwf Hs) as [Hv _]. split.
    + now apply amplified_range.
    + apply amplified_nan.
  - intros Hg Hfin Hfs c i s' Hs'. rewrite Hsample in Hs'.
    destruct (sample b c i) as [s | ] eqn:Hs; [ | discriminate]. injection Hs' as <-.
    destruct (sample_wf b c i s Hwf Hs) as [Hv _].
    apply amplified_range; auto. apply fmul_finite_not_nan; auto.
    eapply sample_finite; eauto.
Qed.

Lemma amplifyAudio_samples_witness :
  exists b' : AudioBuffer.t,
    amplifyAudio [mono_buffer [half; fneg half]] 0 (of_Z 1000)
    = Returns (1%nat, [mono_buffer [half; fneg half]] ++ [b'])
    /\ sample b' 0 0 = Some one
    /\ sample b' 0 1 = Some (of_Z (-1)).
Proof.
  assert (Hwf : wf_buffer (mono_buffer [half; fneg half]) = true)
    by (vm_compute; reflexivity).
  destruct (amplifyAudio_samples [mono_buffer [half; fneg half]] 0%nat
              (mono_buffer [half; fneg half]) (of_Z 1000) eq_refl Hwf)
    as (b' & Hret & _ & Hs & _).
  exists b'. split; [exact Hret | ]. rewrite !Hs. evaluate.
Defined.

(** C4. [exportAsWAV] returns a blob of 44 + dataLength bytes: the 44-byte
    header, field by field and little-endian, then the PCM bytes.  The three
    fields that depend on the arguments hold them as unsigned 32-bit integers
    ([setUint32] converts with ToUint32): 36 + dataLength and dataLength
    themselves whenever 36 + dataLength is below 2^32, and the sample rate
    itself whenever it is an integer below 2^32. *)
Theorem exportAsWAV_layout (pcmData : list Z) (sampleRate : number) :
  exists bytes : list Z,
    exportAsWAV pcmData sampleRate
    = Returns {| blob_bytes := bytes; blob_type := "audio/wav" |}
    /\ length bytes = (44 + length pcmData)%nat
    /\ field 0 4 bytes = char_codes "RIFF"
    /\ field 4 4 bytes = u32le (ToUint32 (fadd (of_Z 36) (of_nat (length pcmData))))
    /\ field 8 4 bytes = char_codes "WAVE"
    /\ field 12 4 bytes = char_codes "fmt "
    /\ field 16 4 bytes = u32le 16
    /\ field 20 2 bytes = u16le 1
    /\ field 22 2 bytes = u16le 1
    /\ field 24 4 bytes = u32le (ToUint32 sampleRate)
    /\ field 28 4 bytes = u32le (ToUint32 sampleRate)
    /\ field 32 2 bytes = u16le 1
    /\ field 34 2 bytes = u16le 8
    /\ field 36 4 bytes = char_codes "data"
    /\ field 40 4 bytes = u32le (ToUint32 (of_nat (length pcmData)))
    /\ drop 44 bytes = pcmData
    /\ (36 + Z.of_nat (length pcmData) < 2 ^ 32 ->
        ToUint32 (fadd (of_Z 36) (of_nat (length pcmData))) = 36 + Z.of_nat (length pcmData)
        /\ ToUint32 (of_nat (length pcmData)) = Z.of_nat (length pcmData))
    /\ (forall rate : Z, 0 <= rate < 2 ^ 32 -> sampleRate = of_Z rate ->
        ToUint32 sampleRate = rate).
Proof.
  eexists. split; [apply exportAsWAV_spec | ].
  split.
  { rewrite length_app. reflexivity. }
  unfold field, wav_header, u32le, u16le.
  do 14 (split; [reflexivity | ]).
  split.
  - intros Hlen. unfold of_nat. rewrite fadd_of_Z by lia.
    rewrite !ToUint32_of_Z by lia. split; reflexivity.
  - intros rate Hrate ->. now apply ToUint32_of_Z.
Qed.

Lemma exportAsWAV_layout_witness :
  exportAsWAV [0; 128; 255] (of_Z 16000)
  = Returns {| blob_bytes :=
                 [82; 73; 70; 70; 39; 0; 0; 0; 87; 65; 86; 69; 102; 109; 116; 32;
                  16; 0; 0; 0; 1; 0; 1; 0; 128; 62; 0; 0; 128; 62; 0; 0; 1; 0; 8; 0;
                  100; 97; 116; 97; 3; 0; 0; 0; 0; 128; 255];
               blob_type := "audio/wav" |}
  /\ ToUint32 (fadd (of_Z 36) (of_nat (length [0; 128; 255]))) = 39
  /\ ToUint32 (of_Z 16000) = 16000.
Proof.
  destruct (exportAsWAV_layout [0; 128; 255] (of_Z 16000))
    as (bytes & Hret & _ & _ & _ & _ & _ & _ & _ & _ & _ & _ & _ & _ & _ & _ & _ & Hlen & Hrate).
  split; [vm_compute; reflexivity | ].
  split.
  - apply (proj1 (Hlen ltac:(simpl; lia))).
  - apply (Hrate 16000 ltac:(lia) eq_refl).
Defined.

Local Open Scope string_scope.
Local Open Scope list_scope.

(** C8, as stated, fails: the values are not padded on the right.  For the
    bytes 0, 128, 255 the code writes the row [    0, 128, 255]; padding on
    the right would give [  0  , 128, 255]. *)
Lemma exportAsCArray_not_right_padded :
  exportAsCArray integral_toString [0; 128; 255]%Z example_options
  <> c_array_text (padEnd 3 " ") integral_toString [0; 128; 255]%Z example_options
  /\ chunk_line [0; 128; 255]%Z 0 = "    0, 128, 255"
  /\ value_rows (padEnd 3 " ") [0; 128; 255]%Z = ["  0  , 128, 255"].
Proof.
  split; [vm_compute; discriminate | ]. split; vm_compute; reflexivity.
Qed.

Lemma padStart_byte_width :
  forallb (fun v => (String.length (padStart 3 " " (byte_toString v)) =? 3)%nat)
          (zrange 256 0) = true.
Proof. vm_compute. reflexivity. Qed.

(** C8 (amended). [exportAsCArray] returns the lines, joined by newlines: three
    [//] comment lines (sample count, sample rate, format), the line
    [const uint8_t <arrayName>[] = {], the byte values 16 per line, separated
    by a comma and a space and each padded on the left with spaces to width 3
    (every line but the last ends with a comma), the line [};] and the line
    [const size_t <arrayName>_length = N;] with N the byte count.  For the
    bytes 0, 128, 255 and the name [x] the text is the seven lines below. *)
Theorem exportAsCArray_layout :
  (forall (Number_toString : number -> string) (pcmData : list Z) (options : ExportOptions),
     exportAsCArray Number_toString pcmData options
     = c_array_text (padStart 3 " ") Number_toString pcmData options)
  /\ (forall v : Z, (0 <= v <= 255)%Z ->
        String.length (padStart 3 " " (byte_toString v)) = 3%nat)
  /\ exportAsCArray integral_toString [0; 128; 255]%Z example_options
     = join (String "010" "")
         ["// PCM Audio Data - 3 samples";
          "// Sample Rate: 8000 Hz";
          "// Format: 8-bit unsigned PCM";
          "const uint8_t x[] = {";
          "    0, 128, 255";
          "};";
          "const size_t x_length = 3;"].
Proof.
  split; [exact exportAsCArray_text | ].
  split; [ | vm_compute; reflexivity].
  intros v Hv. pose proof padStart_byte_width as Hall. rewrite forallb_forall in Hall.
  apply Nat.eqb_eq, Hall. apply list_elem_of_In, (list_elem_of_lookup_2 _ (Z.to_nat v)).
  rewrite zrange_lookup by lia. f_equal. lia.
Qed.

Lemma exportAsCArray_layout_witness :
  String.length (padStart 3 " " (byte_toString 7)) = 3%nat.
Proof. apply (proj1 (proj2 exportAsCArray_layout) 7%Z). lia. Defined.

Local Open Scope Z_scope.

(** An absolute value that is at most zero is the zero [+0]. *)
Lemma abs_le_zero (s : number) : fle (Math_abs s) pzero = true -> Math_abs s = pzero.
Proof. destruct s as [[] | [] | | [] m e]; simpl; intros H; try discriminate; reflexivity. Qed.

(** The peak of a non-empty channel without NaN is one of its absolute
    values. *)
Lemma find_peak_attained (channelData : list number) :
  channelData <> [] -> Forall (fun s => is_nan s = false) channelData ->
  Exists (fun s => find_peak channelData = Math_abs s) channelData.
Proof.
  intros Hne Hnan. destruct (find_peak_spec channelData Hnan) as [Hle [Hz | Hex]]; [ | exact Hex].
  destruct channelData as [ | s l]; [contradiction | ].
  constructor 1. apply Forall_cons in Hle as [Hs _]. rewrite Hz in *.
  symmetry. now apply abs_le_zero.
Qed.

(** C5. [normalizeAudio] reads channel 0 only and computes its peak [max]:
    for a channel without NaN, the largest absolute value of its samples.  If
    [max === 0] it returns the very buffer it was given and allocates nothing;
    otherwise it returns a new buffer whose channel 0 holds every input
    sample times [0.95 / max] (stored as binary32) and whose other channels
    are the input's. *)
Theorem normalizeAudio_peak (h : Heap) (r : Ref) (b : AudioBuffer.t)
  (channelData : list number) (others : list (list number)) :
  h !! r = Some b -> wf_buffer b = true ->
  AudioBuffer.channels b = channelData :: others ->
  let max := find_peak channelData in
  (Forall (fun s => is_nan s = false) channelData ->
     Forall (fun s => fle (Math_abs s) max = true) channelData
     /\ Exists (fun s => max = Math_abs s) channelData)
  /\ (feq max pzero = true -> normalizeAudio h r = Returns (r, h))
  /\ (feq max pzero = false ->
      normalizeAudio h r
      = Returns (length h,
                 h ++ [AudioBuffer.mk (AudioBuffer.sampleRate b) (AudioBuffer.length b)
                         (AudioBuffer.numberOfChannels b)
                         (map (fun s => fround (fmul s (fdiv lit_0_95 max))) channelData
                          :: others)])).
Proof.
  intros Hr Hwf Hch max. split; [ | split].
  - intros Hnan. split; [now apply find_peak_spec | ].
    apply find_peak_attained; [ | exact Hnan].
    intros ->. pose proof (wf_buffer_inv b Hwf) as Hf.
    destruct (wf_channel_data b Hf 0%nat []) as [Hlen _]; [now rewrite Hch | ].
    pose proof (wf_length_pos b Hf). simpl in Hlen. lia.
  - intros Hz. rewrite (normalizeAudio_spec h r b channelData others Hr Hwf Hch).
    fold max. now rewrite Hz.
  - intros Hz. rewrite (normalizeAudio_spec h r b channelData others Hr Hwf Hch).
    fold max. now rewrite Hz.
Qed.

Lemma normalizeAudio_peak_witness :
  normalizeAudio [mono_buffer [half; fneg one]] 0
  = Returns (1%nat,
             [mono_buffer [half; fneg one];
              mono_buffer [fround (fmul half lit_0_95); fround (fmul (fneg one) lit_0_95)]])
  /\ normalizeAudio [mono_buffer [pzero; pzero]] 0
     = Returns (0%nat, [mono_buffer [pzero; pzero]]).
Proof.
  assert (Hwf : wf_buffer (mono_buffer [half; fneg one]) = true) by (vm_compute; reflexivity).
  assert (Hwf0 : wf_buffer (mono_buffer [pzero; pzero]) = true) by (vm_compute; reflexivity).
  split.
  - rewrite (proj2 (proj2 (normalizeAudio_peak [mono_buffer [half; fneg one]] 0%nat
                             (mono_buffer [half; fneg one]) [half; fneg one] []
                             eq_refl Hwf eq_refl)));
      vm_compute; reflexivity.
  - apply (proj1 (proj2 (normalizeAudio_peak [mono_buffer [pzero; pzero]] 0%nat
                           (mono_buffer [pzero; pzero]) [pzero; pzero] []
                           eq_refl Hwf0 eq_refl))).
    vm_compute. reflexivity.
Defined.

(** ** Resampling at ratio 1 *)

Lemma resampled_length (ratio : number) (count newLength : nat) (sourceData : list number) :
  length (resampled ratio count newLength sourceData) = newLength.
Proof.
  unfold resampled, TypedArray.store.
  rewrite (fold_insert_length (fun i => fround (interpolate sourceData (fmul (of_nat i) ratio)))).
  apply length_replicate.
Qed.

Lemma resampled_lookup (ratio : number) (count newLength : nat) (sourceData : list number)
  (i : nat) :
  (i < count)%nat -> (i < newLength)%nat ->
  resampled ratio count newLength sourceData !! i
  = Some (fround (interpolate sourceData (fmul (of_nat i) ratio))).
Proof.
  intros Hc Hn. unfold resampled, TypedArray.store.
  rewrite (fold_insert_lookup
             (fun i => fround (interpolate sourceData (fmul (of_nat i) ratio)))).
  destruct (decide (0 <= i < 0 + count)%nat); [ | lia].
  now rewrite lookup_replicate_2 by lia.
Qed.

Lemma same_number_fround (x s : number) :
  fround s = s -> same_number x s -> same_number (fround x) s.
Proof.
  intros Hs [-> | (s1 & s2 & -> & ->)]; [left; exact Hs | right; simpl; eauto].
Qed.

(** At ratio 1 the resampling loop copies a channel of finite samples. *)
Lemma resampled_identity (sourceData : list number) (i : nat) (s : number) :
  Z.of_nat (length sourceData) < 2 ^ 32 ->
  (forall j x, sourceData !! j = Some x -> valid x /\ fround x = x /\ is_finite x = true) ->
  sourceData !! i = Some s ->
  exists s', resampled one (length sourceData) (length sourceData) sourceData !! i = Some s'
             /\ same_number s' s.
Proof.
  intros Hlen Hall Hs.
  assert (Hi : (i < length sourceData)%nat) by (apply lookup_lt_is_Some_1; eauto).
  rewrite resampled_lookup by lia. eexists. split; [reflexivity | ].
  destruct (Hall i s Hs) as (Hv & Hf & Hfin).
  apply same_number_fround; [exact Hf | ].
  apply interpolate_at_index; auto.
  intros s' Hs'. now destruct (Hall _ _ Hs') as (_ & _ & ?).
Qed.

(** C7, as stated, fails: with an infinite sample next to it, the sample 0.5
    comes back as NaN from the resampling at ratio 1, since the interpolation
    adds [Infinity * 0] to it. *)
Lemma pitchShift_zero_infinite_sample :
  wf_buffer (mono_buffer [half; Infinity]) = true
  /\ pitchShift Math_pow_at_zero [mono_buffer [half; Infinity]] 0 pzero
     = Returns (1%nat, [mono_buffer [half; Infinity]; mono_buffer [NaN; Infinity]])
  /\ feq NaN half = false.
Proof. evaluate. Qed.

(** C7 (amended). Let [Math.pow(x, 0) = 1] as ECMAScript fixes it.  For every
    buffer whose samples are all finite, [pitchShift(buf, 0)] returns a new
    buffer of the same length whose samples in every channel equal the
    original samples (as numbers: a zero may change its sign). *)
Theorem pitchShift_zero (Math_pow : number -> number -> number)
  (h : Heap) (r : Ref) (b : AudioBuffer.t) (sign : bool) :
  (forall (base : number) (s : bool), Math_pow base (S754_zero s) = one) ->
  h !! r = Some b -> wf_buffer b = true -> finite_samples b = true ->
  exists b' : AudioBuffer.t,
    pitchShift Math_pow h r (S754_zero sign) = Returns (length h, h ++ [b'])
    /\ AudioBuffer.length b' = AudioBuffer.length b
    /\ length (AudioBuffer.channels b') = length (AudioBuffer.channels b)
    /\ (forall (c i : nat) (s : number),
          sample b c i = Some s ->
          exists s', sample b' c i = Some s' /\ same_number s' s /\ feq s' s = true)
    /\ (forall c i : nat, sample b c i = None -> sample b' c i = None).
Proof.
  intros Hpow Hr Hwf Hfin. pose proof (wf_buffer_inv b Hwf) as Hf.
  pose proof (wf_length_pos b Hf) as Hpos. pose proof (wf_length_u32 b Hf) as Hu32.
  rewrite pitchShift_changeSpeed.
  assert (Hratio : Math_pow (of_Z 2) (fdiv (S754_zero sign) (of_Z 12)) = one).
  { replace (fdiv (S754_zero sign) (of_Z 12)) with (S754_zero sign) by now destruct sign.
    apply Hpow. }
  rewrite Hratio, (changeSpeed_spec h r b one Hr Hwf). cbv zeta.
  unfold of_nat. rewrite fdiv_one by (apply valid_of_Z; lia).
  rewrite Math_floor_of_Z, ToUint32_of_Z, iterations_of_Z, flt_of_Z_zero by lia.
  simpl orb.
  destruct (Z.eqb_spec (Z.of_nat (AudioBuffer.length b)) 0) as [ | _]; [lia | ].
  rewrite Nat2Z.id. eexists. split; [reflexivity | ].
  split; [reflexivity | ]. split; [apply length_map | ].
  assert (Hchan : forall c data, AudioBuffer.channels b !! c = Some data ->
            length data = AudioBuffer.length b
            /\ forall j x, data !! j = Some x -> valid x /\ fround x = x /\ is_finite x = true).
  { intros c data Hc. destruct (wf_channel_data b Hf c data Hc) as [Hl Hd].
    split; [exact Hl | ]. intros j x Hx. destruct (Hd j x Hx) as [Hv Hfr].
    repeat split; auto. apply (sample_finite b c j x Hfin). unfold sample. now rewrite Hc. }
  split.
  - intros c i s Hs. unfold sample in *. cbn [AudioBuffer.channels].
    change (map ?f ?l) with (f <$> l). rewrite list_lookup_fmap.
    destruct (AudioBuffer.channels b !! c) as [data | ] eqn:Hc; [ | discriminate].
    cbn [fmap option_fmap option_map].
    destruct (Hchan c data Hc) as [Hl Hd]. rewrite <- Hl.
    destruct (resampled_identity data i s ltac:(lia) Hd Hs) as (s' & Hs' & Hsame).
    exists s'. repeat split; auto. apply same_number_feq; auto.
    now destruct (Hd i s Hs) as (_ & _ & ?).
  - intros c i Hs. unfold sample in *. cbn [AudioBuffer.channels].
    change (map ?f ?l) with (f <$> l). rewrite list_lookup_fmap.
    destruct (AudioBuffer.channels b !! c) as [data | ] eqn:Hc; [ | reflexivity].
    cbn [fmap option_fmap option_map]. destruct (Hchan c data Hc) as [Hl _].
    apply lookup_ge_None_2. rewrite resampled_length.
    apply lookup_ge_None_1 in Hs. lia.
Qed.

Lemma pitchShift_zero_witness :
  pitchShift Math_pow_at_zero [mono_buffer [half; fneg half; one]] 0 pzero
  = Returns (1%nat, [mono_buffer [half; fneg half; one]; mono_buffer [half; fneg half; one]])
  /\ exists b' : AudioBuffer.t,
       pitchShift Math_pow_at_zero [mono_buffer [half; fneg half; one]] 0 pzero
       = Returns (1%nat, [mono_buffer [half; fneg half; one]] ++ [b'])
       /\ AudioBuffer.length b' = 3%nat.
Proof.
  assert (Hwf : wf_buffer (mono_buffer [half; fneg half; one]) = true)
    by (vm_compute; reflexivity).
  assert (Hfin : finite_samples (mono_buffer [half; fneg half; one]) = true)
    by (vm_compute; reflexivity).
  split; [vm_compute; reflexivity | ].
  destruct (pitchShift_zero Math_pow_at_zero [mono_buffer [half; fneg half; one]] 0%nat
              (mono_buffer [half; fneg half; one]) false (fun _ _ => eq_refl)
              eq_refl Hwf Hfin) as (b' & Hret & Hlen & _).
  exists b'. split; [exact Hret | exact Hlen].
Defined.

(** ** Trimming the whole buffer *)

(** C9. The code does not give the identity trim.  For 15 samples at
    44100 Hz, [duration = 15 / 44100] is rounded, [duration * sampleRate] is a
    number just below 15 and its floor is 14: the trim from 0 to [duration]
    returns the first 14 samples and drops the last.  For one sample at
    8001 Hz the floor is 0 and the same call throws NotSupportedError. *)
Theorem trimAudio_whole_drops_a_sample :
  wf_buffer (constant_buffer 15 half) = true
  /\ truncate (Math_floor (fmul (AudioBuffer.duration (constant_buffer 15 half))
                                (of_Z 44100))) = Some 14
  /\ trimAudio [constant_buffer 15 half] 0 pzero
       (AudioBuffer.duration (constant_buffer 15 half))
     = Returns (1%nat, [constant_buffer 15 half; constant_buffer 14 half])
  /\ wf_buffer (AudioBuffer.mk (of_Z 8001) 1 1 [[half]]) = true
  /\ truncate (Math_floor (fmul (AudioBuffer.duration (AudioBuffer.mk (of_Z 8001) 1 1 [[half]]))
                                (of_Z 8001))) = Some 0
  /\ trimAudio [AudioBuffer.mk (of_Z 8001) 1 1 [[half]]] 0 pzero
       (AudioBuffer.duration (AudioBuffer.mk (of_Z 8001) 1 1 [[half]]))
     = Throws NotSupportedError.
Proof. evaluate. Qed.

Lemma keeps_attributes_new (h : Heap) (b : AudioBuffer.t) (L : nat)
  (chans : list (list number)) (r' : Ref) (h' : Heap) :
  r' = length h ->
  h' = h ++ [AudioBuffer.mk (AudioBuffer.sampleRate b) L (AudioBuffer.numberOfChannels b) chans] ->
  exists b' : AudioBuffer.t,
    h' !! r' = Some b'
    /\ AudioBuffer.sampleRate b' = AudioBuffer.sampleRate b
    /\ AudioBuffer.numberOfChannels b' = AudioBuffer.numberOfChannels b.
Proof. intros -> ->. eexists. split; [apply lookup_new | split; reflexivity]. Qed.

Lemma changeSpeed_keeps_attributes (h : Heap) (r : Ref) (b : AudioBuffer.t) (speed : number) :
  h !! r = Some b -> wf_buffer b = true -> keeps_attributes b (changeSpeed h r speed).
Proof.
  intros Hr Hwf r' h'. rewrite (changeSpeed_spec h r b speed Hr Hwf). cbv zeta.
  destruct (_ || _); [discriminate | ]. destruct (iterations _); [ | discriminate].
  intros H. injection H as <- <-. eapply keeps_attributes_new; reflexivity.
Qed.

(** C10. Whenever one of [normalizeAudio], [amplifyAudio], [pitchShift],
    [changeSpeed], [trimAudio] and [cutAudio] returns a buffer, that buffer
    has the sample rate and the number of channels of the input buffer. *)
Theorem transforms_keep_attributes (Math_pow : number -> number -> number)
  (h : Heap) (r : Ref) (b : AudioBuffer.t) :
  h !! r = Some b -> wf_buffer b = true ->
  keeps_attributes b (normalizeAudio h r)
  /\ (forall gain, keeps_attributes b (amplifyAudio h r gain))
  /\ (forall semitones, keeps_attributes b (pitchShift Math_pow h r semitones))
  /\ (forall speed, keeps_attributes b (changeSpeed h r speed))
  /\ (forall startTime endTime, keeps_attributes b (trimAudio h r startTime endTime))
  /\ (forall startTime endTime, keeps_attributes b (cutAudio h r startTime endTime)).
Proof.
  intros Hr Hwf. pose proof (wf_buffer_inv b Hwf) as Hf.
  split; [ | split; [ | split; [ | split; [ | split]]]].
  - destruct (AudioBuffer.channels b) as [ | channelData others] eqn:Hch.
    { pose proof (wf_channels_length b Hf) as Hl. pose proof (wf_channels_pos b Hf).
      rewrite Hch in Hl. simpl in Hl. lia. }
    intros r' h'. rewrite (normalizeAudio_spec h r b channelData others Hr Hwf Hch).
    destruct (feq _ _); intros H; injection H as <- <-.
    + exists b. auto.
    + eapply keeps_attributes_new; reflexivity.
  - intros gain r' h'. rewrite (amplifyAudio_spec h r b gain Hr Hwf).
    intros H. injection H as <- <-. eapply keeps_attributes_new; reflexivity.
  - intros semitones. rewrite pitchShift_changeSpeed.
    now apply changeSpeed_keeps_attributes.
  - intros speed. now apply changeSpeed_keeps_attributes.
  - intros startTime endTime r' h' H.
    destruct (trimAudio_attributes h r b _ _ _ _ Hr Hwf H) as (L & chans & Hr' & Hh').
    eapply keeps_attributes_new; eauto.
  - intros startTime endTime r' h' H.
    destruct (cutAudio_attributes h r b _ _ _ _ Hr Hwf H) as (L & chans & Hr' & Hh').
    eapply keeps_attributes_new; eauto.
Qed.

Lemma transforms_keep_attributes_witness :
  exists b' : AudioBuffer.t,
    [constant_buffer 4 half; constant_buffer 2 half] !! 1%nat = Some b'
    /\ AudioBuffer.sampleRate b' = of_Z 44100
    /\ AudioBuffer.numberOfChannels b' = 1%nat.
Proof.
  assert (Hwf : wf_buffer (constant_buffer 4 half) = true) by (vm_compute; reflexivity).
  apply (proj1 (proj2 (proj2 (proj2
           (transforms_keep_attributes Math_pow_at_zero [constant_buffer 4 half] 0%nat
              (constant_buffer 4 half) eq_refl Hwf)))) (of_Z 2) 1%nat
           [constant_buffer 4 half; constant_buffer 2 half]).
  vm_compute. reflexivity.
Defined.

Lemma valid_mantissa (s : bool) (m : positive) (e : Z) :
  valid (S754_finite s m e) -> Zpos m < 2 ^ 53 /\ (0 <= e -> 2 ^ 52 <= Zpos m).
Proof.
  intros Hv. destruct (bounded_inv _ _ _ _ Hv) as [Hc _].
  pose proof (digits2_bounds m) as [Hlo Hhi].
  unfold fexp, emin, prec, emax in Hc. split.
  - assert (Zpos (digits2_pos m) <= 53) by lia.
    assert (2 ^ Zpos (digits2_pos m) <= 2 ^ 53) by (apply Z.pow_le_mono_r; lia). lia.
  - intros He. assert (Zpos (digits2_pos m) = 53) as Hd by lia.
    rewrite Hd in Hlo. exact Hlo.
Qed.

(** The number of a negative integer is the opposite of the number of its
    absolute value. *)
Lemma of_Z_neg (n : positive) : of_Z (Zneg n) = fneg (of_Z (Zpos n)).
Proof.
  unfold of_Z, binary_normalize, binary_round, fneg.
  destruct (shl_align n 0 (fexp prec emax (Z.pos (digits2_pos n) + 0))) as [mz ez].
  unfold binary_round_aux.
  destruct (shr_fexp prec emax (Z.pos mz) ez loc_Exact) as [mrs e1].
  destruct (shr_fexp prec emax (round_nearest_even (shr_m mrs) (loc_of_shr_record mrs)) e1
              loc_Exact) as [mrs' e2].
  destruct (shr_m mrs'); try reflexivity.
  destruct (e2 <=? emax - prec); reflexivity.
Qed.

(** The floor of a number that truncates to a small non-negative integer is
    that integer. *)
Lemma Math_floor_index (x : number) (z : Z) :
  valid x -> truncate (Math_floor x) = Some z -> 0 <= z < 2 ^ 52 ->
  index_number (Math_floor x) z.
Proof.
  intros Hv Ht Hz. destruct x as [s | s | | s m e]; try discriminate.
  - simpl in Ht. injection Ht as <-. right. eauto.
  - destruct (valid_mantissa s m e Hv) as [Hm53 Hm52].
    unfold Math_floor in *. destruct (Z.leb_spec 0 e) as [He | He].
    + exfalso. simpl in Ht. injection Ht as <-. rewrite magnitude_spec in Hz.
      destruct (Z.leb_spec 0 e); [ | lia].
      assert (0 < 2 ^ e) by (apply Z.pow_pos_nonneg; lia).
      specialize (Hm52 He). destruct s; simpl in Hz; nia.
    + assert (Hpow : 0 < 2 ^ (- e)) by (apply Z.pow_pos_nonneg; lia).
      destruct s; unfold signed in *; simpl cond_Zopp in *.
      * (* negative: the floor is a negative integer *)
        rewrite Z.shiftr_div_pow2 in * by lia. change (- Z.pos m) with (Z.neg m) in *.
        assert (Hq : Z.neg m / 2 ^ (- e) < 0) by (apply Z.div_lt_upper_bound; lia).
        assert (Hq' : - 2 ^ 53 < Z.neg m / 2 ^ (- e)).
        { assert (- Z.pos m <= Z.neg m / 2 ^ (- e)); [ | lia].
          apply Z.div_le_lower_bound; [lia | ]. nia. }
        destruct (Z.neg m / 2 ^ (- e)) as [ | q | q] eqn:Hdiv; try lia.
        cbv beta iota in Ht. rewrite of_Z_neg in Ht.
        destruct (of_Z_canonical (Zpos q)) as (m' & e' & Heq & _ & He' & Hm' & _); [lia | ].
        pose proof (truncate_of_Z (Zpos q) ltac:(lia)) as Htq.
        rewrite Heq in *. simpl in Ht, Htq. injection Htq as Htq.
        injection Ht as <-. simpl in Hz. lia.
      * rewrite Z.shiftr_div_pow2 in * by lia.
        assert (Hq : 0 <= Z.pos m / 2 ^ (- e)) by (apply Z.div_pos; lia).
        assert (Hq' : Z.pos m / 2 ^ (- e) < 2 ^ 53).
        { apply Z.div_lt_upper_bound; [lia | ]. nia. }
        destruct (Z.pos m / 2 ^ (- e)) as [ | q | q] eqn:Hdiv; try lia; cbv beta iota in Ht.
        -- simpl in Ht. injection Ht as <-. right. eauto.
        -- rewrite truncate_of_Z in Ht by lia. injection Ht as <-. left. split; [lia | easy].
Qed.

Lemma index_number_of_Z (z : Z) : 0 <= z -> index_number (of_Z z) z.
Proof.
  intros Hz. destruct (Z.eq_dec z 0) as [-> | Hne].
  - right. split; [reflexivity | ]. exists false. reflexivity.
  - left. split; [lia | reflexivity].
Qed.

Lemma index_number_truncate (x : number) (z : Z) :
  index_number x z -> z < 2 ^ 53 -> truncate x = Some z.
Proof.
  intros [[Hz ->] | [-> [s ->]]] Hlt; [ | reflexivity]. apply truncate_of_Z. lia.
Qed.

Lemma index_number_ToUint32 (x : number) (z : Z) :
  index_number x z -> z < 2 ^ 32 -> ToUint32 x = z.
Proof.
  intros Hx Hz. unfold ToUint32. rewrite (index_number_truncate x z Hx) by lia.
  apply Z.mod_small. destruct Hx as [[? _] | [-> _]]; lia.
Qed.

Lemma index_number_flt (x : number) (z : Z) :
  index_number x z -> z < 2 ^ 53 -> flt x pzero = false.
Proof.
  intros [[Hz ->] | [_ [s ->]]] Hlt; [apply flt_of_Z_zero; lia | now destruct s].
Qed.

Lemma index_number_Int (x : number) (z : Z) :
  index_number x z -> z < 2 ^ 53 -> ToIntegerOrInfinity x = Int z.
Proof.
  intros Hx Hz. pose proof (index_number_truncate x z Hx Hz) as Ht.
  destruct x as [s | s | | s m e]; try discriminate; simpl in *; congruence.
Qed.

(** Subtraction of integers below 2^53 is exact. *)
Lemma fsub_of_Z (a b : Z) :
  0 < b -> b < a -> a < 2 ^ 53 -> fsub (of_Z a) (of_Z b) = of_Z (a - b).
Proof.
  intros Hb Hba Ha.
  destruct (of_Z_canonical a) as (ma & ea & -> & _ & Hea & Hma & _); [lia | ].
  destruct (of_Z_canonical b) as (mb & eb & -> & _ & Heb & Hmb & _); [lia | ].
  destruct (of_Z_canonical (a - b)) as (mc & ec & -> & Hbc & Hec & Hmc & _); [lia | ].
  unfold fsub, SFsub, cond_Zopp.
  set (ez := Z.min ea eb).
  pose proof (shl_align_fst ma ea ez ltac:(lia)) as H1.
  pose proof (shl_align_fst mb eb ez ltac:(lia)) as H2.
  assert (Hdiff : Zpos (fst (shl_align ma ea ez)) - Zpos (fst (shl_align mb eb ez))
                  = (a - b) * 2 ^ (- ez)).
  { rewrite H1, H2, Hma, Hmb, <- !Z.mul_assoc, <- !Z.pow_add_r by lia.
    replace (- ea + (ea - ez)) with (- ez) by lia.
    replace (- eb + (eb - ez)) with (- ez) by lia. lia. }
  rewrite Hdiff.
  assert (0 < (a - b) * 2 ^ (- ez))
    by (apply Z.mul_pos_pos; [lia | apply Z.pow_pos_nonneg; lia]).
  destruct ((a - b) * 2 ^ (- ez)) as [ | M | M] eqn:HM; try lia.
  unfold binary_normalize. apply binary_round_exact; auto.
  unfold same_value. rewrite <- HM, Hmc, <- !Z.mul_assoc, <- !Z.pow_add_r by lia.
  f_equal. f_equal. lia.
Qed.

Lemma fsub_index (x y : number) (a b : Z) :
  index_number x a -> index_number y b -> b <= a -> a < 2 ^ 53 ->
  index_number (fsub x y) (a - b).
Proof.
  intros [[Ha ->] | [-> [sx ->]]] [[Hb ->] | [-> [sy ->]]] Hle Hlt; try lia.
  - destruct (Z.eq_dec a b) as [-> | Hne].
    + rewrite fsub_diag by (apply is_finite_of_Z; lia). rewrite Z.sub_diag.
      right. split; [reflexivity | ]. exists false. reflexivity.
    + rewrite fsub_of_Z by lia. left. split; [lia | reflexivity].
  - rewrite Z.sub_0_r. left. split; [exact Ha | ].
    destruct (of_Z_canonical a) as (m & e & -> & _); [lia | ]. reflexivity.
  - right. split; [reflexivity | ]. destruct sx, sy; simpl; eauto.
Qed.

(** ** trimAudio and cutAudio on a range of samples *)

Lemma wf_rate_valid (b : AudioBuffer.t) :
  wf_buffer b = true -> valid (AudioBuffer.sampleRate b).
Proof.
  unfold wf_buffer. intros H.
  repeat (let H' := fresh "H" in apply andb_true_iff in H as [H H']).
  now apply float32_value_inv in H2 as [? _].
Qed.

(** The sample index of a time, as [trimAudio] and [cutAudio] compute it. *)
Lemma time_index (b : AudioBuffer.t) (time : number) (z : Z) :
  wf_buffer b = true -> valid time ->
  truncate (Math_floor (fmul time (AudioBuffer.sampleRate b))) = Some z ->
  0 <= z < 2 ^ 52 ->
  index_number (Math_floor (fmul time (AudioBuffer.sampleRate b))) z.
Proof.
  intros Hwf Hv Ht Hz. apply Math_floor_index; auto.
  apply valid_fmul; [exact Hv | now apply wf_rate_valid].
Qed.

Lemma subarray_range {A : Type} (src : list A) (x y : number) (s e : Z) :
  index_number x s -> index_number y e -> s <= e <= Z.of_nat (length src) ->
  Z.of_nat (length src) < 2 ^ 53 ->
  TypedArray.subarray src x (Some y) = take (Z.to_nat (e - s)) (drop (Z.to_nat s) src).
Proof.
  intros Hx Hy Hr Hlen.
  assert (0 <= s) by (destruct Hx as [[? _] | [-> _]]; lia).
  unfold TypedArray.subarray.
  rewrite (index_number_Int x s Hx), (index_number_Int y e Hy) by lia.
  rewrite !clamp_index_small by lia. f_equal. lia.
Qed.

Lemma subarray_from {A : Type} (src : list A) (y : number) (e : Z) :
  index_number y e -> e <= Z.of_nat (length src) -> Z.of_nat (length src) < 2 ^ 53 ->
  TypedArray.subarray src y None = drop (Z.to_nat e) src.
Proof.
  intros Hy Hr Hlen.
  assert (0 <= e) by (destruct Hy as [[? _] | [-> _]]; lia).
  unfold TypedArray.subarray. rewrite (index_number_Int y e Hy) by lia.
  rewrite clamp_index_small by lia. apply take_ge. rewrite length_drop. lia.
Qed.

Lemma set_at {A : Type} (target source : list A) (x : number) (z : Z) :
  index_number x z -> Z.of_nat (length source) + z <= Z.of_nat (length target) ->
  Z.of_nat (length target) < 2 ^ 53 ->
  TypedArray.set target source x
  = Returns (take (Z.to_nat z) target ++ source
             ++ drop (Z.to_nat z + length source) target).
Proof.
  intros Hx Hfit Hlen.
  assert (0 <= z) by (destruct Hx as [[? _] | [-> _]]; lia).
  unfold TypedArray.set. rewrite (index_number_Int x z Hx) by lia.
  destruct (Z.ltb_spec z 0); [lia | ].
  destruct (Z.ltb_spec (Z.of_nat (length target)) (Z.of_nat (length source) + z)); [lia | ].
  reflexivity.
Qed.

(** [trimAudio] on the samples [s, e) of a buffer. *)
Lemma trimAudio_range_spec (h : Heap) (r : Ref) (b : AudioBuffer.t)
  (startTime endTime : number) (s e : Z) :
  h !! r = Some b -> wf_buffer b = true -> valid startTime -> valid endTime ->
  truncate (Math_floor (fmul startTime (AudioBuffer.sampleRate b))) = Some s ->
  truncate (Math_floor (fmul endTime (AudioBuffer.sampleRate b))) = Some e ->
  0 <= s < e -> e <= Z.of_nat (AudioBuffer.length b) ->
  trimAudio h r startTime endTime
  = Returns (length h,
             h ++ [AudioBuffer.mk (AudioBuffer.sampleRate b) (Z.to_nat (e - s))
                     (AudioBuffer.numberOfChannels b)
                     (map (fun data => take (Z.to_nat (e - s)) (drop (Z.to_nat s) data))
                        (AudioBuffer.channels b))]).
Proof.
  intros Hr Hwf Hvs Hve Hs He Hse HeL.
  pose proof (wf_buffer_inv b Hwf) as [Hc Hl1 Hl2 Hcl Hdata _ _ _].
  pose proof (time_index b startTime s Hwf Hvs Hs ltac:(lia)) as Hxs.
  pose proof (time_index b endTime e Hwf Hve He ltac:(lia)) as Hxe.
  unfold trimAudio. rewrite (deref_Some _ _ _ Hr). cbn [bind].
  set (startSample := Math_floor (fmul startTime (AudioBuffer.sampleRate b))) in *.
  set (endSample := Math_floor (fmul endTime (AudioBuffer.sampleRate b))) in *.
  pose proof (fsub_index endSample startSample e s Hxe Hxs ltac:(lia) ltac:(lia)) as Hlen.
  rewrite (createBuffer_frames h b _ (e - s) Hwf (index_number_flt _ _ Hlen ltac:(lia))
             (index_number_ToUint32 _ _ Hlen ltac:(lia))).
  assert (H1 : (1 <=? e - s) = true) by (apply Z.leb_le; lia).
  assert (H2 : (e - s <? 2 ^ 32) = true) by (apply Z.ltb_lt; lia).
  rewrite H1, H2. simpl andb. cbv iota. simpl bind.
  rewrite (channel_loop h _ _ _ _
             (fun c => take (Z.to_nat (e - s))
                         (drop (Z.to_nat s) (default [] (AudioBuffer.channels b !! c))))).
  - simpl bind.
    rewrite (map_channels b (fun data => take (Z.to_nat (e - s)) (drop (Z.to_nat s) data)))
      by exact Hcl.
    reflexivity.
  - apply length_replicate.
  - intros c chans Hc' Hlenc Hzero.
    rewrite lookup_replicate_2 in Hzero by lia.
    destruct (lookup_lt_is_Some_2 (AudioBuffer.channels b) c ltac:(lia)) as [src Hsrc].
    destruct (Hdata c src Hsrc) as [Hsl _].
    rewrite (getChannelData_old _ _ _ _ _ _ Hr Hsrc). simpl bind.
    rewrite (getChannelData_new h (AudioBuffer.mk _ _ _ chans) c _ Hzero). simpl bind.
    rewrite (subarray_range src startSample endSample s e Hxs Hxe) by lia.
    rewrite set_whole by (rewrite length_replicate, length_take, length_drop; lia).
    simpl bind. rewrite setChannelData_new, Hsrc. reflexivity.
Qed.

(** [cutAudio] removing the samples [s, e) of a buffer, some sample being
    left. *)
Lemma cutAudio_range_spec (h : Heap) (r : Ref) (b : AudioBuffer.t)
  (startTime endTime : number) (s e : Z) :
  h !! r = Some b -> wf_buffer b = true -> valid startTime -> valid endTime ->
  truncate (Math_floor (fmul startTime (AudioBuffer.sampleRate b))) = Some s ->
  truncate (Math_floor (fmul endTime (AudioBuffer.sampleRate b))) = Some e ->
  0 <= s <= e -> e <= Z.of_nat (AudioBuffer.length b) ->
  e - s < Z.of_nat (AudioBuffer.length b) ->
  cutAudio h r startTime endTime
  = Returns (length h,
             h ++ [AudioBuffer.mk (AudioBuffer.sampleRate b)
                     (Z.to_nat (Z.of_nat (AudioBuffer.length b) - (e - s)))
                     (AudioBuffer.numberOfChannels b)
                     (map (fun data => take (Z.to_nat s) data ++ drop (Z.to_nat e) data)
                        (AudioBuffer.channels b))]).
Proof.
  intros Hr Hwf Hvs Hve Hs He Hse HeL Hrest.
  pose proof (wf_buffer_inv b Hwf) as [Hc Hl1 Hl2 Hcl Hdata _ _ _].
  pose proof (time_index b startTime s Hwf Hvs Hs ltac:(lia)) as Hxs.
  pose proof (time_index b endTime e Hwf Hve He ltac:(lia)) as Hxe.
  unfold cutAudio. rewrite (deref_Some _ _ _ Hr). cbn [bind].
  set (startSample := Math_floor (fmul startTime (AudioBuffer.sampleRate b))) in *.
  set (endSample := Math_floor (fmul endTime (AudioBuffer.sampleRate b))) in *.
  set (L := Z.of_nat (AudioBuffer.length b)) in *.
  pose proof (fsub_index endSample startSample e s Hxe Hxs ltac:(lia) ltac:(lia)) as Hcut.
  pose proof (fsub_index (of_nat (AudioBuffer.length b)) (fsub endSample startSample)
                L (e - s) (index_number_of_Z L ltac:(lia)) Hcut ltac:(lia) ltac:(lia))
    as Hlen.
  rewrite (createBuffer_frames h b _ (L - (e - s)) Hwf
             (index_number_flt _ _ Hlen ltac:(lia))
             (index_number_ToUint32 _ _ Hlen ltac:(lia))).
  assert (H1 : (1 <=? L - (e - s)) = true) by (apply Z.leb_le; lia).
  assert (H2 : (L - (e - s) <? 2 ^ 32) = true) by (apply Z.ltb_lt; lia).
  rewrite H1, H2. simpl andb. cbv iota. simpl bind.
  rewrite (channel_loop h _ _ _ _
             (fun c => take (Z.to_nat s) (default [] (AudioBuffer.channels b !! c))
                       ++ drop (Z.to_nat e) (default [] (AudioBuffer.channels b !! c)))).
  - simpl bind.
    rewrite (map_channels b (fun data => take (Z.to_nat s) data ++ drop (Z.to_nat e) data))
      by exact Hcl.
    reflexivity.
  - apply length_replicate.
  - intros c chans Hc' Hlenc Hzero.
    rewrite lookup_replicate_2 in Hzero by lia.
    destruct (lookup_lt_is_Some_2 (AudioBuffer.channels b) c ltac:(lia)) as [src Hsrc].
    destruct (Hdata c src Hsrc) as [Hsl _].
    rewrite (getChannelData_old _ _ _ _ _ _ Hr Hsrc). simpl bind.
    rewrite (getChannelData_new h (AudioBuffer.mk _ _ _ chans) c _ Hzero). simpl bind.
    assert (Hzero_index : index_number pzero 0)
      by (right; split; [reflexivity | exists false; reflexivity]).
    rewrite (subarray_range src pzero startSample 0 s Hzero_index Hxs) by lia.
    rewrite Z.sub_0_r. change (Z.to_nat 0) with 0%nat. rewrite drop_0.
    rewrite (set_at _ _ pzero 0 Hzero_index)
      by (rewrite ?length_replicate, ?length_take; lia).
    simpl bind.
    rewrite (subarray_from src endSample e Hxe) by lia.
    rewrite (set_at _ _ startSample s Hxs)
      by (repeat rewrite ?length_app, ?length_take, ?length_drop, ?length_replicate; lia).
    simpl bind. rewrite setChannelData_new, Hsrc. cbn [default]. do 4 f_equal.
    rewrite take_app_length' by (rewrite length_take; lia).
    rewrite (drop_ge (take _ _ ++ _)); [rewrite app_nil_r; reflexivity | ].
    repeat rewrite ?length_app, ?length_take, ?length_drop, ?length_replicate. lia.
Qed.

Lemma sample_mk_map (R : number) (L C : nat) (F : list number -> list number)
  (b : AudioBuffer.t) (c i : nat) :
  sample (AudioBuffer.mk R L C (map F (AudioBuffer.channels b))) c i
  = match AudioBuffer.channels b !! c with
    | Some data => F data !! i
    | None => None
    end.
Proof.
  unfold sample. cbn [AudioBuffer.channels].
  change (map F ?l) with (F <$> l). rewrite list_lookup_fmap.
  now destruct (AudioBuffer.channels b !! c).
Qed.

(** X1. [trimAudio] returns the samples [startSample, endSample) of every
    channel, where [startSample = floor(startTime * sampleRate)] and
    [endSample = floor(endTime * sampleRate)]: for
    [0 <= startSample < endSample <= length] the new buffer has
    [endSample - startSample] samples and its sample [i] is the input's
    sample [startSample + i]. *)
Theorem trimAudio_range (h : Heap) (r : Ref) (b : AudioBuffer.t)
  (startTime endTime : number) (s e : Z) :
  h !! r = Some b -> wf_buffer b = true -> valid startTime -> valid endTime ->
  truncate (Math_floor (fmul startTime (AudioBuffer.sampleRate b))) = Some s ->
  truncate (Math_floor (fmul endTime (AudioBuffer.sampleRate b))) = Some e ->
  0 <= s < e -> e <= Z.of_nat (AudioBuffer.length b) ->
  exists b' : AudioBuffer.t,
    trimAudio h r startTime endTime = Returns (length h, h ++ [b'])
    /\ Z.of_nat (AudioBuffer.length b') = e - s
    /\ (forall c i : nat,
          Z.of_nat i < e - s -> sample b' c i = sample b c (Z.to_nat s + i))
    /\ (forall c i : nat, e - s <= Z.of_nat i -> sample b' c i = None).
Proof.
  intros Hr Hwf Hvs Hve Hs He Hse HeL. eexists.
  split; [apply (trimAudio_range_spec h r b _ _ s e); assumption | ].
  cbn [AudioBuffer.length]. split; [lia | ].
  pose proof (wf_buffer_inv b Hwf) as Hf.
  split; intros c i Hi; rewrite sample_mk_map; unfold sample;
    destruct (AudioBuffer.channels b !! c) as [data | ] eqn:Hc; try reflexivity.
  - rewrite lookup_take_lt by lia. apply lookup_drop.
  - apply lookup_ge_None_2. rewrite length_take. lia.
Qed.

Lemma trimAudio_range_witness :
  trimAudio [eight_samples] 0 (time_of_index 2) (time_of_index 5)
  = Returns (1%nat, [eight_samples; mono_buffer [one; fneg half; fneg one]])
  /\ exists b' : AudioBuffer.t,
       trimAudio [eight_samples] 0 (time_of_index 2) (time_of_index 5)
       = Returns (1%nat, [eight_samples] ++ [b'])
       /\ Z.of_nat (AudioBuffer.length b') = 5 - 2.
Proof.
  split; [vm_compute; reflexivity | ].
  assert (Hwf : wf_buffer eight_samples = true) by (vm_compute; reflexivity).
  assert (Hvs : valid (time_of_index 2)) by (vm_compute; reflexivity).
  assert (Hve : valid (time_of_index 5)) by (vm_compute; reflexivity).
  assert (Hs : truncate (Math_floor (fmul (time_of_index 2)
                                          (AudioBuffer.sampleRate eight_samples))) = Some 2)
    by (vm_compute; reflexivity).
  assert (He : truncate (Math_floor (fmul (time_of_index 5)
                                          (AudioBuffer.sampleRate eight_samples))) = Some 5)
    by (vm_compute; reflexivity).
  destruct (trimAudio_range [eight_samples] 0%nat eight_samples _ _ 2 5
              eq_refl Hwf Hvs Hve Hs He ltac:(lia) ltac:(simpl; lia))
    as (b' & Hret & Hlen & _).
  exists b'. split; [exact Hret | exact Hlen].
Defined.

(** X2. [cutAudio] removes the samples [startSample, endSample) of every
    channel: for [0 <= startSample <= endSample <= length], some sample
    being left, the new buffer has [length - (endSample - startSample)]
    samples; its sample [i] is the input's sample [i] before [startSample] and
    the input's sample [i + (endSample - startSample)] from there on. *)
Theorem cutAudio_range (h : Heap) (r : Ref) (b : AudioBuffer.t)
  (startTime endTime : number) (s e : Z) :
  h !! r = Some b -> wf_buffer b = true -> valid startTime -> valid endTime ->
  truncate (Math_floor (fmul startTime (AudioBuffer.sampleRate b))) = Some s ->
  truncate (Math_floor (fmul endTime (AudioBuffer.sampleRate b))) = Some e ->
  0 <= s <= e -> e <= Z.of_nat (AudioBuffer.length b) ->
  e - s < Z.of_nat (AudioBuffer.length b) ->
  exists b' : AudioBuffer.t,
    cutAudio h r startTime endTime = Returns (length h, h ++ [b'])
    /\ Z.of_nat (AudioBuffer.length b') = Z.of_nat (AudioBuffer.length b) - (e - s)
    /\ (forall c i : nat, Z.of_nat i < s -> sample b' c i = sample b c i)
    /\ (forall c i : nat,
          s <= Z.of_nat i -> sample b' c i = sample b c (i + Z.to_nat (e - s))).
Proof.
  intros Hr Hwf Hvs Hve Hs He Hse HeL Hrest. eexists.
  split; [apply (cutAudio_range_spec h r b _ _ s e); assumption | ].
  cbn [AudioBuffer.length]. split; [lia | ].
  pose proof (wf_buffer_inv b Hwf) as Hf.
  split; intros c i Hi; rewrite sample_mk_map; unfold sample;
    destruct (AudioBuffer.channels b !! c) as [data | ] eqn:Hc; try reflexivity;
    destruct (wf_channel_data b Hf c data Hc) as [Hl _].
  - rewrite lookup_app_l by (rewrite length_take; lia). apply lookup_take_lt. lia.
  - rewrite lookup_app_r by (rewrite length_take; lia).
    rewrite length_take, lookup_drop. f_equal. lia.
Qed.

Lemma cutAudio_range_witness :
  cutAudio [eight_samples] 0 (time_of_index 2) (time_of_index 5)
  = Returns (1%nat,
             [eight_samples; mono_buffer [pzero; half; of_Z 2; of_Z 3; of_Z 4]])
  /\ exists b' : AudioBuffer.t,
       cutAudio [eight_samples] 0 (time_of_index 2) (time_of_index 5)
       = Returns (1%nat, [eight_samples] ++ [b'])
       /\ Z.of_nat (AudioBuffer.length b')
          = Z.of_nat (AudioBuffer.length eight_samples) - (5 - 2).
Proof.
  split; [vm_compute; reflexivity | ].
  assert (Hwf : wf_buffer eight_samples = true) by (vm_compute; reflexivity).
  assert (Hvs : valid (time_of_index 2)) by (vm_compute; reflexivity).
  assert (Hve : valid (time_of_index 5)) by (vm_compute; reflexivity).
  assert (Hs : truncate (Math_floor (fmul (time_of_index 2)
                                          (AudioBuffer.sampleRate eight_samples))) = Some 2)
    by (vm_compute; reflexivity).
  assert (He : truncate (Math_floor (fmul (time_of_index 5)
                                          (AudioBuffer.sampleRate eight_samples))) = Some 5)
    by (vm_compute; reflexivity).
  destruct (cutAudio_range [eight_samples] 0%nat eight_samples _ _ 2 5
              eq_refl Hwf Hvs Hve Hs He ltac:(lia) ltac:(simpl; lia) ltac:(simpl; lia))
    as (b' & Hret & Hlen & _).
  exists b'. split; [exact Hret | exact Hlen].
Defined.

(** X3. Trimming to a selection and cutting the same selection split the
    buffer: the two lengths add up to the buffer's length, and every channel
    is the trimmed channel put back into the cut channel at [startSample]. *)
Theorem trim_cut_partition (h : Heap) (r : Ref) (b : AudioBuffer.t)
  (startTime endTime : number) (s e : Z) :
  h !! r = Some b -> wf_buffer b = true -> valid startTime -> valid endTime ->
  truncate (Math_floor (fmul startTime (AudioBuffer.sampleRate b))) = Some s ->
  truncate (Math_floor (fmul endTime (AudioBuffer.sampleRate b))) = Some e ->
  0 <= s < e -> e <= Z.of_nat (AudioBuffer.length b) ->
  e - s < Z.of_nat (AudioBuffer.length b) ->
  exists trimmed cut : AudioBuffer.t,
    trimAudio h r startTime endTime = Returns (length h, h ++ [trimmed])
    /\ cutAudio h r startTime endTime = Returns (length h, h ++ [cut])
    /\ (AudioBuffer.length trimmed + AudioBuffer.length cut = AudioBuffer.length b)%nat
    /\ forall (c : nat) (data : list number),
         AudioBuffer.channels b !! c = Some data ->
         exists kept removed : list number,
           AudioBuffer.channels trimmed !! c = Some removed
           /\ AudioBuffer.channels cut !! c = Some kept
           /\ data = take (Z.to_nat s) kept ++ removed ++ drop (Z.to_nat s) kept.
Proof.
  intros Hr Hwf Hvs Hve Hs He Hse HeL Hrest. do 2 eexists.
  split; [apply (trimAudio_range_spec h r b _ _ s e); assumption | ].
  split; [apply (cutAudio_range_spec h r b _ _ s e); (assumption || lia) | ].
  cbn [AudioBuffer.length AudioBuffer.channels]. split; [lia | ].
  intros c data Hc. pose proof (wf_buffer_inv b Hwf) as Hf.
  destruct (wf_channel_data b Hf c data Hc) as [Hl _].
  do 2 eexists. change (map ?f ?l) with (f <$> l). rewrite !list_lookup_fmap, Hc.
  cbn [fmap option_fmap option_map]. split; [reflexivity | ]. split; [reflexivity | ].
  rewrite take_app_length' by (rewrite length_take; lia).
  rewrite drop_app_length' by (rewrite length_take; lia).
  rewrite <- (take_drop (Z.to_nat s) data) at 1. f_equal.
  rewrite <- (take_drop (Z.to_nat (e - s)) (drop (Z.to_nat s) data)) at 1. f_equal.
  rewrite drop_drop. f_equal. lia.
Qed.

Lemma trim_cut_partition_witness :
  exists trimmed cut : AudioBuffer.t,
    trimAudio [eight_samples] 0 (time_of_index 2) (time_of_index 5)
    = Returns (1%nat, [eight_samples] ++ [trimmed])
    /\ cutAudio [eight_samples] 0 (time_of_index 2) (time_of_index 5)
       = Returns (1%nat, [eight_samples] ++ [cut])
    /\ (AudioBuffer.length trimmed + AudioBuffer.length cut = 8)%nat.
Proof.
  assert (Hwf : wf_buffer eight_samples = true) by (vm_compute; reflexivity).
  assert (Hvs : valid (time_of_index 2)) by (vm_compute; reflexivity).
  assert (Hve : valid (time_of_index 5)) by (vm_compute; reflexivity).
  assert (Hs : truncate (Math_floor (fmul (time_of_index 2)
                                          (AudioBuffer.sampleRate eight_samples))) = Some 2)
    by (vm_compute; reflexivity).
  assert (He : truncate (Math_floor (fmul (time_of_index 5)
                                          (AudioBuffer.sampleRate eight_samples))) = Some 5)
    by (vm_compute; reflexivity).
  destruct (trim_cut_partition [eight_samples] 0%nat eight_samples _ _ 2 5
              eq_refl Hwf Hvs Hve Hs He ltac:(lia) ltac:(simpl; lia) ltac:(simpl; lia))
    as (trimmed & cut & Ht & Hc & Hlen & _).
  exists trimmed, cut. split; [exact Ht | ]. split; [exact Hc | exact Hlen].
Defined.

(** The difference of a number with itself is a zero or NaN, and so 0 as an
    unsigned integer. *)
Lemma ToUint32_fsub_diag (x : number) : ToUint32 (fsub x x) = 0.
Proof.
  destruct x as [[] | [] | | s m e]; try reflexivity.
  unfold fsub, SFsub. now rewrite Z.sub_diag.
Qed.

(** X4. An empty selection cannot be trimmed to: [trimAudio] with equal
    start and end times throws NotSupportedError, whatever the time, since
    [createBuffer] refuses the length 0. *)
Theorem trimAudio_empty_selection (h : Heap) (r : Ref) (b : AudioBuffer.t) (time : number) :
  h !! r = Some b -> wf_buffer b = true ->
  trimAudio h r time time = Throws NotSupportedError.
Proof.
  intros Hr Hwf. unfold trimAudio. rewrite (deref_Some _ _ _ Hr). cbn [bind].
  rewrite (createBuffer_wf h b _ Hwf), ToUint32_fsub_diag.
  now destruct (flt (fsub _ _) pzero).
Qed.

Lemma trimAudio_empty_selection_witness :
  trimAudio [eight_samples] 0 pzero pzero = Throws NotSupportedError.
Proof.
  apply (trimAudio_empty_selection [eight_samples] 0%nat eight_samples pzero eq_refl).
  vm_compute. reflexivity.
Defined.

(** X5. Cutting the whole buffer throws: when the selection
    [startSample, endSample) covers all [length] samples, [cutAudio] asks
    [createBuffer] for the length 0 and gets NotSupportedError. *)
Theorem cutAudio_everything (h : Heap) (r : Ref) (b : AudioBuffer.t)
  (startTime endTime : number) (s e : Z) :
  h !! r = Some b -> wf_buffer b = true -> valid startTime -> valid endTime ->
  truncate (Math_floor (fmul startTime (AudioBuffer.sampleRate b))) = Some s ->
  truncate (Math_floor (fmul endTime (AudioBuffer.sampleRate b))) = Some e ->
  0 <= s -> e - s = Z.of_nat (AudioBuffer.length b) -> e < 2 ^ 52 ->
  cutAudio h r startTime endTime = Throws NotSupportedError.
Proof.
  intros Hr Hwf Hvs Hve Hs He Hs0 Hall Hbig.
  pose proof (wf_buffer_inv b Hwf) as Hf. pose proof (wf_length_pos b Hf) as Hpos.
  pose proof (time_index b startTime s Hwf Hvs Hs ltac:(lia)) as Hxs.
  pose proof (time_index b endTime e Hwf Hve He ltac:(lia)) as Hxe.
  unfold cutAudio. rewrite (deref_Some _ _ _ Hr). cbn [bind].
  set (startSample := Math_floor (fmul startTime (AudioBuffer.sampleRate b))) in *.
  set (endSample := Math_floor (fmul endTime (AudioBuffer.sampleRate b))) in *.
  pose proof (fsub_index endSample startSample e s Hxe Hxs ltac:(lia) ltac:(lia)) as Hcut.
  pose proof (fsub_index (of_nat (AudioBuffer.length b)) (fsub endSample startSample)
                (Z.of_nat (AudioBuffer.length b)) (e - s)
                (index_number_of_Z (Z.of_nat (AudioBuffer.length b)) ltac:(lia))
                Hcut ltac:(lia) ltac:(lia)) as Hlen.
  rewrite (createBuffer_wf h b _ Hwf), (index_number_ToUint32 _ _ Hlen) by lia.
  replace (Z.of_nat (AudioBuffer.length b) - (e - s)) with 0 by lia.
  now destruct (flt _ pzero).
Qed.

Lemma cutAudio_everything_witness :
  cutAudio [eight_samples] 0 pzero (time_of_index 8) = Throws NotSupportedError.
Proof.
  assert (Hwf : wf_buffer eight_samples = true) by (vm_compute; reflexivity).
  assert (Hve : valid (time_of_index 8)) by (vm_compute; reflexivity).
  assert (He : truncate (Math_floor (fmul (time_of_index 8)
                                          (AudioBuffer.sampleRate eight_samples))) = Some 8)
    by (vm_compute; reflexivity).
  apply (cutAudio_everything [eight_samples] 0%nat eight_samples pzero (time_of_index 8) 0 8
           eq_refl Hwf eq_refl Hve eq_refl He); simpl; lia.
Defined.

Lemma returns_new_buffer_intro (h : Heap) (r : Ref) (b b' : AudioBuffer.t) (r' : Ref)
  (h' : Heap) :
  h !! r = Some b -> r' = length h -> h' = h ++ [b'] ->
  exists b'' : AudioBuffer.t,
    h' = h ++ [b''] /\ r' = length h /\ r' <> r
    /\ forall (r0 : Ref) (b0 : AudioBuffer.t), h !! r0 = Some b0 -> h' !! r0 = Some b0.
Proof.
  intros Hr -> ->. exists b'. split; [reflexivity | ]. split; [reflexivity | ]. split.
  - apply lookup_lt_Some in Hr. lia.
  - intros r0 b0 H0. now apply lookup_app_l_Some.
Qed.

Lemma changeSpeed_returns_new_buffer (h : Heap) (r : Ref) (b : AudioBuffer.t)
  (speed : number) :
  h !! r = Some b -> wf_buffer b = true -> returns_new_buffer h r (changeSpeed h r speed).
Proof.
  intros Hr Hwf r' h'. rewrite (changeSpeed_spec h r b speed Hr Hwf). cbv zeta.
  destruct (_ || _); [discriminate | ]. destruct (iterations _); [ | discriminate].
  intros H. injection H as <- <-. eapply returns_new_buffer_intro; eauto.
Qed.

(** X6. The transforms do not touch the buffers that exist.  When
    [amplifyAudio], [pitchShift], [changeSpeed], [trimAudio] or [cutAudio]
    returns, the store is the old store with exactly one buffer appended,
    and the reference returned is that of the appended buffer, never the
    input.  When [normalizeAudio] returns, either the same holds or (for a
    silent channel 0) it returns the input reference and the store
    unchanged. *)
Theorem transforms_keep_store (Math_pow : number -> number -> number)
  (h : Heap) (r : Ref) (b : AudioBuffer.t) :
  h !! r = Some b -> wf_buffer b = true ->
  (forall (r' : Ref) (h' : Heap),
     normalizeAudio h r = Returns (r', h') ->
     (r' = r /\ h' = h)
     \/ exists b' : AudioBuffer.t,
          h' = h ++ [b'] /\ r' = length h /\ r' <> r
          /\ forall (r0 : Ref) (b0 : AudioBuffer.t), h !! r0 = Some b0 -> h' !! r0 = Some b0)
  /\ (forall gain, returns_new_buffer h r (amplifyAudio h r gain))
  /\ (forall semitones, returns_new_buffer h r (pitchShift Math_pow h r semitones))
  /\ (forall speed, returns_new_buffer h r (changeSpeed h r speed))
  /\ (forall startTime endTime, returns_new_buffer h r (trimAudio h r startTime endTime))
  /\ (forall startTime endTime, returns_new_buffer h r (cutAudio h r startTime endTime)).
Proof.
  intros Hr Hwf. pose proof (wf_buffer_inv b Hwf) as Hf.
  split; [ | split; [ | split; [ | split; [ | split]]]].
  - destruct (AudioBuffer.channels b) as [ | channelData others] eqn:Hch.
    { pose proof (wf_channels_length b Hf) as Hl. pose proof (wf_channels_pos b Hf).
      rewrite Hch in Hl. simpl in Hl. lia. }
    intros r' h'. rewrite (normalizeAudio_spec h r b channelData others Hr Hwf Hch).
    destruct (feq _ _); intros H; injection H as <- <-.
    + now left.
    + right. eapply returns_new_buffer_intro; eauto.
  - intros gain r' h'. rewrite (amplifyAudio_spec h r b gain Hr Hwf).
    intros H. injection H as <- <-. eapply returns_new_buffer_intro; eauto.
  - intros semitones. rewrite pitchShift_changeSpeed.
    apply (changeSpeed_returns_new_buffer h r b); assumption.
  - intros speed. apply (changeSpeed_returns_new_buffer h r b); assumption.
  - intros startTime endTime r' h' H.
    destruct (trimAudio_attributes h r b _ _ _ _ Hr Hwf H) as (L & chans & Hr' & Hh').
    eapply returns_new_buffer_intro; eauto.
  - intros startTime endTime r' h' H.
    destruct (cutAudio_attributes h r b _ _ _ _ Hr Hwf H) as (L & chans & Hr' & Hh').
    eapply returns_new_buffer_intro; eauto.
Qed.

Lemma transforms_keep_store_witness :
  amplifyAudio [eight_samples] 0 (of_Z 2)
  = Returns (1%nat,
             [eight_samples; mono_buffer [pzero; one; one; fneg one; fneg one; one; one; one]])
  /\ exists b' : AudioBuffer.t,
       [eight_samples; mono_buffer [pzero; one; one; fneg one; fneg one; one; one; one]]
       = [eight_samples] ++ [b']
       /\ 1%nat = length [eight_samples] /\ 1%nat <> 0%nat
       /\ forall (r0 : Ref) (b0 : AudioBuffer.t),
            [eight_samples] !! r0 = Some b0 ->
            [eight_samples; mono_buffer [pzero; one; one; fneg one; fneg one; one; one; one]]
              !! r0 = Some b0.
Proof.
  assert (Hwf : wf_buffer eight_samples = true) by (vm_compute; reflexivity).
  assert (Hret : amplifyAudio [eight_samples] 0 (of_Z 2)
                 = Returns (1%nat,
                     [eight_samples;
                      mono_buffer [pzero; one; one; fneg one; fneg one; one; one; one]]))
    by (vm_compute; reflexivity).
  split; [exact Hret | ].
  exact (proj1 (proj2 (transforms_keep_store Math_pow_at_zero [eight_samples] 0%nat
                         eight_samples eq_refl Hwf))
           (of_Z 2) 1%nat _ Hret).
Defined.

(** ** NaN samples under normalizeAudio *)

Lemma Math_max_nan_r (x : number) : Math_max x NaN = NaN.
Proof. now destruct x. Qed.

Lemma find_peak_acc_nan (channelData : list number) :
  fold_left (fun max sample => Math_max max (Math_abs sample)) channelData NaN = NaN.
Proof. induction channelData as [ | s l IH]; [reflexivity | exact IH]. Qed.

(** One NaN sample makes the peak NaN. *)
Lemma find_peak_nan (channelData : list number) :
  Exists (fun s => is_nan s = true) channelData -> find_peak channelData = NaN.
Proof.
  unfold find_peak. generalize pzero as acc.
  induction channelData as [ | s l IH]; intros acc Hex; [inversion Hex | ].
  apply Exists_cons in Hex as [Hs | Hl]; cbn [fold_left].
  - destruct s; try discriminate. cbn [Math_abs SFabs]. rewrite Math_max_nan_r.
    apply find_peak_acc_nan.
  - now apply IH.
Qed.

(** X7. A NaN sample in channel 0 spoils the whole channel: the peak is
    NaN, which is not [=== 0], the gain [0.95 / NaN] is NaN, and
    [normalizeAudio] returns a new buffer whose channel 0 holds NaN at every
    sample while the other channels are copied. *)
Theorem normalizeAudio_nan (h : Heap) (r : Ref) (b : AudioBuffer.t)
  (channelData : list number) (others : list (list number)) :
  h !! r = Some b -> wf_buffer b = true ->
  AudioBuffer.channels b = channelData :: others ->
  Exists (fun s => is_nan s = true) channelData ->
  normalizeAudio h r
  = Returns (length h,
             h ++ [AudioBuffer.mk (AudioBuffer.sampleRate b) (AudioBuffer.length b)
                     (AudioBuffer.numberOfChannels b)
                     (replicate (AudioBuffer.length b) NaN :: others)]).
Proof.
  intros Hr Hwf Hch Hnan.
  rewrite (normalizeAudio_spec h r b channelData others Hr Hwf Hch).
  unfold normalized. rewrite (find_peak_nan channelData Hnan).
  change (feq NaN pzero) with false. cbv iota.
  assert (Hmap : map (fun sample => fround (fmul sample (fdiv lit_0_95 NaN))) channelData
                 = replicate (AudioBuffer.length b) NaN).
  { destruct (wf_channel_data b (wf_buffer_inv b Hwf) 0%nat channelData) as [<- _];
      [now rewrite Hch | ].
    clear. induction channelData as [ | s l IH]; [reflexivity | ].
    cbn [map length replicate]. f_equal; [now destruct s | exact IH]. }
  now rewrite Hmap.
Qed.

Lemma normalizeAudio_nan_witness :
  normalizeAudio [mono_buffer [half; NaN; one]] 0
  = Returns (1%nat, [mono_buffer [half; NaN; one]; mono_buffer [NaN; NaN; NaN]]).
Proof.
  assert (Hwf : wf_buffer (mono_buffer [half; NaN; one]) = true) by (vm_compute; reflexivity).
  apply (normalizeAudio_nan [mono_buffer [half; NaN; one]] 0%nat
           (mono_buffer [half; NaN; one]) [half; NaN; one] [] eq_refl Hwf eq_refl).
  constructor 2. constructor 1. reflexivity.
Defined.

(** ** Gain 1 *)

Lemma fle_antisym_finite (x : number) (s : bool) (m : positive) (e : Z) :
  fle x (S754_finite s m e) = true -> fle (S754_finite s m e) x = true ->
  x = S754_finite s m e.
Proof.
  rewrite !fle_key. intros (_ & _ & H1) (_ & _ & H2).
  assert (Hk : order_key x = order_key (S754_finite s m e)).
  { destruct H1 as [H1 | H1]; [ | exact H1]. destruct H2 as [H2 | H2]; [ | now symmetry].
    exfalso. unfold lex_lt in *.
    destruct (order_key x) as [[a1 a2] a3], (order_key (S754_finite s m e)) as [[b1 b2] b3].
    lia. }
  destruct x as [sx | [] | | [] mx ex], s; simpl in Hk; inversion Hk; subst; try reflexivity;
    try lia.
  - f_equal; lia.
Qed.

(** A number between -1 and 1 is left as it is by the clamp. *)
Lemma clamp_in_range (x : number) :
  fle (of_Z (-1)) x = true -> fle x one = true -> clamp x = x.
Proof.
  intros Hlo Hhi.
  assert (Hx : is_nan x = false) by (destruct x; auto; discriminate).
  unfold clamp.
  destruct (Math_min_spec one x eq_refl Hx) as (Hmin & Hmin1 & Hminx).
  assert (Hm : Math_min one x = x).
  { destruct Hmin as [Heq | Heq]; [ | exact Heq]. rewrite Heq in *.
    rewrite one_eq in *. symmetry. now apply fle_antisym_finite. }
  rewrite Hm.
  destruct (Math_max_spec (of_Z (-1)) x eq_refl Hx) as (Hmax & Hmax1 & Hmaxx).
  destruct Hmax as [Heq | Heq]; [ | exact Heq]. rewrite Heq in *.
  change (of_Z (-1)) with (S754_finite true 4503599627370496 (-52)) in *.
  symmetry. now apply fle_antisym_finite.
Qed.

(** X8. With gain 1, [amplifyAudio] copies a buffer whose samples lie in
    [-1, 1]: the new buffer equals the input, sample for sample. *)
Theorem amplifyAudio_unit_gain (h : Heap) (r : Ref) (b : AudioBuffer.t) :
  h !! r = Some b -> wf_buffer b = true ->
  (forall (c i : nat) (s : number),
     sample b c i = Some s -> fle (of_Z (-1)) s = true /\ fle s one = true) ->
  amplifyAudio h r one = Returns (length h, h ++ [b]).
Proof.
  intros Hr Hwf Hrange. rewrite (amplifyAudio_spec h r b one Hr Hwf). do 4 f_equal.
  assert (Hch : map (map (amplified one)) (AudioBuffer.channels b) = AudioBuffer.channels b).
  { apply list_eq. intros c. change (map ?f ?l) with (f <$> l). rewrite list_lookup_fmap.
    destruct (AudioBuffer.channels b !! c) as [data | ] eqn:Hc; [ | reflexivity].
    cbn [fmap option_fmap option_map]. f_equal.
    apply list_eq. intros i. change (map ?f ?l) with (f <$> l). rewrite list_lookup_fmap.
    destruct (data !! i) as [s | ] eqn:Hi; [ | reflexivity].
    cbn [fmap option_fmap option_map]. f_equal.
    assert (Hs : sample b c i = Some s) by (unfold sample; now rewrite Hc).
    destruct (Hrange c i s Hs) as [Hlo Hhi]. destruct (sample_wf b c i s Hwf Hs) as [Hv Hf].
    unfold amplified. now rewrite fmul_one, clamp_in_range. }
  rewrite Hch. now destruct b.
Qed.

Lemma amplifyAudio_unit_gain_witness :
  amplifyAudio [mono_buffer [half; fneg one; pzero; one]] 0 one
  = Returns (1%nat, [mono_buffer [half; fneg one; pzero; one]]
                    ++ [mono_buffer [half; fneg one; pzero; one]]).
Proof.
  assert (Hwf : wf_buffer (mono_buffer [half; fneg one; pzero; one]) = true)
    by (vm_compute; reflexivity).
  apply (amplifyAudio_unit_gain [mono_buffer [half; fneg one; pzero; one]] 0%nat
           (mono_buffer [half; fneg one; pzero; one]) eq_refl Hwf).
  intros c i s Hs. destruct c as [ | c]; [ | destruct c; discriminate].
  destruct i as [ | [ | [ | [ | i]]]]; try (destruct i; discriminate);
    injection Hs as <-; split; vm_compute; reflexivity.
Defined.

(** ** Completion of convertToPCM *)

(** When the array cannot be allocated, [convertToPCM] throws the error of
    [new Uint8Array]. *)
Lemma convertToPCM_Throws (audioBuffer : AudioBuffer.t) (options : PCMOptions)
  (sourceData : list number) (e : exn) :
  AudioBuffer.channels audioBuffer !! 0%nat = Some sourceData ->
  TypedArray.new_Uint8Array (targetLength audioBuffer options sourceData) = Throws e ->
  convertToPCM audioBuffer options = Throws e.
Proof.
  intros Hsrc Hnew. unfold convertToPCM. rewrite Hsrc. cbn [bind].
  fold (targetLength audioBuffer options sourceData). now rewrite Hnew.
Qed.

Lemma wf_channel_0 (b : AudioBuffer.t) :
  wf_buffer b = true ->
  exists sourceData, AudioBuffer.channels b !! 0%nat = Some sourceData
                     /\ length sourceData = AudioBuffer.length b.
Proof.
  intros Hwf. pose proof (wf_buffer_inv b Hwf) as Hf.
  destruct (lookup_lt_is_Some_2 (AudioBuffer.channels b) 0%nat) as [data Hd].
  { rewrite (wf_channels_length b Hf). pose proof (wf_channels_pos b Hf). lia. }
  exists data. split; [exact Hd | ]. now destruct (wf_channel_data b Hf 0%nat data Hd).
Qed.

(** X9. The only failure of [convertToPCM] is the one of
    [new Uint8Array(targetLength)], with
    [targetLength = floor(length * rate / sourceRate)]: whatever that
    constructor throws, [convertToPCM] throws, and it can only be a
    RangeError, which is certain when the target length is negative,
    infinite or above 2^53 - 1.  Whenever the constructor grants the array,
    [convertToPCM] returns it filled, with exactly [targetLength] bytes: its
    loop always ends. *)
Theorem convertToPCM_completion (b : AudioBuffer.t) (options : PCMOptions) :
  wf_buffer b = true ->
  let targetLength :=
    Math_floor (fdiv (fmul (of_nat (AudioBuffer.length b)) (pcm_sampleRate options))
                     (AudioBuffer.sampleRate b)) in
  let request := TypedArray.new_Uint8Array targetLength in
  (forall e : exn, request = Throws e -> convertToPCM b options = Throws e)
  /\ (forall e : exn, convertToPCM b options = Throws e -> e = RangeError)
  /\ (match ToIntegerOrInfinity targetLength with
      | Int z => z < 0 \/ 2 ^ 53 - 1 < z
      | _ => True
      end -> convertToPCM b options = Throws RangeError)
  /\ (forall pcmData : list Z, request = Returns pcmData ->
      exists bytes : list Z,
        convertToPCM b options = Returns bytes
        /\ length bytes = length pcmData
        /\ ToIntegerOrInfinity targetLength = Int (Z.of_nat (length bytes)))
  /\ convertToPCM b options <> Diverges.
Proof.
  intros Hwf. destruct (wf_channel_0 b Hwf) as (sourceData & Hsrc & Hlen).
  cbv zeta. rewrite <- Hlen. fold (targetLength b options sourceData).
  pose proof (convertToPCM_spec b options sourceData) as Hret.
  pose proof (convertToPCM_Throws b options sourceData) as Hthrow.
  specialize (Hthrow RangeError Hsrc).
  unfold TypedArray.new_Uint8Array in *.
  destruct (ToIntegerOrInfinity (targetLength b options sourceData)) as [z | | ];
    try (rewrite Hthrow by reflexivity; repeat split; try congruence; discriminate).
  destruct (Z.leb_spec 0 z) as [Hz0 | Hz0], (Z.leb_spec z (2 ^ 53 - 1)) as [Hz1 | Hz1];
    simpl andb in *;
    try (rewrite Hthrow by reflexivity; repeat split; try congruence; discriminate).
  rewrite (Hret _ Hsrc eq_refl).
  split; [discriminate | ]. split; [discriminate | ]. split; [lia | ].
  split; [ | discriminate].
  intros pcmData H. injection H as <-. eexists. split; [reflexivity | ].
  rewrite length_map, length_seq, length_replicate. split; [reflexivity | ].
  f_equal. lia.
Qed.

Lemma convertToPCM_completion_witness :
  exists bytes : list Z,
    convertToPCM eight_samples {| pcm_sampleRate := of_Z 22050 |} = Returns bytes
    /\ length bytes = 4%nat.
Proof.
  assert (Hwf : wf_buffer eight_samples = true) by (vm_compute; reflexivity).
  destruct (proj1 (proj2 (proj2 (proj2
              (convertToPCM_completion eight_samples {| pcm_sampleRate := of_Z 22050 |}
                 Hwf))))
              (replicate 4 0) ltac:(vm_compute; reflexivity))
    as (bytes & Hret & Hlen & _).
  exists bytes. split; [exact Hret | exact Hlen].
Defined.

(** X10. Degenerate target rates: a target rate of NaN, +0 or -0 makes the
    target length 0 and [convertToPCM] returns an empty array; an infinite
    target rate makes it infinite and [convertToPCM] throws RangeError. *)
Theorem convertToPCM_degenerate_rate (b : AudioBuffer.t) (rate : number) :
  wf_buffer b = true ->
  (is_nan rate = true \/ (exists s, rate = S754_zero s) ->
     convertToPCM b {| pcm_sampleRate := rate |} = Returns [])
  /\ ((exists s, rate = S754_infinity s) ->
        convertToPCM b {| pcm_sampleRate := rate |} = Throws RangeError).
Proof.
  intros Hwf. destruct (wf_channel_0 b Hwf) as (sourceData & Hsrc & Hlen).
  pose proof (wf_buffer_inv b Hwf) as Hf.
  pose proof (wf_length_pos b Hf) as Hpos. pose proof (wf_length_u32 b Hf) as Hu32.
  destruct (positive_rate b Hwf) as (mr & er & Hrate).
  destruct (of_Z_canonical (Z.of_nat (AudioBuffer.length b))) as (ml & el & Hl & _); [lia | ].
  split.
  - intros Hdeg.
    rewrite (convertToPCM_spec b _ sourceData []); [reflexivity | exact Hsrc | ].
    unfold targetLength, of_nat. cbn [pcm_sampleRate]. rewrite Hlen, Hl, Hrate.
    destruct Hdeg as [Hnan | [s ->]]; [destruct rate; try discriminate | ]; reflexivity.
  - intros [s ->]. apply (convertToPCM_Throws b _ sourceData); [exact Hsrc | ].
    unfold targetLength, of_nat. cbn [pcm_sampleRate]. rewrite Hlen, Hl, Hrate.
    now destruct s.
Qed.

Lemma convertToPCM_degenerate_rate_witness :
  convertToPCM eight_samples {| pcm_sampleRate := pzero |} = Returns []
  /\ convertToPCM eight_samples {| pcm_sampleRate := Infinity |} = Throws RangeError.
Proof.
  assert (Hwf : wf_buffer eight_samples = true) by (vm_compute; reflexivity).
  destruct (convertToPCM_degenerate_rate eight_samples pzero Hwf) as [H0 _].
  destruct (convertToPCM_degenerate_rate eight_samples Infinity Hwf) as [_ Hinf].
  split; [apply H0; right; exists false; reflexivity | apply Hinf; exists false; reflexivity].
Defined.

Lemma le_value_u32le (n : Z) : 0 <= n < 2 ^ 32 -> le_value (u32le n) = n.
Proof.
  intros Hn. unfold le_value, u32le. cbn [fold_right].
  change (2 ^ 32) with 4294967296 in Hn. change (2 ^ 8) with 256.
  change (2 ^ 16) with 65536. change (2 ^ 24) with 16777216.
  Z.div_mod_to_equations. lia.
Qed.

Lemma wav_header_fields (a r d : Z) (pcmData : list Z) :
  let bytes := wav_header (u32le a) (u32le r) (u32le d) ++ pcmData in
  length bytes = (44 + length pcmData)%nat
  /\ field 4 4 bytes = u32le a
  /\ field 22 2 bytes = [1; 0]
  /\ field 24 4 bytes = u32le r
  /\ field 28 4 bytes = u32le r
  /\ field 32 2 bytes = [1; 0]
  /\ field 34 2 bytes = [8; 0]
  /\ field 40 4 bytes = u32le d
  /\ drop 44 bytes = pcmData.
Proof.
  cbv zeta. split; [rewrite length_app; reflexivity | ].
  unfold field, wav_header, u32le. repeat split; reflexivity.
Qed.

(** X11. The WAV file of [exportAsWAV] is consistent when read back, for a
    data length with 36 + dataLength below 2^32 and an integral sample rate
    below 2^32: the RIFF size field is the file length minus 8, the data size
    field is the number of bytes after the header, the sample rate field is
    the sample rate, the byte rate equals the sample rate times the block
    align, and the bytes after the header are the bytes of [exportAsRAW]. *)
Theorem exportAsWAV_read_back (pcmData : list Z) (rate : Z) :
  36 + Z.of_nat (length pcmData) < 2 ^ 32 -> 0 <= rate < 2 ^ 32 ->
  exists bytes : list Z,
    exportAsWAV pcmData (of_Z rate)
    = Returns {| blob_bytes := bytes; blob_type := "audio/wav" |}
    /\ le_value (field 4 4 bytes) = Z.of_nat (length bytes) - 8
    /\ le_value (field 40 4 bytes) = Z.of_nat (length (drop 44 bytes))
    /\ le_value (field 24 4 bytes) = rate
    /\ le_value (field 28 4 bytes)
       = le_value (field 24 4 bytes) * le_value (field 32 2 bytes)
    /\ le_value (field 22 2 bytes) = 1
    /\ le_value (field 34 2 bytes) = 8
    /\ drop 44 bytes = blob_bytes (exportAsRAW pcmData).
Proof.
  intros Hlen Hrate.
  rewrite exportAsWAV_spec. unfold of_nat. rewrite fadd_of_Z by lia.
  rewrite !ToUint32_of_Z by lia. eexists. split; [reflexivity | ].
  destruct (wav_header_fields (36 + Z.of_nat (length pcmData)) rate
              (Z.of_nat (length pcmData)) pcmData)
    as (Hl & H4 & H22 & H24 & H28 & H32 & H34 & H40 & Hdata).
  cbv zeta in *. rewrite H4, H22, H24, H28, H32, H34, H40, Hdata, Hl.
  rewrite !le_value_u32le by lia.
  repeat split; try reflexivity; try lia.
  unfold le_value. simpl. lia.
Qed.

Lemma exportAsWAV_read_back_witness :
  exists bytes : list Z,
    exportAsWAV [0; 128; 255] (of_Z 16000)
    = Returns {| blob_bytes := bytes; blob_type := "audio/wav" |}
    /\ le_value (field 4 4 bytes) = Z.of_nat (length bytes) - 8
    /\ le_value (field 24 4 bytes) = 16000.
Proof.
  destruct (exportAsWAV_read_back [0; 128; 255] 16000 ltac:(simpl; lia) ltac:(lia))
    as (bytes & Hret & Hriff & _ & Hrate & _).
  exists bytes. split; [exact Hret | ]. split; [exact Hriff | exact Hrate].
Defined.

Lemma value_rows_length (pad : string -> string) (pcmData : list Z) :
  length (value_rows pad pcmData) = row_count pcmData.
Proof. unfold value_rows. now rewrite length_map, length_seq. Qed.

Local Open Scope string_scope.
Local Open Scope list_scope.

(** X12. The header of [exportAsCHeader] matches the source of
    [exportAsCArray] for the same bytes and options: the same three comment
    lines, and [extern] declarations of the two identifiers,
    [<arrayName>] and [<arrayName>_length], that the source defines; the
    include guard opened by [#ifndef] and [#define] is the one closed by
    [#endif].  The source has one line of values for every 16 bytes. *)
Theorem exportAsCHeader_matches_source (Number_toString : number -> string)
  (toUpperCase : string -> string) (pcmData : list Z) (options : ExportOptions) :
  let name := default "audioData" (arrayName options) in
  let guard := "AUDIO_DATA_" +:+ toUpperCase name +:+ "_H" in
  exists (comment1 comment2 comment3 : string) (rows : list string),
    exportAsCArray Number_toString pcmData options
    = join (String "010" "")
        ([comment1; comment2; comment3; "const uint8_t " +:+ name +:+ "[] = {"]
         ++ rows
         ++ ["};";
             "const size_t " +:+ name +:+ "_length = "
               +:+ nat_toString (length pcmData) +:+ ";"])
    /\ exportAsCHeader Number_toString toUpperCase pcmData options
       = join (String "010" "")
           ["#ifndef " +:+ guard; "#define " +:+ guard; "";
            comment1; comment2; comment3;
            "extern const uint8_t " +:+ name +:+ "[];";
            "extern const size_t " +:+ name +:+ "_length;";
            ""; "#endif // " +:+ guard]
    /\ length rows = Nat.div (length pcmData + 15) 16.
Proof.
  cbv zeta. do 4 eexists. split; [ | split].
  - rewrite exportAsCArray_text. unfold c_array_text. reflexivity.
  - reflexivity.
  - apply value_rows_length.
Qed.

Local Open Scope Z_scope.

Lemma shr_1_located (mrs : shr_record) (N D : Z) :
  0 <= shr_m mrs -> 0 < D -> located mrs N D -> located (shr_1 mrs) N (2 * D).
Proof.
  destruct mrs as [m r s]. unfold located. cbn [shr_m shr_r shr_s].
  intros Hm HD H.
  destruct m as [ | [q | q | ] | q]; try lia; destruct r, s;
    cbn [shr_1 shr_m shr_r shr_s orb];
    try change (Z.pos q~1) with (2 * Z.pos q + 1) in *;
    try change (Z.pos q~0) with (2 * Z.pos q) in *; lia.
Qed.

Lemma iter_shr_located (n : positive) (mrs : shr_record) (N D : Z) :
  0 <= shr_m mrs -> 0 < D -> located mrs N D ->
  located (SpecFloat.iter_pos shr_1 n mrs) N (D * 2 ^ Zpos n).
Proof.
  intros Hm HD H. induction n as [ | n IH] using Pos.peano_ind.
  - cbn [SpecFloat.iter_pos]. replace (D * 2 ^ 1) with (2 * D) by lia.
    now apply shr_1_located.
  - rewrite iter_pos_succ, Pos2Z.inj_succ, Z.pow_succ_r by lia.
    replace (D * (2 * 2 ^ Zpos n)) with (2 * (D * 2 ^ Zpos n)) by lia.
    apply shr_1_located; [ | | exact IH].
    + rewrite iter_shr_m by exact Hm. apply Z.div_pos; [lia | apply Z.pow_pos_nonneg; lia].
    + apply Z.mul_pos_pos; [lia | apply Z.pow_pos_nonneg; lia].
Qed.

(** Rounding a located fraction gives a nearest integer. *)
Lemma round_located (mrs : shr_record) (N D : Z) :
  0 < D -> located mrs N D ->
  let k := round_nearest_even (shr_m mrs) (loc_of_shr_record mrs) in
  2 * (k * D - N) <= D /\ 2 * (N - k * D) <= D
  /\ (N = shr_m mrs * D -> k = shr_m mrs).
Proof.
  destruct mrs as [m r s]. unfold located. cbn [shr_m shr_r shr_s loc_of_shr_record].
  intros HD H. destruct r, s; cbn [round_nearest_even]; try (destruct (Z.even m)); lia.
Qed.

Lemma located_of_loc_Exact (m : Z) : located (shr_record_of_loc m loc_Exact) m 1.
Proof. unfold located. simpl. lia. Qed.

(** The location computed by the division: quotient [q] and remainder [r]
    of [N] by [D]. *)
Lemma located_new_location (N D q r : Z) :
  0 < D -> N = D * q + r -> 0 <= r < D ->
  located (shr_record_of_loc q (new_location D r)) N D.
Proof.
  intros HD HN Hr. unfold new_location, new_location_even, new_location_odd.
  destruct (Z.even D) eqn:Heven.
  - destruct (Z.eqb_spec r 0) as [-> | Hr0]; [unfold located; simpl; lia | ].
    destruct (Z.compare_spec (2 * r) D); unfold located; simpl; nia.
  - destruct (Z.eqb_spec r 0) as [-> | Hr0]; [unfold located; simpl; lia | ].
    assert (Hodd : Z.odd D = true) by (rewrite <- Z.negb_even, Heven; reflexivity).
    apply Z.odd_spec in Hodd as [c Hc].
    destruct (Z.compare_spec (2 * r + 1) D); unfold located; simpl; nia.
Qed.

Section Nearest.
Variables (p emx : Z).
Hypothesis Hp : 0 < p.

Local Abbreviation fexp' := (fexp p emx).
Local Abbreviation emin' := (emin p emx).

Lemma shr_fexp_located (m e : Z) (l : location) (N D : Z) :
  0 < m -> e <= fexp' (Zdigits2 m + e) -> 0 < D ->
  located (shr_record_of_loc m l) N D ->
  located (fst (shr_fexp p emx m e l)) N (D * 2 ^ (fexp' (Zdigits2 m + e) - e)).
Proof.
  intros Hm He HD Hloc. unfold shr_fexp, shr.
  assert (Hrec : shr_m (shr_record_of_loc m l) = m) by (destruct l as [ | []]; reflexivity).
  destruct (fexp' (Zdigits2 m + e) - e) as [ | k | k] eqn:Hk; try lia.
  - cbn [fst]. now rewrite Z.pow_0_r, Z.mul_1_r.
  - cbn [fst]. apply iter_shr_located; auto. rewrite Hrec. lia.
Qed.

(** Rounding the fraction [N / D] (in units of [2^e]) located by the
    mantissa [m] and the location [l]: the result is [k * 2^f] for an integer
    [k] nearest to the fraction in units of [2^f], where [f] is the exponent
    the format gives to the magnitude of [m * 2^e]. *)
Lemma binary_round_aux_nearest (s : bool) (m e : Z) (l : location) (N D : Z) :
  0 < m -> e <= fexp' (Zdigits2 m + e) -> 0 < D ->
  located (shr_record_of_loc m l) N D ->
  let f := fexp' (Zdigits2 m + e) in
  let n := f - e in
  exists k : Z,
    0 <= k
    /\ 2 * (k * (D * 2 ^ n) - N) <= D * 2 ^ n
    /\ 2 * (N - k * (D * 2 ^ n)) <= D * 2 ^ n
    /\ (N = m / 2 ^ n * (D * 2 ^ n) -> k = m / 2 ^ n)
    /\ ((k = 0 /\ binary_round_aux p emx s m e l = S754_zero s)
        \/ (0 < k /\ binary_round_aux p emx s m e l = S754_infinity s
            /\ emx - p < fexp' (Zdigits2 k + f))
        \/ (exists m' e',
              binary_round_aux p emx s m e l = S754_finite s m' e'
              /\ bounded p emx m' e' = true /\ f <= e' /\ k = Zpos m' * 2 ^ (e' - f))).
Proof.
  intros Hm He HD Hloc. cbv zeta.
  destruct (shr_fexp_m p emx m e l Hm He) as [Hs1 Hm1].
  pose proof (shr_fexp_located m e l N D Hm He HD Hloc) as Hloc1.
  destruct (Zdigits2_bounds m Hm) as [[Hlo Hhi] Hdpos].
  set (d := Zdigits2 m) in *. set (E := d + e) in *. set (f := fexp' E) in *.
  set (n := f - e) in *. assert (Hn : 0 <= n) by lia.
  unfold binary_round_aux. rewrite Hs1.
  set (mrs1 := fst (shr_fexp p emx m e l)) in *.
  set (m1 := shr_m mrs1) in *.
  assert (H2n : 0 < 2 ^ n) by (apply Z.pow_pos_nonneg; lia).
  assert (HDn : 0 < D * 2 ^ n) by (apply Z.mul_pos_pos; lia).
  assert (Hm1nn : 0 <= m1) by (rewrite Hm1; apply Z.div_pos; lia).
  assert (Hfmin : emin' <= f) by (unfold f, fexp; lia).
  pose proof (round_nearest_even_cases m1 (loc_of_shr_record mrs1)) as Hr.
  destruct (round_located mrs1 N (D * 2 ^ n) HDn Hloc1) as (Hup & Hdown & Hexact).
  fold m1 in Hup, Hdown, Hexact.
  set (m1' := round_nearest_even m1 (loc_of_shr_record mrs1)) in *.
  exists m1'. split; [lia | ]. split; [exact Hup | ]. split; [exact Hdown | ].
  split; [rewrite <- Hm1; exact Hexact | ].
  destruct (Z.eq_dec m1' 0) as [Hz | Hnz].
  { left. split; [exact Hz | ]. rewrite Hz. unfold shr_fexp. simpl Zdigits2.
    simpl shr_record_of_loc.
    replace (fexp' (0 + f) - f)
      with (Z.min 0 (emin' - f + 0) + Z.max (- p) (emin' - f) - Z.min 0 (emin' - f))
      by (unfold fexp; lia).
    unfold shr.
    destruct (Z.min 0 (emin' - f + 0) + Z.max (- p) (emin' - f) - Z.min 0 (emin' - f))
      as [ | k | k] eqn:Hk; try reflexivity. lia. }
  assert (Hm1'pos : 0 < m1') by lia.
  assert (Hcase : (n < d /\ 2 ^ (d - n - 1) <= m1 < 2 ^ (d - n)) \/ (d <= n /\ m1 = 0)).
  { destruct (Z.lt_ge_cases n d) as [Hnd | Hnd]; [left | right]; (split; [exact Hnd | ]).
    - rewrite Hm1. split.
      + apply Z.div_le_lower_bound; [lia | ].
        rewrite <- Z.pow_add_r by lia. replace (n + (d - n - 1)) with (d - 1) by lia.
        exact Hlo.
      + apply Z.div_lt_upper_bound; [lia | ].
        rewrite <- Z.pow_add_r by lia. replace (n + (d - n)) with d by lia. exact Hhi.
    - rewrite Hm1. apply Z.div_small. split; [lia | ].
      eapply Z.lt_le_trans; [exact Hhi | apply Z.pow_le_mono_r; lia]. }
  destruct (Zdigits2_bounds m1' Hm1'pos) as [[Hlo' Hhi'] Hd'pos].
  set (d' := Zdigits2 m1') in *.
  assert (HE' : (d' + f = E /\ n < d)
                \/ (m1' = 2 ^ (d' - 1) /\ d' + f <= Z.max E emin' + 1 /\ E <= d' + f)).
  { destruct Hcase as [(Hnd & Hl & Hu) | (Hnd & Hm10)].
    - destruct (Z.eq_dec m1' (2 ^ (d - n))) as [Hpow | Hnpow].
      + right. assert (Hd' : d' = d - n + 1).
        { apply Zdigits2_unique; auto. replace (d - n + 1 - 1) with (d - n) by lia.
          rewrite Hpow. split; [lia | ]. apply Z.pow_lt_mono_r; lia. }
        rewrite Hd'. replace (d - n + 1 - 1) with (d - n) by lia.
        split; [exact Hpow | ]. unfold n, E. lia.
      + left. split; [ | exact Hnd]. assert (Hd' : d' = d - n).
        { apply Zdigits2_unique; auto. lia. }
        rewrite Hd'. unfold n, E. lia.
    - right. assert (H1 : m1' = 1) by lia.
      assert (Hd' : d' = 1) by (unfold d'; rewrite H1; reflexivity).
      rewrite Hd'. simpl. split; [exact H1 | ].
      assert (f = emin') by (unfold n, f, fexp, E in *; lia).
      unfold E. lia. }
  assert (Hn2 : 0 <= fexp' (d' + f) - f).
  { unfold f at 2. destruct HE' as [[-> _] | (_ & _ & Hge)]; [fold f; lia | ].
    pose proof (fexp_mono_gen p emx E (d' + f) Hge). lia. }
  destruct (shr_fexp_m p emx m1' f loc_Exact Hm1'pos ltac:(fold d'; lia)) as [Hs2 Hm2].
  fold d' in Hs2, Hm2. rewrite Hs2.
  set (mrs2 := fst (shr_fexp p emx m1' f loc_Exact)) in *.
  set (n2 := fexp' (d' + f) - f) in *.
  assert (H2n2 : 0 < 2 ^ n2) by (apply Z.pow_pos_nonneg; lia).
  assert (Hcanon : shr_m mrs2 > 0 /\ Zdigits2 (shr_m mrs2) + fexp' (d' + f) = d' + f
                   /\ m1' = shr_m mrs2 * 2 ^ n2).
  { rewrite Hm2. destruct (Z.eq_dec n2 0) as [Hn20 | Hn2pos].
    - rewrite Hn20. simpl (2 ^ 0). rewrite Z.div_1_r, Z.mul_1_r. fold d'.
      split; [lia | ]. split; [lia | reflexivity].
    - assert (Hpow : m1' = 2 ^ (d' - 1)).
      { destruct HE' as [[HEq _] | (Hpw & _)]; [ | exact Hpw].
        exfalso. apply Hn2pos. unfold n2. rewrite HEq. fold f. lia. }
      assert (Hn2' : n2 < d').
      { unfold n2, fexp. lia. }
      assert (Hq : m1' / 2 ^ n2 = 2 ^ (d' - 1 - n2)).
      { rewrite Hpow. replace (d' - 1) with ((d' - 1 - n2) + n2) at 1 by lia.
        rewrite Z.pow_add_r by lia. apply Z.div_mul. lia. }
      rewrite Hq.
      assert (0 < 2 ^ (d' - 1 - n2)) by (apply Z.pow_pos_nonneg; lia).
      assert (Hdq : Zdigits2 (2 ^ (d' - 1 - n2)) = d' - n2).
      { apply Zdigits2_unique; [ | lia].
        replace (d' - n2 - 1) with (d' - 1 - n2) by lia. split; [lia | ].
        apply Z.pow_lt_mono_r; lia. }
      rewrite Hdq. split; [lia | ]. split; [unfold n2; lia | ].
      rewrite <- Z.pow_add_r by lia. rewrite Hpow. f_equal. lia. }
  destruct Hcanon as (Hpos2 & Hcan & Hval).
  destruct (shr_m mrs2) as [ | m' | m'] eqn:Hm'; try lia.
  destruct (Z.leb_spec (fexp' (d' + f)) (emx - p)) as [Hle | Hgt].
  2:{ right; left. split; [exact Hm1'pos | ]. split; [reflexivity | lia]. }
  right; right. exists m', (fexp' (d' + f)). split; [reflexivity | ].
  simpl Zdigits2 in Hcan.
  split; [ | split; [lia | exact Hval]].
  unfold bounded, canonical_mantissa. apply andb_true_iff. split.
  - apply Z.eqb_eq. rewrite Hcan. reflexivity.
  - now apply Z.leb_le.
Qed.

End Nearest.

(** ** Division of numbers *)

(** The quotient of two positive numbers with full mantissas [ma], [mb] is
    [k * 2^f], where [k] is an integer nearest to
    [ma * 2^53 / (mb * 2^n)] and [f = ea - eb - 53 + n]; [n] is 0 or 1. *)
Lemma fdiv_nearest (ma mb : positive) (ea eb : Z) :
  2 ^ 52 <= Zpos ma < 2 ^ 53 -> 2 ^ 52 <= Zpos mb < 2 ^ 53 ->
  - 900 <= ea - eb <= 900 ->
  exists (k n : Z) (m' : positive) (e' : Z),
    0 <= n <= 1
    /\ 2 ^ 52 <= k
    /\ 2 * (k * (Zpos mb * 2 ^ n) - Zpos ma * 2 ^ 53) <= Zpos mb * 2 ^ n
    /\ 2 * (Zpos ma * 2 ^ 53 - k * (Zpos mb * 2 ^ n)) <= Zpos mb * 2 ^ n
    /\ (forall c, Zpos ma * 2 ^ 53 = c * (Zpos mb * 2 ^ n) -> k = c)
    /\ fdiv (S754_finite false ma ea) (S754_finite false mb eb) = S754_finite false m' e'
    /\ bounded prec emax m' e' = true
    /\ ea - eb - 53 + n <= e'
    /\ k = Zpos m' * 2 ^ (e' - (ea - eb - 53 + n)).
Proof.
  intros Hma Hmb He.
  unfold fdiv, SFdiv, SFdiv_core_binary.
  change (Zdigits2 (Z.pos ma)) with (Z.pos (digits2_pos ma)).
  change (Zdigits2 (Z.pos mb)) with (Z.pos (digits2_pos mb)).
  rewrite (digits2_unique ma 53), (digits2_unique mb 53) by (simpl; lia).
  assert (He' : Z.min (fexp prec emax (53 + ea - (53 + eb))) (ea - eb) = ea - eb - 53)
    by (unfold fexp, emin, prec, emax; lia).
  rewrite He'. replace (ea - eb - (ea - eb - 53)) with 53 by lia.
  cbv iota. rewrite Z.shiftl_mul_pow2 by lia.
  set (N := Z.pos ma * 2 ^ 53).
  pose proof (Z_div_mod N (Z.pos mb) ltac:(lia)) as Hdm.
  destruct (Z.div_eucl N (Z.pos mb)) as [q r]. destruct Hdm as [HN Hr].
  assert (H53 : 2 ^ 53 = 9007199254740992) by reflexivity.
  assert (H52 : 2 ^ 52 = 4503599627370496) by reflexivity.
  assert (Hq : 2 ^ 52 <= q < 2 ^ 54).
  { change (2 ^ 54) with 18014398509481984. unfold N in HN. rewrite H53, H52 in *. nia. }
  assert (Hd : Zdigits2 q = 53 \/ Zdigits2 q = 54).
  { destruct (Z.lt_ge_cases q (2 ^ 53)); [left | right]; apply Zdigits2_unique;
      simpl (_ - 1); lia. }
  assert (Hf : fexp prec emax (Zdigits2 q + (ea - eb - 53)) = Zdigits2 q + (ea - eb - 53) - 53)
    by (unfold fexp, emin, prec, emax; lia).
  destruct (binary_round_aux_nearest prec emax ltac:(reflexivity) false q (ea - eb - 53)
              (new_location (Z.pos mb) r) N (Z.pos mb))
    as (k & Hk0 & Hup & Hdown & Hexact & Hres).
  { lia. }
  { rewrite Hf. lia. }
  { lia. }
  { apply located_new_location; [lia | exact HN | exact Hr]. }
  cbv zeta in *. rewrite Hf in *.
  set (n := Zdigits2 q + (ea - eb - 53) - 53 - (ea - eb - 53)) in *.
  assert (Hn : n = Zdigits2 q - 53) by (unfold n; lia).
  assert (Hn01 : 0 <= n <= 1) by lia.
  assert (Hpow : 2 ^ n = 1 \/ 2 ^ n = 2)
    by (destruct Hd as [Hd | Hd]; rewrite Hn, Hd; [left | right]; reflexivity).
  assert (Hm1 : 2 ^ 52 <= q / 2 ^ n).
  { destruct Hd as [Hd | Hd]; rewrite Hn, Hd.
    - change (2 ^ (53 - 53)) with 1. rewrite Z.div_1_r. lia.
    - change (2 ^ (54 - 53)) with 2.
      pose proof (proj1 (Zdigits2_bounds q ltac:(lia))) as Hb. rewrite Hd in Hb.
      change (2 ^ (54 - 1)) with (2 * 2 ^ 52) in Hb.
      apply Z.div_le_lower_bound; lia. }
  assert (Hk : 2 ^ 52 <= k).
  { (* k is nearest to N / W, which is at least q / 2^n *)
    assert (HqW : q / 2 ^ n * (Z.pos mb * 2 ^ n) <= N).
    { pose proof (Z.mul_div_le q (2 ^ n) ltac:(lia)) as Hle.
      rewrite HN. transitivity (Z.pos mb * q); [ | lia].
      replace (q / 2 ^ n * (Z.pos mb * 2 ^ n)) with (Z.pos mb * (2 ^ n * (q / 2 ^ n)))
        by ring.
      apply Z.mul_le_mono_nonneg_l; lia. }
    apply Z.le_trans with (q / 2 ^ n); [exact Hm1 | ].
    destruct (Z.le_gt_cases (q / 2 ^ n) k) as [ | Hgt]; auto. exfalso.
    assert (0 < Z.pos mb * 2 ^ n) by lia.
    assert ((k + 1) * (Z.pos mb * 2 ^ n) <= q / 2 ^ n * (Z.pos mb * 2 ^ n))
      by (apply Z.mul_le_mono_nonneg_r; lia).
    lia. }
  exists k, n.
  destruct Hres as [[Hz _] | [(_ & _ & Hover) | (m' & e' & Heq & Hb & Hle & Hval)]].
  - rewrite H52 in Hk. lia.
  - exfalso. (* no overflow: the exponent is small *)
    assert (Hklt : k < 2 ^ 55).
    { change (2 ^ 55) with 36028797018963968. change (2 ^ 54) with 18014398509481984 in Hq.
      rewrite H53 in *. unfold N in *. nia. }
    assert (Hdk : Zdigits2 k <= 55).
    { destruct (Zdigits2_bounds k ltac:(rewrite H52 in Hk; lia)) as [[Hlo _] _].
      destruct (Z.le_gt_cases (Zdigits2 k) 55) as [ | Hgt]; auto. exfalso.
      assert (2 ^ 55 <= 2 ^ (Zdigits2 k - 1)) by (apply Z.pow_le_mono_r; lia). lia. }
    unfold fexp, emin, prec, emax in Hover. lia.
  - exists m', e'. split; [exact Hn01 | ]. split; [exact Hk | ].
    split; [exact Hup | ]. split; [exact Hdown | ].
    split.
    { intros c Hc.
      assert (Hcq : c = q / 2 ^ n).
      { assert (Hmul : Z.pos mb * (c * 2 ^ n - q) = r) by (rewrite HN in Hc; lia).
        assert (Hzero : c * 2 ^ n - q = 0).
        { set (x := c * 2 ^ n - q) in *. clearbody x. clear - Hmul Hr.
          destruct (Z.lt_trichotomy x 0) as [Hx | [Hx | Hx]]; [ | exact Hx | ]; exfalso.
          - assert (Z.pos mb * x <= Z.pos mb * (-1)) by (apply Z.mul_le_mono_nonneg_l; lia).
            lia.
          - assert (Z.pos mb * 1 <= Z.pos mb * x) by (apply Z.mul_le_mono_nonneg_l; lia).
            lia. }
        destruct Hpow as [Hp1 | Hp2].
        - rewrite Hp1 in *. rewrite Z.div_1_r. lia.
        - rewrite Hp2 in *. apply (Z.div_unique q 2 c 0); lia. }
      rewrite Hcq. apply Hexact. rewrite <- Hcq. exact Hc. }
    split; [exact Heq | ]. split; [exact Hb | ].
    replace (ea - eb - 53 + n) with (Zdigits2 q + (ea - eb - 53) - 53) by lia.
    split; [exact Hle | exact Hval].
Qed.

Lemma of_Z_exponent (n : Z) (m : positive) (e : Z) :
  0 < n -> Zpos m = n * 2 ^ (- e) -> e <= 0 -> Zpos m < 2 ^ 53 -> - 52 <= e.
Proof.
  intros Hn Hm He Hlt. destruct (Z.le_gt_cases (- 52) e) as [ | Hgt]; auto. exfalso.
  assert (2 ^ 53 <= 2 ^ (- e)) by (apply Z.pow_le_mono_r; lia). nia.
Qed.

(** The floor of the quotient of two integers is their integer quotient. *)
Lemma fdiv_floor_of_Z (a b : Z) :
  0 <= a < 2 ^ 52 -> 0 < b < 2 ^ 53 ->
  Math_floor (fdiv (of_Z a) (of_Z b)) = of_Z (a / b).
Proof.
  intros Ha Hb.
  destruct (of_Z_canonical b) as (mb & eb & Heqb & _ & Heb & Hmb & Hmb'); [lia | ].
  destruct (Z.eq_dec a 0) as [-> | Hna].
  { rewrite Heqb. reflexivity. }
  destruct (of_Z_canonical a) as (ma & ea & Heqa & _ & Hea & Hma & Hma'); [lia | ].
  pose proof (of_Z_exponent a ma ea ltac:(lia) Hma Hea ltac:(lia)) as Hea'.
  pose proof (of_Z_exponent b mb eb ltac:(lia) Hmb Heb ltac:(lia)) as Heb'.
  rewrite Heqa, Heqb.
  destruct (fdiv_nearest ma mb ea eb Hma' Hmb' ltac:(lia))
    as (k & n & m' & e' & Hn & Hk & Hup & Hdown & _ & Heq & Hbd & Hle & Hval).
  rewrite Heq.
  set (f := ea - eb - 53 + n) in *. assert (Hf : f <= 0) by (unfold f; lia).
  set (P := 2 ^ (- f)). set (W := Z.pos mb * 2 ^ n) in *. set (N := Z.pos ma * 2 ^ 53) in *.
  assert (HP : 0 < P) by (apply Z.pow_pos_nonneg; lia).
  assert (H2n : 0 < 2 ^ n) by (apply Z.pow_pos_nonneg; lia).
  assert (HW : 0 < W) by (unfold W; lia).
  assert (HA : 0 < 2 ^ (- ea)) by (apply Z.pow_pos_nonneg; lia).
  assert (HB : 0 < 2 ^ (- eb)) by (apply Z.pow_pos_nonneg; lia).
  (* the quotient a / b, in units of 2^f, is N / W *)
  assert (HI : a * (W * P) = b * N).
  { assert (Hpw : P * 2 ^ n * 2 ^ (- eb) = 2 ^ 53 * 2 ^ (- ea)).
    { unfold P. rewrite <- !Z.pow_add_r by lia. f_equal. unfold f. lia. }
    apply (Z.mul_cancel_r _ _ (2 ^ (- eb))); [lia | ].
    unfold W, N. rewrite Hma, Hmb.
    transitivity (a * b * (2 ^ (- eb) * (P * 2 ^ n * 2 ^ (- eb)))); [ring | ].
    rewrite Hpw. ring. }
  set (n0 := a / b).
  assert (Hn0 : b * n0 <= a < b * (n0 + 1)).
  { unfold n0. split; [apply Z.mul_div_le; lia | ].
    pose proof (Z.mul_succ_div_gt a b ltac:(lia)). lia. }
  assert (Hn0' : 0 <= n0 < 2 ^ 52).
  { unfold n0. split; [apply Z.div_pos; lia | ].
    apply Z.div_lt_upper_bound; [lia | ]. nia. }
  assert (H52 : 2 ^ 52 = 4503599627370496) by reflexivity.
  assert (H53 : 2 ^ 53 = 9007199254740992) by reflexivity.
  (* lower bound *)
  assert (Hlow : n0 * P <= k).
  { destruct (Z.le_gt_cases (n0 * P) k) as [ | Hgt]; auto. exfalso.
    assert (HNge : n0 * (W * P) <= N).
    { apply (Z.mul_le_mono_pos_l _ _ b); [lia | ].
      rewrite <- HI. assert (0 <= W * P) by (apply Z.mul_nonneg_nonneg; lia).
      replace (b * (n0 * (W * P))) with (b * n0 * (W * P)) by ring.
      apply Z.mul_le_mono_nonneg_r; lia. }
    assert ((k + 1) * W <= n0 * P * W) by (apply Z.mul_le_mono_nonneg_r; lia).
    lia. }
  (* the divisor is below the number of grid points in a unit *)
  assert (HbP : b < P).
  { assert (H1 : (2 * 2 ^ 52 - 1) * W <= 2 * N).
    { assert ((2 * 2 ^ 52 - 1) * W <= (2 * k - 1) * W)
        by (apply Z.mul_le_mono_nonneg_r; lia).
      lia. }
    assert (H2 : b * ((2 * 2 ^ 52 - 1) * W) <= 2 * (a * (W * P))).
    { rewrite HI. replace (2 * (b * N)) with (b * (2 * N)) by ring.
      apply Z.mul_le_mono_nonneg_l; lia. }
    assert (H3 : b * (2 * 2 ^ 52 - 1) <= 2 * a * P).
    { apply (Z.mul_le_mono_pos_r _ _ W); [lia | ]. lia. }
    rewrite H52 in *.
    destruct (Z.lt_ge_cases b P) as [ | Hge]; auto. exfalso.
    assert (2 * a * P <= (2 * 4503599627370496 - 2) * P)
      by (apply Z.mul_le_mono_nonneg_r; lia).
    assert (P * (2 * 4503599627370496 - 1) <= b * (2 * 4503599627370496 - 1))
      by (apply Z.mul_le_mono_nonneg_r; lia).
    lia. }
  (* upper bound *)
  assert (Hupp : k < (n0 + 1) * P).
  { destruct (Z.lt_ge_cases k ((n0 + 1) * P)) as [ | Hge]; auto. exfalso.
    assert (H1 : (n0 + 1) * P * W <= k * W) by (apply Z.mul_le_mono_nonneg_r; lia).
    assert (H2 : W * P <= b * (k * W - N)).
    { assert (b * ((n0 + 1) * P * W) <= b * (k * W))
        by (apply Z.mul_le_mono_nonneg_l; lia).
      assert (W * P * 1 <= W * P * (b * (n0 + 1) - a))
        by (apply Z.mul_le_mono_nonneg_l; [apply Z.mul_nonneg_nonneg | ]; lia).
      lia. }
    assert (H3 : 2 * (b * (k * W - N)) <= b * W).
    { replace (2 * (b * (k * W - N))) with (b * (2 * (k * W - N))) by ring.
      apply Z.mul_le_mono_nonneg_l; lia. }
    assert (H4 : 2 * (W * P) <= b * W) by lia.
    assert (2 * P <= b) by (apply (Z.mul_le_mono_pos_r _ _ W); lia). lia. }
  assert (HkP : k / P = n0).
  { symmetry. apply (Z.div_unique k P n0 (k - n0 * P)); lia. }
  (* the exponent of the quotient is negative *)
  destruct (valid_mantissa false m' e' Hbd) as [_ Hbig].
  assert (He'neg : e' < 0).
  { destruct (Z.lt_ge_cases e' 0) as [ | Hge]; auto. exfalso. specialize (Hbig Hge).
    assert (Hsplit : 2 ^ (e' - f) = 2 ^ e' * P)
      by (unfold P; rewrite <- Z.pow_add_r by lia; f_equal; lia).
    assert (1 <= 2 ^ e') by (assert (0 < 2 ^ e') by (apply Z.pow_pos_nonneg; lia); lia).
    rewrite Hsplit in Hval. rewrite H52 in *. nia. }
  assert (Hshift : Z.pos m' / 2 ^ (- e') = n0).
  { rewrite <- HkP, Hval.
    assert (Hsplit : P = 2 ^ (- e') * 2 ^ (e' - f))
      by (unfold P; rewrite <- Z.pow_add_r by lia; f_equal; lia).
    rewrite Hsplit. rewrite Z.div_mul_cancel_r; [reflexivity | | ].
    - apply Z.pow_nonzero; lia.
    - apply Z.pow_nonzero; lia. }
  unfold Math_floor. destruct (Z.leb_spec 0 e'); [lia | ].
  unfold signed. cbn [cond_Zopp]. rewrite Z.shiftr_div_pow2 by lia. rewrite Hshift.
  fold n0. destruct n0 as [ | q | q]; try lia; reflexivity.
Qed.

(** ** Exact products and quotients of integers *)

(** Multiplication of integers is exact below 2^53. *)
Lemma fmul_of_Z (a b : Z) :
  0 <= a < 2 ^ 53 -> 0 <= b < 2 ^ 53 -> a * b < 2 ^ 53 ->
  fmul (of_Z a) (of_Z b) = of_Z (a * b).
Proof.
  intros Ha Hb Hab.
  destruct (Z.eq_dec a 0) as [-> | Hna].
  { destruct (Z.eq_dec b 0) as [-> | Hnb]; [reflexivity | ].
    destruct (of_Z_canonical b) as (m & e & -> & _); [nia | ]. reflexivity. }
  destruct (Z.eq_dec b 0) as [-> | Hnb].
  { rewrite Z.mul_0_r. destruct (of_Z_canonical a) as (m & e & -> & _); [nia | ]. reflexivity. }
  assert (H53 : 2 ^ 53 = 9007199254740992) by reflexivity.
  assert (H52 : 2 ^ 52 = 4503599627370496) by reflexivity.
  destruct (of_Z_canonical a) as (ma & ea & -> & _ & Hea & Hma & Hma'); [nia | ].
  destruct (of_Z_canonical b) as (mb & eb & -> & _ & Heb & Hmb & Hmb'); [nia | ].
  destruct (of_Z_canonical (a * b)) as (mc & ec & -> & Hbc & Hec & Hmc & Hmc'); [nia | ].
  unfold fmul, SFmul. cbn [xorb].
  assert (HA : 0 < 2 ^ (- ea)) by (apply Z.pow_pos_nonneg; lia).
  assert (HB : 0 < 2 ^ (- eb)) by (apply Z.pow_pos_nonneg; lia).
  assert (HC : 0 < 2 ^ (- ec)) by (apply Z.pow_pos_nonneg; lia).
  assert (Hle : ea + eb <= ec).
  { destruct (Z.le_gt_cases (ea + eb) ec) as [ | Hgt]; auto. exfalso.
    assert (Hpw : 2 ^ (- ea) * 2 ^ (- eb) * 2 <= 2 ^ (- ec)).
    { assert (Hp1 : 2 ^ (- ea + - eb + 1) = 2 ^ (- ea) * 2 ^ (- eb) * 2)
        by (rewrite !Z.pow_add_r by lia; reflexivity).
      rewrite <- Hp1. apply Z.pow_le_mono_r; lia. }
    assert (Z.pos ma * Z.pos mb * 2 <= Z.pos mc).
    { rewrite Hma, Hmb, Hmc.
      transitivity (a * b * (2 ^ (- ea) * 2 ^ (- eb) * 2)); [lia | ].
      apply Z.mul_le_mono_nonneg_l; [nia | exact Hpw]. }
    rewrite H52, H53 in *. nia. }
  apply binary_round_aux_exact; auto.
  assert (Hpw2 : 2 ^ (- ea) * 2 ^ (- eb) = 2 ^ (- ec) * 2 ^ (ec - (ea + eb)))
    by (rewrite <- !Z.pow_add_r by lia; f_equal; lia).
  rewrite Pos2Z.inj_mul, Hma, Hmb, Hmc.
  transitivity (a * b * (2 ^ (- ea) * 2 ^ (- eb))); [ring | rewrite Hpw2; ring].
Qed.

(** Canonical forms are unique. *)
Lemma canonical_unique (m m' : positive) (e e' : Z) :
  bounded prec emax m e = true -> bounded prec emax m' e' = true ->
  same_value m e m' e' -> m = m' /\ e = e'.
Proof.
  intros Hb Hb' Hv.
  destruct (bounded_inv _ _ _ _ Hb) as [Hc _]. destruct (bounded_inv _ _ _ _ Hb') as [Hc' _].
  pose proof (same_value_digits m e m' e' Hv) as Hd. rewrite Hd in Hc.
  assert (e = e') by congruence. subst e'. split; [ | reflexivity].
  unfold same_value in Hv. rewrite Z.min_id, Z.sub_diag in Hv. simpl in Hv. lia.
Qed.

(** Division of a multiple by the divisor is exact. *)
Lemma fdiv_exact_of_Z (c b : Z) :
  0 <= c -> 0 < b < 2 ^ 53 -> c * b < 2 ^ 53 -> fdiv (of_Z (c * b)) (of_Z b) = of_Z c.
Proof.
  intros Hc Hb Hcb.
  assert (H53 : 2 ^ 53 = 9007199254740992) by reflexivity.
  destruct (of_Z_canonical b) as (mb & eb & Heqb & _ & Heb & Hmb & Hmb'); [nia | ].
  destruct (Z.eq_dec c 0) as [-> | Hnc].
  { rewrite Heqb. reflexivity. }
  destruct (of_Z_canonical (c * b)) as (ma & ea & Heqa & _ & Hea & Hma & Hma'); [nia | ].
  destruct (of_Z_canonical c) as (mc & ec & Heqc & Hbc & Hec & Hmc & Hmc'); [nia | ].
  pose proof (of_Z_exponent (c * b) ma ea ltac:(nia) Hma Hea ltac:(lia)) as Hea'.
  pose proof (of_Z_exponent b mb eb ltac:(lia) Hmb Heb ltac:(lia)) as Heb'.
  rewrite Heqa, Heqb, Heqc.
  destruct (fdiv_nearest ma mb ea eb Hma' Hmb' ltac:(lia))
    as (k & n & m' & e' & Hn & Hk & _ & _ & Hexact & Heq & Hbd & Hle & Hval).
  rewrite Heq.
  set (f := ea - eb - 53 + n) in *. assert (Hf : f <= 0) by (unfold f; lia).
  assert (HP : 0 < 2 ^ (- f)) by (apply Z.pow_pos_nonneg; lia).
  assert (H2n : 0 < 2 ^ n) by (apply Z.pow_pos_nonneg; lia).
  assert (HB : 0 < 2 ^ (- eb)) by (apply Z.pow_pos_nonneg; lia).
  assert (Hpw : 2 ^ (- f) * 2 ^ n * 2 ^ (- eb) = 2 ^ 53 * 2 ^ (- ea)).
  { rewrite <- !Z.pow_add_r by lia. f_equal. unfold f. lia. }
  assert (Hk' : k = c * 2 ^ (- f)).
  { apply Hexact. apply (Z.mul_cancel_r _ _ (2 ^ (- eb))); [lia | ].
    rewrite Hma, Hmb.
    transitivity (c * b * (2 ^ (- eb) * (2 ^ 53 * 2 ^ (- ea)))); [ring | ].
    rewrite <- Hpw. ring. }
  assert (Hfec : f <= ec).
  { destruct (Z.le_gt_cases f ec) as [ | Hgt]; auto. exfalso.
    assert (Hp2 : 2 ^ (- f + 1) = 2 ^ (- f) * 2) by (rewrite Z.pow_add_r by lia; reflexivity).
    assert (2 ^ (- f + 1) <= 2 ^ (- ec)) by (apply Z.pow_le_mono_r; lia).
    assert (H52 : 2 ^ 52 = 4503599627370496) by reflexivity.
    rewrite H52, H53 in *. nia. }
  assert (Hsame : same_value m' e' mc ec).
  { unfold same_value. rewrite Hmc.
    assert (Hkk : Z.pos m' * 2 ^ (e' - f) = c * 2 ^ (- f)) by lia.
    set (z := Z.min e' ec).
    assert (Hz1 : 0 <= e' - z) by lia. assert (Hz2 : 0 <= ec - z) by lia.
    assert (Hz3 : 0 <= z - f) by lia.
    apply (Z.mul_cancel_r _ _ (2 ^ (z - f))); [apply Z.pow_nonzero; lia | ].
    rewrite <- !Z.mul_assoc, <- !Z.pow_add_r by lia.
    replace (e' - z + (z - f)) with (e' - f) by lia.
    replace (- ec + (ec - z + (z - f))) with (- f) by lia. exact Hkk. }
  destruct (canonical_unique m' mc e' ec Hbd Hbc Hsame) as [-> ->]. reflexivity.
Qed.

(** Interpolating at an integral position gives the sample at that position
    (up to the sign of zero) when that sample and the next are finite. *)
Lemma interpolate_at_integer (sourceData : list number) (j : Z) (s : number) :
  Z.of_nat (length sourceData) < 2 ^ 32 -> 0 <= j ->
  sourceData !! Z.to_nat j = Some s -> valid s -> is_finite s = true ->
  (forall s', sourceData !! S (Z.to_nat j) = Some s' -> is_finite s' = true) ->
  same_number (interpolate sourceData (of_Z j)) s.
Proof.
  intros Hlen Hj Hs Hv Hfin Hnext.
  assert (Hi : (Z.to_nat j < length sourceData)%nat) by (apply lookup_lt_is_Some_1; eauto).
  pose proof (interpolate_at_index sourceData (Z.to_nat j) s Hlen Hs Hv Hfin Hnext) as H.
  unfold of_nat in H. rewrite Z2Nat.id in H by lia.
  now rewrite fmul_one in H by (apply valid_of_Z; lia).
Qed.

(** Beyond the last sample the interpolation reads nothing and gives 0. *)
Lemma interpolate_beyond (sourceData : list number) (j : Z) :
  Z.of_nat (length sourceData) <= j < 2 ^ 52 ->
  interpolate sourceData (of_Z j) = pzero.
Proof.
  intros Hj. unfold interpolate.
  rewrite Math_floor_of_Z by lia.
  assert (Hadd : fadd (of_Z j) one = of_Z (j + 1)) by (apply (fadd_of_Z j 1); lia).
  unfold of_nat. rewrite Hadd, flt_of_Z by lia.
  destruct (Z.ltb_spec (j + 1) (Z.of_nat (length sourceData))); [lia | ].
  rewrite get_of_Z_nat by lia. rewrite lookup_ge_None_2 by lia. reflexivity.
Qed.

(** ** Integral sample rates and speeds *)

Lemma new_Uint8Array_of_Z (z : Z) :
  0 <= z < 2 ^ 53 ->
  TypedArray.new_Uint8Array (of_Z z) = Returns (replicate (Z.to_nat z) 0).
Proof.
  intros Hz. apply new_Uint8Array_Int; [ | lia].
  apply index_number_Int; [apply index_number_of_Z | ]; lia.
Qed.

(** The target length of [convertToPCM] for integral rates. *)
Lemma targetLength_of_Z (b : AudioBuffer.t) (sourceData : list number)
  (sourceRate targetRate : Z) :
  AudioBuffer.sampleRate b = of_Z sourceRate -> 0 < sourceRate < 2 ^ 53 ->
  0 <= targetRate -> Z.of_nat (length sourceData) < 2 ^ 53 ->
  Z.of_nat (length sourceData) * targetRate < 2 ^ 52 -> targetRate < 2 ^ 53 ->
  targetLength b {| pcm_sampleRate := of_Z targetRate |} sourceData
  = of_Z (Z.of_nat (length sourceData) * targetRate / sourceRate).
Proof.
  intros Hrate Hsr Htr Hlen Hprod Htr'. unfold targetLength, of_nat. cbn [pcm_sampleRate].
  rewrite Hrate, fmul_of_Z by lia. apply fdiv_floor_of_Z; lia.
Qed.

(** X13. For integral sample rates the length of the PCM data is the
    integer quotient [(length * targetRate) div sourceRate], exactly: the
    double-precision product, quotient and floor of [convertToPCM] lose
    nothing as long as [length * targetRate] is below 2^52. *)
Theorem convertToPCM_integer_length (b : AudioBuffer.t) (sourceRate targetRate : Z) :
  wf_buffer b = true ->
  AudioBuffer.sampleRate b = of_Z sourceRate -> 0 < sourceRate < 2 ^ 53 ->
  0 <= targetRate -> Z.of_nat (AudioBuffer.length b) * targetRate < 2 ^ 52 ->
  exists bytes : list Z,
    convertToPCM b {| pcm_sampleRate := of_Z targetRate |} = Returns bytes
    /\ Z.of_nat (length bytes) = Z.of_nat (AudioBuffer.length b) * targetRate / sourceRate.
Proof.
  intros Hwf Hrate Hsr Htr Hprod.
  destruct (wf_channel_0 b Hwf) as (sourceData & Hsrc & Hlen).
  pose proof (wf_buffer_inv b Hwf) as Hf.
  pose proof (wf_length_pos b Hf) as Hpos. pose proof (wf_length_u32 b Hf) as Hu32.
  assert (Htr' : targetRate < 2 ^ 53) by nia.
  set (n := Z.of_nat (AudioBuffer.length b) * targetRate / sourceRate).
  assert (Hn : 0 <= n < 2 ^ 53).
  { unfold n. split; [apply Z.div_pos; nia | ].
    apply Z.div_lt_upper_bound; [lia | ]. nia. }
  eexists. split.
  - apply (convertToPCM_spec b _ sourceData (replicate (Z.to_nat n) 0) Hsrc).
    rewrite (targetLength_of_Z b sourceData sourceRate targetRate)
      by (rewrite ?Hlen; first [assumption | lia]).
    rewrite Hlen. fold n. now apply new_Uint8Array_of_Z.
  - rewrite length_map, length_seq, length_replicate. lia.
Qed.

Lemma convertToPCM_integer_length_witness :
  exists bytes : list Z,
    convertToPCM eight_samples {| pcm_sampleRate := of_Z 11025 |} = Returns bytes
    /\ Z.of_nat (length bytes) = Z.of_nat (AudioBuffer.length eight_samples) * 11025 / 44100.
Proof.
  assert (Hwf : wf_buffer eight_samples = true) by (vm_compute; reflexivity).
  apply (convertToPCM_integer_length eight_samples 44100 11025 Hwf eq_refl);
    simpl; lia.
Defined.

Lemma pcm_value_same_number (x s : number) : same_number x s -> pcm_value x = pcm_value s.
Proof.
  intros [-> | (s1 & s2 & -> & ->)]; [reflexivity | ]. now destruct s1, s2.
Qed.

(** X14. When the source rate is an integral multiple [q] of the target rate,
    [convertToPCM] interpolates nothing: its byte [i] is the byte of the input
    sample [i * q] alone (clamped and mapped by
    [Math.round((sample + 1) * 127.5)]), for a channel of finite samples, and
    there are [length div q] bytes. *)
Theorem convertToPCM_integer_ratio (b : AudioBuffer.t) (sourceData : list number)
  (targetRate q : Z) :
  wf_buffer b = true -> finite_samples b = true ->
  AudioBuffer.channels b !! 0%nat = Some sourceData ->
  AudioBuffer.sampleRate b = of_Z (q * targetRate) ->
  0 < q -> 0 < targetRate -> q * targetRate < 2 ^ 53 ->
  Z.of_nat (AudioBuffer.length b) * targetRate < 2 ^ 52 ->
  exists bytes : list Z,
    convertToPCM b {| pcm_sampleRate := of_Z targetRate |} = Returns bytes
    /\ Z.of_nat (length bytes) = Z.of_nat (AudioBuffer.length b) / q
    /\ forall (i : nat) (s : number),
         Z.of_nat i < Z.of_nat (AudioBuffer.length b) / q ->
         sourceData !! (i * Z.to_nat q)%nat = Some s ->
         bytes !! i = Some (ToUint8 (pcm_value s)).
Proof.
  intros Hwf Hfin Hsrc Hrate Hq Htr Hqt Hprod.
  pose proof (wf_buffer_inv b Hwf) as Hf.
  pose proof (wf_length_pos b Hf) as Hpos. pose proof (wf_length_u32 b Hf) as Hu32.
  destruct (wf_channel_data b Hf 0%nat sourceData Hsrc) as [Hlen Hdata].
  set (L := Z.of_nat (AudioBuffer.length b)) in *.
  assert (Hdiv : L * targetRate / (q * targetRate) = L / q)
    by (apply Z.div_mul_cancel_r; lia).
  set (n := L / q).
  assert (Hn : 0 <= n /\ n * q <= L).
  { unfold n. split; [apply Z.div_pos; lia | ].
    rewrite Z.mul_comm. apply Z.mul_div_le. lia. }
  assert (Hn53 : n < 2 ^ 53) by nia.
  eexists. split; [ | split].
  - apply (convertToPCM_spec b _ sourceData (replicate (Z.to_nat n) 0) Hsrc).
    rewrite (targetLength_of_Z b sourceData (q * targetRate) targetRate)
      by (rewrite ?Hlen; fold L; first [assumption | nia]).
    rewrite Hlen. fold L. rewrite Hdiv. fold n. apply new_Uint8Array_of_Z. lia.
  - rewrite length_map, length_seq, length_replicate. fold n. lia.
  - intros i s Hi Hs. rewrite length_replicate.
    change (map ?f ?l) with (f <$> l). rewrite list_lookup_fmap.
    rewrite lookup_seq_lt by (fold n in Hi; lia). change (0 + i)%nat with i.
    cbn [fmap option_fmap option_map]. f_equal.
    unfold pcm_byte. cbn [pcm_sampleRate]. f_equal. apply pcm_value_same_number.
    fold n in Hi.
    assert (Hiq : Z.of_nat i * q < L) by nia.
    rewrite Hrate. unfold of_nat. rewrite fmul_of_Z by nia.
    replace (Z.of_nat i * (q * targetRate)) with (Z.of_nat i * q * targetRate) by ring.
    rewrite fdiv_exact_of_Z by nia.
    assert (Hidx : Z.to_nat (Z.of_nat i * q) = (i * Z.to_nat q)%nat) by lia.
    destruct (Hdata _ _ Hs) as [Hv _].
    assert (Hall : forall j x, sourceData !! j = Some x -> is_finite x = true).
    { intros j x Hx. apply (sample_finite b 0 j x Hfin). unfold sample. now rewrite Hsrc. }
    apply interpolate_at_integer; try lia.
    + now rewrite Hidx.
    + exact Hv.
    + eapply Hall; eauto.
    + intros s' Hs'. eapply Hall; eauto.
Qed.

Lemma convertToPCM_integer_ratio_witness :
  convertToPCM eight_samples {| pcm_sampleRate := of_Z 11025 |} = Returns [128; 0]
  /\ exists bytes : list Z,
       convertToPCM eight_samples {| pcm_sampleRate := of_Z 11025 |} = Returns bytes
       /\ Z.of_nat (length bytes) = Z.of_nat (AudioBuffer.length eight_samples) / 4.
Proof.
  split; [vm_compute; reflexivity | ].
  assert (Hwf : wf_buffer eight_samples = true) by (vm_compute; reflexivity).
  assert (Hfin : finite_samples eight_samples = true) by (vm_compute; reflexivity).
  destruct (convertToPCM_integer_ratio eight_samples
              [pzero; half; one; fneg half; fneg one; of_Z 2; of_Z 3; of_Z 4] 11025 4
              Hwf Hfin eq_refl eq_refl ltac:(lia) ltac:(lia) ltac:(lia) ltac:(simpl; lia))
    as (bytes & Hret & Hlen & _).
  exists bytes. split; [exact Hret | exact Hlen].
Defined.

(** X15. [changeSpeed] by an integral speed [k] between 1 and the length
    keeps every [k]-th sample: the new buffer has [length div k] samples and
    its sample [i] equals the input's sample [i * k] (as numbers: a zero may
    change its sign), for a buffer of finite samples.  With [k = 1] the
    buffer is copied. *)
Theorem changeSpeed_integer (h : Heap) (r : Ref) (b : AudioBuffer.t) (k : Z) :
  h !! r = Some b -> wf_buffer b = true -> finite_samples b = true ->
  1 <= k <= Z.of_nat (AudioBuffer.length b) ->
  exists b' : AudioBuffer.t,
    changeSpeed h r (of_Z k) = Returns (length h, h ++ [b'])
    /\ Z.of_nat (AudioBuffer.length b') = Z.of_nat (AudioBuffer.length b) / k
    /\ forall (c i : nat) (s : number),
         Z.of_nat i < Z.of_nat (AudioBuffer.length b) / k ->
         sample b c (i * Z.to_nat k) = Some s ->
         exists s', sample b' c i = Some s' /\ same_number s' s /\ feq s' s = true.
Proof.
  intros Hr Hwf Hfin Hk. pose proof (wf_buffer_inv b Hwf) as Hf.
  pose proof (wf_length_pos b Hf) as Hpos. pose proof (wf_length_u32 b Hf) as Hu32.
  set (L := Z.of_nat (AudioBuffer.length b)) in *.
  set (n := L / k).
  assert (Hn : 1 <= n /\ n * k <= L /\ n <= L).
  { unfold n. split; [ | split].
    - apply Z.div_le_lower_bound; lia.
    - rewrite Z.mul_comm. apply Z.mul_div_le. lia.
    - apply Z.div_le_upper_bound; nia. }
  rewrite (changeSpeed_spec h r b (of_Z k) Hr Hwf). cbv zeta.
  unfold of_nat. fold L. rewrite fdiv_floor_of_Z by lia. fold n.
  rewrite ToUint32_of_Z, iterations_of_Z, flt_of_Z_zero by lia. simpl orb.
  destruct (Z.eqb_spec n 0) as [ | _]; [lia | ].
  eexists. split; [reflexivity | ]. cbn [AudioBuffer.length]. split; [lia | ].
  intros c i s Hi Hs. rewrite sample_mk_map. unfold sample in Hs.
  destruct (AudioBuffer.channels b !! c) as [data | ] eqn:Hc; [ | discriminate].
  destruct (wf_channel_data b Hf c data Hc) as [Hlen Hdata].
  rewrite resampled_lookup by lia.
  destruct (Hdata _ _ Hs) as [Hv Hfr].
  assert (Hall : forall j x, data !! j = Some x -> is_finite x = true).
  { intros j x Hx. apply (sample_finite b c j x Hfin). unfold sample. now rewrite Hc. }
  eexists. split; [reflexivity | ].
  assert (Hsame : same_number
                    (fround (interpolate data (fmul (of_nat i) (of_Z k)))) s).
  { apply same_number_fround; [exact Hfr | ].
    unfold of_nat. rewrite fmul_of_Z by nia.
    apply interpolate_at_integer; try lia.
    - replace (Z.to_nat (Z.of_nat i * k)) with (i * Z.to_nat k)%nat by lia. exact Hs.
    - exact Hv.
    - eapply Hall; eauto.
    - intros s' Hs'. eapply Hall; eauto. }
  split; [exact Hsame | ]. apply same_number_feq; [eapply Hall; eauto | exact Hsame].
Qed.

Lemma changeSpeed_integer_witness :
  changeSpeed [eight_samples] 0 (of_Z 2)
  = Returns (1%nat, [eight_samples; mono_buffer [pzero; one; fneg one; of_Z 3]])
  /\ exists b' : AudioBuffer.t,
       changeSpeed [eight_samples] 0 (of_Z 2) = Returns (1%nat, [eight_samples] ++ [b'])
       /\ Z.of_nat (AudioBuffer.length b') = Z.of_nat (AudioBuffer.length eight_samples) / 2.
Proof.
  split; [vm_compute; reflexivity | ].
  assert (Hwf : wf_buffer eight_samples = true) by (vm_compute; reflexivity).
  assert (Hfin : finite_samples eight_samples = true) by (vm_compute; reflexivity).
  destruct (changeSpeed_integer [eight_samples] 0%nat eight_samples 2
              eq_refl Hwf Hfin ltac:(simpl; lia)) as (b' & Hret & Hlen & _).
  exists b'. split; [exact Hret | exact Hlen].
Defined.

(** ** The operations keep numbers in canonical form *)

Lemma valid_binary_round (s : bool) (m : positive) (e : Z) :
  valid (binary_round prec emax s m e).
Proof.
  destruct (binary_round_cases prec emax s m e ltac:(reflexivity))
    as [-> | [[-> _] | (m' & e' & -> & Hb & _)]]; try reflexivity. exact Hb.
Qed.

Lemma valid_binary_normalize (m e : Z) (szero : bool) :
  valid (binary_normalize prec emax m e szero).
Proof. destruct m; [reflexivity | apply valid_binary_round | apply valid_binary_round]. Qed.

Lemma valid_of_Z_any (z : Z) : valid (of_Z z).
Proof. apply valid_binary_normalize. Qed.

Lemma valid_fadd (x y : number) : valid x -> valid y -> valid (fadd x y).
Proof.
  intros Hx Hy. destruct x as [sx | sx | | sx mx ex], y as [sy | sy | | sy my ey];
    try assumption; try reflexivity.
  - now destruct sx, sy.
  - now destruct sx, sy.
  - apply valid_binary_normalize.
Qed.

Lemma valid_fsub (x y : number) : valid x -> valid y -> valid (fsub x y).
Proof.
  intros Hx Hy. destruct x as [sx | sx | | sx mx ex], y as [sy | sy | | sy my ey];
    try assumption; try reflexivity.
  - now destruct sx, sy.
  - now destruct sx, sy.
  - apply valid_binary_normalize.
Qed.

Lemma valid_Math_floor (x : number) : valid x -> valid (Math_floor x).
Proof.
  intros Hx. destruct x as [s | s | | s m e]; try assumption.
  unfold Math_floor. destruct (0 <=? e); [assumption | ].
  destruct (Z.shiftr (signed s m) (- e)); [reflexivity | | ]; apply valid_of_Z_any.
Qed.

Lemma valid_Math_round (x : number) : valid x -> valid (Math_round x).
Proof.
  intros Hx. destruct x as [s | s | | s m e]; try assumption.
  unfold Math_round. destruct (0 <=? e); [assumption | ].
  destruct (Z.shiftr _ _); [reflexivity | | ]; apply valid_of_Z_any.
Qed.

(** Shifting the mantissa 0 keeps it 0 and clears the round bit. *)
Lemma iter_shr_zero (n : positive) (r s : bool) :
  exists s', SpecFloat.iter_pos shr_1 n (Build_shr_record 0 r s) = Build_shr_record 0 false s'.
Proof.
  revert r s. induction n as [ | n IH] using Pos.peano_ind; intros r s.
  - simpl. eauto.
  - rewrite iter_pos_succ. destruct (IH r s) as [s' ->]. simpl. eauto.
Qed.

(** Rounding a quotient whose integral part is 0, at or below the least
    exponent: the result is a zero or the least positive number. *)
Lemma binary_round_aux_zero (s : bool) (e : Z) (l : location) :
  e <= emin prec emax ->
  valid (binary_round_aux prec emax s 0 e l).
Proof.
  intros He. unfold emin, prec, emax in He.
  unfold binary_round_aux, shr_fexp. cbn [Zdigits2].
  assert (Hf : fexp prec emax (0 + e) - e = - 1074 - e)
    by (unfold fexp, emin, prec, emax; lia).
  rewrite Hf. unfold shr.
  destruct (- 1074 - e) as [ | n | n] eqn:Hn; try lia.
  - assert (e = - 1074) as -> by lia.
    destruct l as [ | []]; reflexivity.
  - assert (Hrec : exists r0 s0, shr_record_of_loc 0 l = Build_shr_record 0 r0 s0)
      by (destruct l as [ | []]; simpl; eauto).
    destruct Hrec as (r0 & s0 & ->). destruct (iter_shr_zero n r0 s0) as [s' ->].
    cbn [shr_m loc_of_shr_record].
    assert (Hround : round_nearest_even 0 (if s' then loc_Inexact Lt else loc_Exact) = 0)
      by (destruct s'; reflexivity).
    replace (match s' with true => loc_Inexact Lt | false => loc_Exact end)
      with (if s' then loc_Inexact Lt else loc_Exact) by reflexivity.
    destruct s'; cbn [round_nearest_even Zdigits2 shr_record_of_loc].
    + assert (Hf' : fexp prec emax (0 + (e + Z.pos n)) - (e + Z.pos n) = 0)
        by (unfold fexp, emin, prec, emax; lia).
      rewrite Hf'. reflexivity.
    + assert (Hf' : fexp prec emax (0 + (e + Z.pos n)) - (e + Z.pos n) = 0)
        by (unfold fexp, emin, prec, emax; lia).
      rewrite Hf'. reflexivity.
Qed.

Lemma valid_digits (s : bool) (m : positive) (e : Z) :
  valid (S754_finite s m e) -> 1 <= Zpos (digits2_pos m) <= 53.
Proof.
  intros Hv. destruct (bounded_inv _ _ _ _ Hv) as [Hc _].
  unfold fexp, emin, prec, emax in Hc. lia.
Qed.

Lemma valid_fdiv (x y : number) : valid x -> valid y -> valid (fdiv x y).
Proof.
  intros Hx Hy. destruct x as [sx | sx | | sx mx ex], y as [sy | sy | | sy my ey];
    try reflexivity.
  unfold fdiv, SFdiv, SFdiv_core_binary.
  change (Zdigits2 (Z.pos mx)) with (Z.pos (digits2_pos mx)).
  change (Zdigits2 (Z.pos my)) with (Z.pos (digits2_pos my)).
  pose proof (valid_digits sx mx ex Hx) as Hdx. pose proof (valid_digits sy my ey Hy) as Hdy.
  pose proof (digits2_bounds mx) as [Hlox Hhix]. pose proof (digits2_bounds my) as [Hloy Hhiy].
  set (d1 := Z.pos (digits2_pos mx)) in *. set (d2 := Z.pos (digits2_pos my)) in *.
  set (E := d1 + ex - (d2 + ey)).
  set (e' := Z.min (fexp prec emax E) (ex - ey)).
  set (m' := match ex - ey - e' with
             | Z.pos _ => Z.shiftl (Z.pos mx) (ex - ey - e')
             | 0 => Z.pos mx
             | Z.neg _ => 0
             end).
  pose proof (Z_div_mod m' (Z.pos my) ltac:(lia)) as Hdm.
  destruct (Z.div_eucl m' (Z.pos my)) as [q r]. destruct Hdm as [Hm' Hr].
  assert (Hs : 0 <= ex - ey - e') by (unfold e'; lia).
  assert (Hm'val : m' = Z.pos mx * 2 ^ (ex - ey - e')).
  { unfold m'. destruct (ex - ey - e') as [ | k | k] eqn:Hk; try lia.
    now rewrite Z.shiftl_mul_pow2 by lia. }
  assert (Hq0 : 0 <= q).
  { assert (0 <= m') by (rewrite Hm'val; apply Z.mul_nonneg_nonneg;
                          [lia | apply Z.pow_nonneg; lia]).
    nia. }
  destruct (Z.le_gt_cases (emin prec emax) (E - 53)) as [Hnormal | Hsub].
  - (* the quotient is in the normal range: its mantissa is full *)
    assert (He' : e' = E - 53) by (unfold e', fexp, E, emin, prec, emax in *; lia).
    assert (Hsv : ex - ey - e' = 53 - d1 + d2) by (rewrite He'; unfold E; lia).
    assert (Hbig : 2 ^ 52 * 2 ^ d2 <= m').
    { rewrite Hm'val, Hsv.
      assert (Hp : 2 ^ (d1 - 1) * 2 ^ (53 - d1 + d2) = 2 ^ 52 * 2 ^ d2).
      { rewrite <- !Z.pow_add_r by lia. f_equal. lia. }
      rewrite <- Hp. apply Z.mul_le_mono_nonneg_r; [apply Z.pow_nonneg; lia | exact Hlox]. }
    assert (H52 : 2 ^ 52 = 4503599627370496) by reflexivity.
    assert (Hq : 2 ^ 52 <= q).
    { assert (0 < 2 ^ d2) by (apply Z.pow_pos_nonneg; lia). rewrite H52 in *. nia. }
    assert (Hdq : 53 <= Zdigits2 q).
    { destruct (Zdigits2_bounds q ltac:(rewrite H52 in Hq; lia)) as [[_ Hhi] _].
      destruct (Z.le_gt_cases 53 (Zdigits2 q)) as [ | Hlt]; auto. exfalso.
      assert (2 ^ Zdigits2 q <= 2 ^ 52) by (apply Z.pow_le_mono_r; lia). lia. }
    destruct (binary_round_aux_cases prec emax ltac:(reflexivity) (xorb sx sy) q e'
                (new_location (Z.pos my) r))
      as [-> | [[-> _] | (m3 & e3 & -> & Hb & _)]]; try reflexivity.
    + rewrite H52 in Hq. lia.
    + pose proof (fexp_mono E (Zdigits2 q + e') ltac:(rewrite He'; lia)) as Hmono.
      unfold e' at 1. lia.
    + exact Hb.
  - (* below the normal range *)
    assert (He' : e' <= emin prec emax) by (unfold e', fexp, emin, prec, emax in *; lia).
    destruct (Z.eq_dec q 0) as [-> | Hqne].
    + now apply binary_round_aux_zero.
    + destruct (binary_round_aux_cases prec emax ltac:(reflexivity) (xorb sx sy) q e'
                  (new_location (Z.pos my) r))
        as [-> | [[-> _] | (m3 & e3 & -> & Hb & _)]]; try reflexivity.
      * lia.
      * unfold fexp, emin, prec, emax in *. lia.
      * exact Hb.
Qed.

(** ** The range of the byte value of a sample *)

(** A clamped sample plus 1 is [+0], 2, or a positive number below 2. *)
Lemma fadd_clamped_one (c : number) :
  valid c -> fle c one = true -> fle (of_Z (-1)) c = true ->
  fadd c one = pzero
  \/ fadd c one = of_Z 2
  \/ exists m e, fadd c one = S754_finite false m e
                 /\ bounded prec emax m e = true
                 /\ Zpos (digits2_pos m) + e <= 1.
Proof.
  intros Hv H1 H2. destruct c as [s | s | | s m e].
  - right. right. exists 4503599627370496%positive, (-52). now destruct s.
  - destruct s; vm_compute in H1, H2; discriminate.
  - vm_compute in H1. discriminate.
  - destruct (magnitude_of_fle_one s m e Hv H1 H2) as [HE | [-> ->]].
    2:{ destruct s; [left | right; left]; reflexivity. }
    destruct (bounded_inv _ _ _ _ Hv) as [Hc _].
    pose proof (digits2_bounds m) as [Hlo Hhi].
    set (d := Zpos (digits2_pos m)) in *.
    assert (He : e <= -53) by (unfold fexp, emin, prec, emax in *; lia).
    rewrite one_eq. unfold fadd, SFadd.
    rewrite Z.min_l by lia.
    pose proof (shl_align_fst m e e ltac:(lia)) as Ha.
    pose proof (shl_align_fst 4503599627370496 (-52) e ltac:(lia)) as Hb.
    rewrite Z.sub_diag in Ha. change (2 ^ 0) with 1 in Ha. rewrite Z.mul_1_r in Ha.
    rewrite Ha, Hb. cbn [cond_Zopp].
    assert (Hpw : Z.pos 4503599627370496 * 2 ^ (-52 - e) = 2 ^ (- e)).
    { change (Z.pos 4503599627370496) with (2 ^ 52). rewrite <- Z.pow_add_r by lia.
      f_equal. lia. }
    rewrite Hpw.
    assert (Hm : Z.pos m < 2 ^ (- e)).
    { apply Z.lt_le_trans with (2 ^ d); [exact Hhi | apply Z.pow_le_mono_r; lia]. }
    set (N := cond_Zopp s (Z.pos m) + 2 ^ (- e)).
    assert (HN : 0 < N < 2 ^ (- e + 1)).
    { rewrite Z.pow_add_r by lia. change (2 ^ 1) with 2. unfold N. destruct s; simpl; lia. }
    destruct N as [ | n | n] eqn:HNe; try lia.
    unfold binary_normalize.
    assert (Hdn : Z.pos (digits2_pos n) <= - e + 1).
    { pose proof (digits2_bounds n) as [Hlon _].
      destruct (Z.le_gt_cases (Z.pos (digits2_pos n)) (- e + 1)) as [ | Hgt]; auto.
      assert (2 ^ (- e + 1) <= 2 ^ (Z.pos (digits2_pos n) - 1))
        by (apply Z.pow_le_mono_r; lia).
      lia. }
    destruct (binary_round_cases prec emax false n e ltac:(reflexivity))
      as [-> | [[_ Hinf] | (m' & e' & -> & Hb' & Hsize)]].
    + now left.
    + exfalso. unfold fexp, emin, prec, emax in Hinf. lia.
    + destruct (bounded_inv _ _ _ _ Hb') as [Hc' _].
      pose proof (digits2_bounds m') as [Hlo' Hhi'].
      set (d' := Z.pos (digits2_pos m')) in *.
      destruct (Z.le_gt_cases (d' + e') 1) as [Hle | Hgt].
      { right. right. exists m', e'. auto. }
      destruct Hsize as [Hs | [Hpow Hs]]; [lia | ].
      assert (Hde : d' + e' = 2) by (unfold emin, prec, emax in Hs; lia).
      assert (Hd53 : d' = 53) by (unfold fexp, emin, prec, emax in Hc'; lia).
      assert (e' = -51) as -> by lia.
      assert (m' = 4503599627370496%positive) as ->.
      { rewrite Hd53 in Hpow. change (2 ^ (53 - 1)) with 4503599627370496 in Hpow.
        congruence. }
      right. left. reflexivity.
Qed.

Lemma lit_127_5_eq : lit_127_5 = S754_finite false 8972014882652160 (-46).
Proof. reflexivity. Qed.

(** Rounding is monotone at the integers up to 256: an exact value below
    such an integer [B] rounds to at most [B], which is a number of every
    exponent the value can have. *)
Lemma binary_round_aux_below (s : bool) (N : positive) (e0 B : Z) :
  1 <= B <= 256 ->
  e0 <= fexp prec emax (Zpos (digits2_pos N) + e0) ->
  e0 <= 0 -> Zpos N < B * 2 ^ (- e0) ->
  binary_round_aux prec emax s (Zpos N) e0 loc_Exact = S754_zero s
  \/ exists m' e', binary_round_aux prec emax s (Zpos N) e0 loc_Exact = S754_finite s m' e'
                   /\ bounded prec emax m' e' = true
                   /\ e' < 0 /\ Zpos m' <= B * 2 ^ (- e').
Proof.
  intros HB He0 Hneg HN.
  pose proof (digits2_bounds N) as [HloN HhiN].
  set (dN := Z.pos (digits2_pos N)) in *.
  assert (HdN : dN + e0 <= 9).
  { destruct (Z.le_gt_cases (dN + e0) 9) as [ | Hgt]; auto. exfalso.
    assert (2 ^ (9 - e0) <= 2 ^ (dN - 1)) by (apply Z.pow_le_mono_r; lia).
    assert (Hp : 2 ^ (9 - e0) = 512 * 2 ^ (- e0))
      by (replace (9 - e0) with (9 + - e0) by lia; rewrite Z.pow_add_r by lia; reflexivity).
    assert (0 < 2 ^ (- e0)) by (apply Z.pow_pos_nonneg; lia). nia. }
  destruct (binary_round_aux_nearest prec emax ltac:(reflexivity) s
              (Z.pos N) e0 loc_Exact (Z.pos N) 1 ltac:(lia) He0 ltac:(lia)
              (located_of_loc_Exact _))
    as (k & Hk0 & Hup & _ & _ & Hres).
  change (Zdigits2 (Z.pos N)) with dN in *.
  set (f := fexp prec emax (dN + e0)) in *.
  assert (Hf : f <= -44) by (unfold f, fexp, emin, prec, emax in *; lia).
  set (n := f - e0) in *.
  assert (HP : 0 < 2 ^ n) by (apply Z.pow_pos_nonneg; lia).
  assert (HF : 0 < 2 ^ (- f)) by (apply Z.pow_pos_nonneg; lia).
  assert (HK : B * 2 ^ (- f) * 2 ^ n = B * 2 ^ (- e0)).
  { rewrite <- Z.mul_assoc, <- Z.pow_add_r by lia. do 2 f_equal. unfold n. lia. }
  assert (Hk : k <= B * 2 ^ (- f)).
  { destruct (Z.le_gt_cases k (B * 2 ^ (- f))) as [ | Hgt]; auto. exfalso.
    assert ((B * 2 ^ (- f) + 1) * 2 ^ n <= k * 2 ^ n)
      by (apply Z.mul_le_mono_nonneg_r; lia).
    rewrite Z.mul_1_l in Hup. lia. }
  destruct Hres as [[_ ->] | [(_ & _ & Hinf) | (m' & e' & -> & Hb' & Hfe & Hkm)]].
  - now left.
  - exfalso.
    assert (Hdk : Zdigits2 k <= 9 - f).
    { destruct (Z.eq_dec k 0) as [-> | Hne]; [simpl; lia | ].
      destruct (Zdigits2_bounds k ltac:(lia)) as [[Hlok _] _].
      destruct (Z.le_gt_cases (Zdigits2 k) (9 - f)) as [ | Hgt]; auto. exfalso.
      assert (2 ^ (9 - f) <= 2 ^ (Zdigits2 k - 1)) by (apply Z.pow_le_mono_r; lia).
      assert (Hp : 2 ^ (9 - f) = 512 * 2 ^ (- f))
        by (replace (9 - f) with (9 + - f) by lia; rewrite Z.pow_add_r by lia; reflexivity).
      nia. }
    unfold fexp, emin, prec, emax in Hinf. lia.
  - right. exists m', e'. split; [reflexivity | ]. split; [exact Hb' | ].
    assert (HE : 0 < 2 ^ (e' - f)) by (apply Z.pow_pos_nonneg; lia).
    destruct (Z.le_gt_cases 0 e') as [Hpos | Hlt].
    + exfalso. destruct (valid_mantissa s m' e' Hb') as [_ Hbig].
      specialize (Hbig Hpos).
      assert (2 ^ (- f) <= 2 ^ (e' - f)) by (apply Z.pow_le_mono_r; lia).
      assert (H52 : 2 ^ 52 = 4503599627370496) by reflexivity. rewrite H52 in Hbig.
      assert (Z.pos m' * 2 ^ (- f) <= Z.pos m' * 2 ^ (e' - f))
        by (apply Z.mul_le_mono_nonneg_l; lia).
      nia.
    + split; [lia | ].
      assert (Hp : 2 ^ (- f) = 2 ^ (- e') * 2 ^ (e' - f))
        by (rewrite <- Z.pow_add_r by lia; f_equal; lia).
      rewrite Hp in Hk. rewrite Hkm in Hk.
      assert (0 < 2 ^ (- e')) by (apply Z.pow_pos_nonneg; lia).
      nia.
Qed.

(** A positive number below 2, times 127.5, rounds to at most 255. *)
Lemma fmul_below_two (m : positive) (e : Z) :
  bounded prec emax m e = true -> Zpos (digits2_pos m) + e <= 1 ->
  fmul (S754_finite false m e) lit_127_5 = pzero
  \/ exists m' e', fmul (S754_finite false m e) lit_127_5 = S754_finite false m' e'
                   /\ bounded prec emax m' e' = true
                   /\ e' < 0 /\ Zpos m' <= 255 * 2 ^ (- e').
Proof.
  intros Hb Hde. rewrite lit_127_5_eq. unfold fmul, SFmul. cbn [xorb].
  destruct (bounded_inv _ _ _ _ Hb) as [Hc _].
  pose proof (digits2_bounds m) as [Hlo Hhi].
  pose proof (Zpos_digits2_mul m 8972014882652160) as Hdlo.
  change (Z.pos (digits2_pos 8972014882652160)) with 53 in Hdlo.
  set (d := Z.pos (digits2_pos m)) in *.
  assert (Hd : 1 <= d <= 53) by (unfold d, fexp, emin, prec, emax in *; lia).
  apply binary_round_aux_below; [lia | | lia | ].
  - unfold fexp, emin, prec, emax in *. lia.
  - rewrite Pos2Z.inj_mul. change (Z.pos 8972014882652160) with (255 * 2 ^ 45).
    assert (Hp : 2 ^ (- (e + -46)) = 2 ^ (1 - e) * 2 ^ 45)
      by (rewrite <- Z.pow_add_r by lia; f_equal; lia).
    rewrite Hp.
    assert (Z.pos m < 2 ^ (1 - e))
      by (apply Z.lt_le_trans with (2 ^ d); [exact Hhi | apply Z.pow_le_mono_r; lia]).
    assert (H45 : 2 ^ 45 = 35184372088832) by reflexivity. rewrite H45. lia.
Qed.

(** The value [Math.round((sample + 1) * 127.5)] of a clamped sample is an
    integer between 0 and 255. *)
Lemma pcm_value_range (x : number) :
  valid x -> is_nan x = false ->
  exists w, 0 <= w <= 255 /\ index_number (pcm_value x) w.
Proof.
  intros Hv Hn. destruct (clamp_spec x Hn) as (_ & H1 & H2).
  pose proof (valid_clamp x Hv) as Hvc. unfold pcm_value.
  destruct (fadd_clamped_one (clamp x) Hvc H1 H2)
    as [-> | [-> | (m & e & -> & Hb & Hde)]].
  - exists 0. split; [lia | ]. right. split; [reflexivity | ]. now exists false.
  - exists 255. split; [lia | ]. left. split; [lia | ]. reflexivity.
  - destruct (fmul_below_two m e Hb Hde) as [-> | (m' & e' & -> & Hb' & He' & Hm')].
    + exists 0. split; [lia | ]. right. split; [reflexivity | ]. now exists false.
    + unfold Math_round. destruct (Z.leb_spec 0 e') as [ | _]; [lia | ].
      cbn [signed cond_Zopp]. rewrite Z.shiftr_div_pow2 by lia.
      assert (HP : 0 < 2 ^ (- e')) by (apply Z.pow_pos_nonneg; lia).
      assert (Hp : 2 ^ (- e' + 1) = 2 ^ (- e') * 2)
        by (rewrite Z.pow_add_r by lia; reflexivity).
      rewrite Hp.
      set (q := (2 * Z.pos m' + 2 ^ (- e')) / (2 ^ (- e') * 2)).
      assert (Hq : 0 <= q <= 255).
      { split.
        - apply Z.div_pos; lia.
        - assert (q < 256); [ | lia]. apply Z.div_lt_upper_bound; lia. }
      exists q. split; [exact Hq | ].
      destruct q as [ | p | p] eqn:Hqe; try lia.
      * right. split; [reflexivity | ]. now exists false.
      * left. split; [lia | reflexivity].
Qed.

(** The conversion of that value to a byte keeps it as it is. *)
Lemma ToUint8_index (x : number) (w : Z) :
  index_number x w -> 0 <= w <= 255 -> ToUint8 x = w.
Proof.
  intros Hi Hw. unfold ToUint8.
  rewrite (index_number_truncate x w Hi) by (change (2 ^ 53) with 9007199254740992; lia).
  apply Z.mod_small. change (2 ^ 8) with 256. lia.
Qed.

(** The interpolated sample is a number in canonical form. *)
Lemma valid_interpolate (sourceData : list number) (sourceIndex : number) :
  (forall i s, sourceData !! i = Some s -> valid s) -> valid sourceIndex ->
  valid (interpolate sourceData sourceIndex).
Proof.
  intros Hdata Hidx. unfold interpolate.
  assert (Hget : forall k, valid (to_number (TypedArray.get sourceData k))).
  { intros k. unfold TypedArray.get.
    destruct k as [s | s | | [] m e]; try reflexivity.
    - destruct (sourceData !! 0%nat) eqn:H0; [eapply Hdata; eauto | reflexivity].
    - destruct (is_integral _); [ | reflexivity].
      destruct (sourceData !! _) eqn:H0; [eapply Hdata; eauto | reflexivity]. }
  assert (Hone : valid one) by apply valid_of_Z_any.
  pose proof (valid_Math_floor _ Hidx) as Hfl.
  pose proof (valid_fsub _ _ Hidx Hfl) as Hfr.
  destruct (flt _ _).
  - apply valid_fadd; apply valid_fmul; auto using valid_fsub.
  - specialize (Hget (Math_floor sourceIndex)).
    destruct (TypedArray.get sourceData (Math_floor sourceIndex)) as [[] | ];
      try reflexivity; exact Hget.
Qed.

(** X16. The value [convertToPCM] stores in a byte never wraps around: for a
    buffer as the platform builds them and a target rate that is a number in
    canonical form, [Math.round((sample + 1) * 127.5)] of the clamped sample
    is itself an integer between 0 and 255, and that integer is the byte;
    only a NaN sample has no such value, and its byte is 0. *)
Theorem convertToPCM_no_wrap (audioBuffer : AudioBuffer.t) (options : PCMOptions)
  (sourceData : list number) (bytes : list Z) (i : nat) (byte : Z) :
  wf_buffer audioBuffer = true -> valid (pcm_sampleRate options) ->
  AudioBuffer.channels audioBuffer !! 0%nat = Some sourceData ->
  convertToPCM audioBuffer options = Returns bytes ->
  bytes !! i = Some byte ->
  let sample :=
    interpolate sourceData
      (fdiv (fmul (of_nat i) (AudioBuffer.sampleRate audioBuffer)) (pcm_sampleRate options)) in
  0 <= byte <= 255
  /\ if is_nan sample then byte = 0
     else truncate (pcm_value sample) = Some byte
          /\ is_integral (pcm_value sample) = true.
Proof.
  intros Hwf Hrate Hsrc Hret Hi sample.
  destruct (convertToPCM_Returns _ _ _ Hret) as (sourceData' & pcmData & Hsrc' & _ & ->).
  rewrite Hsrc in Hsrc'. injection Hsrc' as <-.
  change (map ?f ?l) with (f <$> l) in Hi. rewrite list_lookup_fmap in Hi.
  destruct (seq 0 (length pcmData) !! i) as [j | ] eqn:Hj; [ | discriminate].
  apply lookup_seq in Hj as [-> _]. change (0 + i)%nat with i in Hi.
  cbn [fmap option_fmap option_map] in Hi. injection Hi as <-.
  unfold pcm_byte. fold sample.
  assert (Hv : valid sample).
  { apply valid_interpolate.
    - intros k s Hs. now destruct (wf_channel_data _ (wf_buffer_inv _ Hwf) _ _ Hsrc) as [_ H];
        destruct (H _ _ Hs).
    - apply valid_fdiv; [ | exact Hrate].
      apply valid_fmul; [apply valid_of_Z_any | now apply wf_rate_valid]. }
  destruct (is_nan sample) eqn:Hn.
  - destruct sample; try discriminate. split; [ | reflexivity]. vm_compute. split; discriminate.
  - destruct (pcm_value_range sample Hv Hn) as (w & Hw & Hidx).
    rewrite (ToUint8_index _ w Hidx Hw). split; [exact Hw | ]. split.
    + apply index_number_truncate; [exact Hidx | ].
      change (2 ^ 53) with 9007199254740992. lia.
    + destruct Hidx as [[Hpos ->] | [_ [s ->]]]; [ | reflexivity].
      apply is_integral_of_Z. change (2 ^ 53) with 9007199254740992. lia.
Qed.

Lemma convertToPCM_no_wrap_witness :
  convertToPCM eight_samples {| pcm_sampleRate := of_Z 16000 |} = Returns [128; 110]
  /\ truncate
       (pcm_value
          (interpolate [pzero; half; one; fneg half; fneg one; of_Z 2; of_Z 3; of_Z 4]
             (fdiv (fmul (of_nat 1) (of_Z 44100)) (of_Z 16000))))
     = Some 110.
Proof.
  assert (Hwf : wf_buffer eight_samples = true) by (vm_compute; reflexivity).
  assert (Hret : convertToPCM eight_samples {| pcm_sampleRate := of_Z 16000 |}
                 = Returns [128; 110]) by (vm_compute; reflexivity).
  split; [exact Hret | ].
  pose proof (convertToPCM_no_wrap eight_samples {| pcm_sampleRate := of_Z 16000 |}
                [pzero; half; one; fneg half; fneg one; of_Z 2; of_Z 3; of_Z 4]
                [128; 110] 1%nat 110 Hwf (valid_of_Z_any 16000) eq_refl Hret eq_refl)
    as [_ H].
  assert (Hn : is_nan
                 (interpolate [pzero; half; one; fneg half; fneg one; of_Z 2; of_Z 3; of_Z 4]
                    (fdiv (fmul (of_nat 1) (AudioBuffer.sampleRate eight_samples))
                          (pcm_sampleRate {| pcm_sampleRate := of_Z 16000 |})))
               = false) by (vm_compute; reflexivity).
  rewrite Hn in H. exact (proj1 H).
Defined.

(** ** normalizeAudio keeps channel 0 within [-1, 1] *)

(** A finite binary32 value other than zero is a normal binary64 number. *)
Lemma float32_normal (s : bool) (m : positive) (e : Z) :
  fround (S754_finite s m e) = S754_finite s m e ->
  2 ^ 52 <= Zpos m < 2 ^ 53 /\ -201 <= e <= 75.
Proof.
  unfold fround.
  destruct (binary_round_cases 24 128 s m e ltac:(lia))
    as [-> | [[-> _] | (m' & e' & -> & Hb & _)]]; try discriminate.
  destruct (binary32_to_binary64 s m' e' Hb) as (m3 & e3 & -> & Hb3 & He3 & Hm3).
  intros H. injection H as <- <-.
  destruct (bounded_inv _ _ _ _ Hb) as [Hc Hmax].
  pose proof (digits2_bounds m') as [Hlo Hhi].
  set (d := Zpos (digits2_pos m')) in *.
  assert (Hd : 1 <= d <= 24) by (unfold d, fexp, emin in *; lia).
  assert (He : -149 <= e' <= 104) by (unfold fexp, emin in Hc; lia).
  assert (Hp : 2 ^ (d - 1) * 2 ^ (53 - d) = 2 ^ 52)
    by (rewrite <- Z.pow_add_r by lia; f_equal; lia).
  assert (Hq : 2 ^ d * 2 ^ (53 - d) = 2 ^ 53)
    by (rewrite <- Z.pow_add_r by lia; f_equal; lia).
  assert (0 < 2 ^ (53 - d)) by (apply Z.pow_pos_nonneg; lia).
  rewrite Hm3. split; [ | lia]. rewrite <- Hp, <- Hq. split.
  - apply Z.mul_le_mono_nonneg_r; lia.
  - apply Z.mul_lt_mono_pos_r; lia.
Qed.

Lemma lit_0_95_eq : lit_0_95 = S754_finite false 8556839292003942 (-53).
Proof. reflexivity. Qed.

(** A sample no larger than the peak, times the gain [0.95 / peak], stays
    between -1 and 1: the quotient is rounded to nearest, so the exact
    product is below 0.95 + 2^-52. *)
Lemma scaled_sample_range (ss : bool) (Ms Mm : positive) (es em : Z) :
  2 ^ 52 <= Zpos Ms < 2 ^ 53 -> 2 ^ 52 <= Zpos Mm < 2 ^ 53 ->
  -201 <= es <= 75 -> -201 <= em <= 75 ->
  es < em \/ (es = em /\ Zpos Ms <= Zpos Mm) ->
  let y := fmul (S754_finite ss Ms es) (fdiv lit_0_95 (S754_finite false Mm em)) in
  fle y one = true /\ fle (of_Z (-1)) y = true.
Proof.
  intros HMs HMm Hes Hem Hord. cbv zeta. rewrite lit_0_95_eq.
  assert (H52 : 2 ^ 52 = 4503599627370496) by reflexivity.
  assert (H53 : 2 ^ 53 = 9007199254740992) by reflexivity.
  destruct (fdiv_nearest 8556839292003942 Mm (-53) em)
    as (k & n & m' & e' & Hn & Hk52 & Hup & _ & _ & -> & Hb & Hge & Hkm);
    [rewrite H52, H53; lia | exact HMm | lia | ].
  unfold fmul, SFmul. rewrite xorb_false_r.
  set (g := -53 - em - 53 + n) in *.
  assert (HJ : 0 < 2 ^ (e' - g)) by (apply Z.pow_pos_nonneg; lia).
  assert (HP : 0 < 2 ^ n) by (apply Z.pow_pos_nonneg; lia).
  assert (HX : 0 < 2 ^ (em - es)) by (apply Z.pow_pos_nonneg; lia).
  assert (Hn2 : 2 ^ n <= 2) by (change 2 with (2 ^ 1) at 2; apply Z.pow_le_mono_r; lia).
  (* the sample is at most the peak *)
  assert (Hle : Z.pos Ms <= Z.pos Mm * 2 ^ (em - es)).
  { destruct Hord as [Hlt | [-> Hm]].
    - assert (2 ^ 1 <= 2 ^ (em - es)) by (apply Z.pow_le_mono_r; lia).
      change (2 ^ 1) with 2 in *. rewrite H52, H53 in *. nia.
    - rewrite Z.sub_diag. change (2 ^ 0) with 1. lia. }
  (* the peak times the gain is below 1 *)
  assert (Hgain : k * Z.pos Mm * 2 ^ n < 2 ^ 106).
  { assert (H106 : 2 ^ 106 = 9007199254740992 * 9007199254740992) by reflexivity.
    rewrite H106. rewrite H53 in *. nia. }
  assert (Hub : e' - g <= 53).
  { destruct (Z.le_gt_cases (e' - g) 53) as [ | Hgt]; auto. exfalso.
    assert (2 ^ 54 <= 2 ^ (e' - g)) by (apply Z.pow_le_mono_r; lia).
    assert (H54 : 2 ^ 54 = 18014398509481984) by reflexivity.
    assert (H106 : 2 ^ 106 = 4503599627370496 * 18014398509481984) by reflexivity.
    rewrite H54, H106, H52 in *. nia. }
  assert (Hexp : 2 ^ (- (es + e')) * (2 ^ (e' - g) * 2 ^ n) = 2 ^ (em - es) * 2 ^ 106).
  { rewrite <- !Z.pow_add_r by lia. f_equal. unfold g. lia. }
  assert (Hprod : Z.pos (Ms * m') < 1 * 2 ^ (- (es + e'))).
  { rewrite Z.mul_1_l, Pos2Z.inj_mul.
    apply (Z.mul_lt_mono_pos_r (2 ^ (e' - g) * 2 ^ n)); [lia | ].
    rewrite Hexp.
    replace (Z.pos Ms * Z.pos m' * (2 ^ (e' - g) * 2 ^ n))
      with (Z.pos Ms * (k * 2 ^ n)) by (rewrite Hkm; ring).
    apply Z.le_lt_trans with (Z.pos Mm * 2 ^ (em - es) * (k * 2 ^ n)).
    - apply Z.mul_le_mono_nonneg_r; [lia | exact Hle].
    - replace (Z.pos Mm * 2 ^ (em - es) * (k * 2 ^ n))
        with (2 ^ (em - es) * (k * Z.pos Mm * 2 ^ n)) by ring.
      apply Z.mul_lt_mono_pos_l; [exact HX | exact Hgain]. }
  (* the gain is a normal number *)
  destruct (bounded_inv _ _ _ _ Hb) as [Hc _].
  assert (Hdm' : Z.pos (digits2_pos m') = 53)
    by (unfold fexp, emin, prec, emax, g in *; lia).
  pose proof (Zpos_digits2_mul Ms m') as Hdlo. rewrite Hdm' in Hdlo.
  rewrite (digits2_unique Ms 53) in Hdlo by (change (2 ^ (53 - 1)) with (2 ^ 52); lia).
  assert (He0 : es + e' <= 0).
  { destruct (Z.le_gt_cases (es + e') 0) as [ | Hgt]; auto. exfalso.
    rewrite Z.pow_neg_r in Hprod by lia. lia. }
  destruct (binary_round_aux_below ss (Ms * m') (es + e') 1 ltac:(lia)) as
    [-> | (m2 & e2 & -> & Hb2 & He2 & Hm2)];
    [unfold fexp, emin, prec, emax; lia | exact He0 | exact Hprod | | ].
  - now destruct ss.
  - apply fle_one_of_magnitude.
    destruct (bounded_inv _ _ _ _ Hb2) as [Hc2 _].
    pose proof (digits2_bounds m2) as [Hlo2 Hhi2].
    destruct (Z.le_gt_cases (53 + e2) 0) as [ | Hgt]; [now left | right].
    assert (Hd2 : Z.pos (digits2_pos m2) = 53)
      by (unfold fexp, emin, prec, emax in *; lia).
    rewrite Hd2 in Hlo2. change (2 ^ (53 - 1)) with (2 ^ 52) in Hlo2.
    rewrite Z.mul_1_l in Hm2.
    assert (2 ^ (- e2) <= 2 ^ 52) by (apply Z.pow_le_mono_r; lia).
    assert (He52 : e2 = -52).
    { destruct (Z.eq_dec e2 (-52)) as [ | Hne]; auto. exfalso.
      assert (2 ^ (- e2) <= 2 ^ 51) by (apply Z.pow_le_mono_r; lia).
      assert (H51 : 2 ^ 51 = 2251799813685248) by reflexivity.
      rewrite H51, H52 in *. lia. }
    split; lia.
Qed.

Lemma fle_finite_order (Ms Mm : positive) (es em : Z) :
  fle (S754_finite false Ms es) (S754_finite false Mm em) = true ->
  es < em \/ (es = em /\ Zpos Ms <= Zpos Mm).
Proof.
  intros H. apply fle_key in H as (_ & _ & [Hlt | Heq]).
  - unfold lex_lt, order_key in Hlt. lia.
  - unfold order_key in Heq. injection Heq as -> Hm. right. lia.
Qed.

Lemma feq_zero (x : number) : feq x pzero = true -> exists s, x = S754_zero s.
Proof.
  destruct x as [s | [] | | [] m e]; try discriminate; eauto.
Qed.

(** X17. [normalizeAudio] never clips: for a buffer of finite samples, every
    sample of channel 0 of the buffer it returns lies between -1 and 1,
    whatever the input level was (the peak is brought to 0.95; a silent
    channel is returned as it is). *)
Theorem normalizeAudio_no_clipping (h h' : Heap) (r r' : Ref) (b b' : AudioBuffer.t) :
  h !! r = Some b -> wf_buffer b = true -> finite_samples b = true ->
  normalizeAudio h r = Returns (r', h') -> h' !! r' = Some b' ->
  forall (i : nat) (s : number),
    sample b' 0 i = Some s -> fle (of_Z (-1)) s = true /\ fle s one = true.
Proof.
  intros Hr Hwf Hfin Hret Hr' i s Hs.
  pose proof (wf_buffer_inv b Hwf) as Hf.
  destruct (wf_channel_0 b Hwf) as (channelData & Hsrc & _).
  destruct (AudioBuffer.channels b) as [ | c0 others] eqn:Hch; [discriminate | ].
  injection Hsrc as ->.
  assert (Hsrc : AudioBuffer.channels b !! 0%nat = Some channelData) by now rewrite Hch.
  destruct (wf_channel_data b Hf 0%nat channelData Hsrc) as [_ Hdata].
  assert (Hall : forall j x, channelData !! j = Some x -> is_finite x = true).
  { intros j x Hx. apply (sample_finite b 0 j x Hfin). unfold sample. now rewrite Hsrc. }
  assert (Hnan : Forall (fun x => is_nan x = false) channelData).
  { apply Forall_lookup. intros j x Hx. specialize (Hall j x Hx). now destruct x. }
  destruct (find_peak_spec channelData Hnan) as [Hle Hpeak].
  rewrite (normalizeAudio_spec h r b channelData others Hr Hwf Hch) in Hret.
  destruct (feq (find_peak channelData) pzero) eqn:Hz.
  - (* a silent channel: the buffer itself *)
    injection Hret as <- <-. rewrite Hr in Hr'. injection Hr' as <-.
    unfold sample in Hs. rewrite Hsrc in Hs.
    destruct (feq_zero _ Hz) as [sg Hmax].
    rewrite Forall_lookup in Hle. specialize (Hle i s Hs). rewrite Hmax in Hle.
    destruct s as [[] | [] | | [] m e], sg; try discriminate; split; reflexivity.
  - injection Hret as <- <-.
    rewrite lookup_app_r, Nat.sub_diag in Hr' by lia. injection Hr' as <-.
    unfold sample in Hs. cbn [AudioBuffer.channels lookup list_lookup] in Hs.
    unfold normalized in Hs. change (map ?f ?l) with (f <$> l) in Hs.
    rewrite list_lookup_fmap in Hs.
    destruct (channelData !! i) as [s0 | ] eqn:Hs0; [ | discriminate].
    cbn [fmap option_fmap option_map] in Hs. injection Hs as <-.
    (* the peak is the magnitude of a sample other than zero *)
    destruct Hpeak as [Hp0 | Hex]; [rewrite Hp0 in Hz; discriminate | ].
    apply Exists_exists in Hex as (s1 & Hin & Hmax).
    apply list_elem_of_lookup_1 in Hin as [j Hj].
    destruct (Hdata j s1 Hj) as [Hv1 Hf1]. pose proof (Hall j s1 Hj) as Hfin1.
    destruct s1 as [sg | sg | | sg Mm em]; try discriminate.
    { rewrite Hmax in Hz. discriminate. }
    destruct (float32_normal sg Mm em Hf1) as [HMm Hem].
    simpl Math_abs in Hmax.
    rewrite Forall_lookup in Hle. specialize (Hle i s0 Hs0). rewrite Hmax in *.
    destruct (Hdata i s0 Hs0) as [Hv0 Hf0]. pose proof (Hall i s0 Hs0) as Hfin0.
    assert (Hvg : valid (fdiv lit_0_95 (S754_finite false Mm em))).
    { apply valid_fdiv; [reflexivity | exact Hv1]. }
    assert (Hrange : fle (fmul s0 (fdiv lit_0_95 (S754_finite false Mm em))) one = true
                     /\ fle (of_Z (-1)) (fmul s0 (fdiv lit_0_95 (S754_finite false Mm em)))
                        = true).
    { destruct s0 as [s0 | s0 | | ss Ms es];
        [ | discriminate Hfin0 | discriminate Hfin0 | ].
      - assert (H52 : 2 ^ 52 = 4503599627370496) by reflexivity.
        assert (H53 : 2 ^ 53 = 9007199254740992) by reflexivity.
        rewrite lit_0_95_eq.
        destruct (fdiv_nearest 8556839292003942 Mm (-53) em)
          as (k & n & m' & e' & _ & _ & _ & _ & _ & -> & _);
          [rewrite H52, H53; lia | exact HMm | lia | ].
        unfold fmul. cbn [SFmul xorb]. destruct s0; split; reflexivity.
      - destruct (float32_normal ss Ms es Hf0) as [HMs Hes].
        apply scaled_sample_range; auto.
        apply fle_finite_order. exact Hle. }
    destruct Hrange as [H1 H2].
    destruct (fround_range _ (valid_fmul _ _ Hv0 Hvg) H1 H2). auto.
Qed.

Lemma normalizeAudio_no_clipping_witness :
  normalizeAudio [eight_samples] 0
  = Returns (1%nat,
             [eight_samples;
              mono_buffer (map (fun s => fround (fmul s (fdiv lit_0_95 (of_Z 4))))
                             [pzero; half; one; fneg half; fneg one; of_Z 2; of_Z 3; of_Z 4])])
  /\ fle (of_Z (-1)) (fround (fmul (of_Z 4) (fdiv lit_0_95 (of_Z 4)))) = true
  /\ fle (fround (fmul (of_Z 4) (fdiv lit_0_95 (of_Z 4)))) one = true.
Proof.
  assert (Hwf : wf_buffer eight_samples = true) by (vm_compute; reflexivity).
  assert (Hfin : finite_samples eight_samples = true) by (vm_compute; reflexivity).
  assert (Hret : normalizeAudio [eight_samples] 0
                 = Returns (1%nat,
                     [eight_samples;
                      mono_buffer (map (fun s => fround (fmul s (fdiv lit_0_95 (of_Z 4))))
                         [pzero; half; one; fneg half; fneg one; of_Z 2; of_Z 3; of_Z 4])]))
    by (vm_compute; reflexivity).
  split; [exact Hret | ].
  exact (normalizeAudio_no_clipping [eight_samples] _ 0%nat 1%nat eight_samples _
           eq_refl Hwf Hfin Hret eq_refl 7%nat _ eq_refl).
Defined.

(** ** The end of the trim from 0 to the duration *)

(** Two roundings to nearest, of a quotient [k ~ L*T / W] and then of the
    product [k2 ~ N2 / P2] that undoes it, stay within one unit of [L] on
    the grid [A] of the result. *)
Lemma nearest_twice (L T W k N2 Q E0 P2 A k2 : Z) :
  0 < T -> 0 < Q -> 0 < P2 -> 0 < A ->
  N2 * Q = k * W -> E0 * Q = T -> A * P2 = E0 ->
  2 * (k * W - L * T) <= W -> 2 * (L * T - k * W) <= W ->
  2 * (k2 * P2 - N2) <= P2 -> 2 * (N2 - k2 * P2) <= P2 ->
  W + P2 * Q < 2 * T ->
  (L - 1) * A <= k2 < (L + 1) * A.
Proof.
  intros HT HQ HP2 HA HN2 HE0 HAP Hq1 Hq2 Hp1 Hp2 Hsmall.
  assert (Hup : 2 * (k2 * P2 * Q - k * W) <= P2 * Q).
  { rewrite <- HN2. replace (2 * (k2 * P2 * Q - N2 * Q)) with (2 * (k2 * P2 - N2) * Q) by ring.
    apply Z.mul_le_mono_nonneg_r; lia. }
  assert (Hdown : 2 * (k * W - k2 * P2 * Q) <= P2 * Q).
  { rewrite <- HN2. replace (2 * (N2 * Q - k2 * P2 * Q)) with (2 * (N2 - k2 * P2) * Q) by ring.
    apply Z.mul_le_mono_nonneg_r; lia. }
  assert (HAT : A * (P2 * Q) = T) by (rewrite <- HE0, <- HAP; ring).
  assert (HPQ : 0 < P2 * Q) by (apply Z.mul_pos_pos; lia).
  split.
  - destruct (Z.le_gt_cases ((L - 1) * A) k2) as [ | Hgt]; auto. exfalso.
    assert ((k2 + 1) * (P2 * Q) <= (L - 1) * A * (P2 * Q))
      by (apply Z.mul_le_mono_nonneg_r; lia).
    replace ((L - 1) * A * (P2 * Q)) with ((L - 1) * (A * (P2 * Q))) in H by ring.
    rewrite HAT in H. lia.
  - destruct (Z.lt_ge_cases k2 ((L + 1) * A)) as [ | Hge]; auto. exfalso.
    assert ((L + 1) * A * (P2 * Q) <= k2 * (P2 * Q))
      by (apply Z.mul_le_mono_nonneg_r; lia).
    replace ((L + 1) * A * (P2 * Q)) with ((L + 1) * (A * (P2 * Q))) in H by ring.
    rewrite HAT in H. lia.
Qed.

(** [floor((L / R) * R)] in double precision is [L] or [L - 1], for a count
    [L] below 2^32 and a sample rate [R] between 8000 and 96000 Hz. *)
Lemma floor_quotient_times (L : Z) (Mr : positive) (er : Z) :
  1 <= L < 2 ^ 32 -> 2 ^ 52 <= Zpos Mr < 2 ^ 53 -> -40 <= er <= -36 ->
  exists e : Z,
    truncate (Math_floor (fmul (fdiv (of_Z L) (S754_finite false Mr er))
                               (S754_finite false Mr er))) = Some e
    /\ L - 1 <= e <= L.
Proof.
  intros HL HMr Her.
  assert (H32 : 2 ^ 32 = 4294967296) by reflexivity.
  assert (H52 : 2 ^ 52 = 4503599627370496) by reflexivity.
  assert (H53 : 2 ^ 53 = 9007199254740992) by reflexivity.
  destruct (of_Z_canonical L) as (ma & ea & Heqa & _ & Hea & Hma & Hma');
    [rewrite H32, H53 in *; lia | ].
  pose proof (of_Z_exponent L ma ea ltac:(lia) Hma Hea ltac:(lia)) as Hea52.
  assert (Hea21 : ea <= -21).
  { destruct (Z.le_gt_cases ea (-21)) as [ | Hgt]; auto. exfalso.
    assert (2 ^ (- ea) <= 2 ^ 20) by (apply Z.pow_le_mono_r; lia).
    assert (H20 : 2 ^ 20 = 1048576) by reflexivity.
    assert (L * 2 ^ (- ea) <= L * 2 ^ 20) by (apply Z.mul_le_mono_nonneg_l; lia).
    rewrite H20, H32, H52 in *. lia. }
  rewrite Heqa.
  destruct (fdiv_nearest ma Mr ea er Hma' HMr ltac:(lia))
    as (k & n & m' & e' & Hn & Hk & Hup & Hdown & _ & -> & Hbd & Hle & Hval).
  unfold fmul, SFmul. cbn [xorb].
  set (g := ea - er - 53 + n) in *.
  set (W := Z.pos Mr * 2 ^ n) in *.
  assert (HP : 0 < 2 ^ n) by (apply Z.pow_pos_nonneg; lia).
  assert (Hn2 : 2 ^ n <= 2) by (change 2 with (2 ^ 1) at 2; apply Z.pow_le_mono_r; lia).
  assert (HW : 2 ^ 52 <= W < 2 ^ 54).
  { unfold W. change (2 ^ 54) with (2 ^ 53 * 2). rewrite H52, H53 in *. nia. }
  assert (HJ : 0 < 2 ^ (e' - g)) by (apply Z.pow_pos_nonneg; lia).
  (* the quotient is a normal number *)
  destruct (bounded_inv _ _ _ _ Hbd) as [Hc _].
  pose proof (digits2_bounds m') as [Hlo' Hhi'].
  assert (Hdm' : Z.pos (digits2_pos m') = 53)
    by (unfold fexp, emin, prec, emax, g in *; lia).
  rewrite Hdm' in Hlo', Hhi'. change (2 ^ (53 - 1)) with (2 ^ 52) in Hlo'.
  (* and its exponent is that of the exact quotient, or little above *)
  assert (Hk55 : k < 2 ^ 55).
  { destruct (Z.lt_ge_cases k (2 ^ 55)) as [ | Hge]; auto. exfalso.
    assert (2 ^ 55 * W <= k * W) by (apply Z.mul_le_mono_nonneg_r; lia).
    assert (2 ^ 55 * 2 ^ 52 <= 2 ^ 55 * W) by (apply Z.mul_le_mono_nonneg_l; lia).
    assert (Z.pos ma * 2 ^ 53 < 2 ^ 53 * 2 ^ 53) by (apply Z.mul_lt_mono_pos_r; lia).
    change (2 ^ 55) with 36028797018963968 in *. change (2 ^ 54) with 18014398509481984 in *.
    rewrite H52, H53 in *. lia. }
  assert (Hub : e' - g <= 2).
  { destruct (Z.le_gt_cases (e' - g) 2) as [ | Hgt]; auto. exfalso.
    assert (2 ^ 3 <= 2 ^ (e' - g)) by (apply Z.pow_le_mono_r; lia).
    assert (2 ^ 52 * 2 ^ 3 <= Z.pos m' * 2 ^ (e' - g)).
    { apply Z.mul_le_mono_nonneg; lia. }
    change (2 ^ 55) with (2 ^ 52 * 2 ^ 3) in Hk55. lia. }
  (* the product, rounded *)
  pose proof (Zpos_digits2_mul m' Mr) as Hdlo. rewrite Hdm' in Hdlo.
  rewrite (digits2_unique Mr 53) in Hdlo by (change (2 ^ (53 - 1)) with (2 ^ 52); lia).
  pose proof (digits2_bounds (m' * Mr)) as [HloN HhiN].
  set (dN := Z.pos (digits2_pos (m' * Mr))) in *.
  assert (HdN : dN <= 106).
  { destruct (Z.le_gt_cases dN 106) as [ | Hgt]; auto. exfalso.
    assert (2 ^ 106 <= 2 ^ (dN - 1)) by (apply Z.pow_le_mono_r; lia).
    rewrite Pos2Z.inj_mul in HloN.
    assert (Z.pos m' * Z.pos Mr < 2 ^ 53 * 2 ^ 53) by (apply Z.mul_lt_mono_nonneg; lia).
    change (2 ^ 106) with (2 ^ 53 * 2 ^ 53) in *. lia. }
  set (e0 := e' + er).
  assert (Hf2 : fexp prec emax (dN + e0) = dN + e0 - 53)
    by (unfold fexp, emin, prec, emax, e0, g in *; lia).
  destruct (binary_round_aux_nearest prec emax ltac:(reflexivity) false
              (Z.pos (m' * Mr)) e0 loc_Exact (Z.pos (m' * Mr)) 1 ltac:(lia)
              ltac:(change (Zdigits2 (Z.pos (m' * Mr))) with dN; rewrite Hf2; lia)
              ltac:(lia) (located_of_loc_Exact _))
    as (k2 & Hk20 & Hp1 & Hp2 & _ & Hres).
  change (Zdigits2 (Z.pos (m' * Mr))) with dN in *. rewrite Hf2 in *.
  set (f2 := dN + e0 - 53) in *.
  replace (f2 - e0) with (dN - 53) in * by (unfold f2; lia).
  rewrite !Z.mul_1_l in Hp1, Hp2.
  assert (Hf2neg : f2 <= -18) by (unfold f2, e0, g in *; lia).
  assert (HA : 0 < 2 ^ (- f2)) by (apply Z.pow_pos_nonneg; lia).
  assert (HP2 : 0 < 2 ^ (dN - 53)) by (apply Z.pow_pos_nonneg; lia).
  assert (HT : 2 ^ 74 <= 2 ^ (53 - ea)) by (apply Z.pow_le_mono_r; lia).
  assert (He0neg : e0 < 0) by (unfold e0, g in *; lia).
  assert (HT0 : 0 < 2 ^ (53 - ea)) by (apply Z.pow_pos_nonneg; lia).
  assert (HQ : 0 < 2 ^ (e' - g) * 2 ^ n) by (apply Z.mul_pos_pos; lia).
  assert (HN2 : Z.pos (m' * Mr) * (2 ^ (e' - g) * 2 ^ n) = k * W)
    by (rewrite Pos2Z.inj_mul, Hval; unfold W; ring).
  assert (HE0 : 2 ^ (- e0) * (2 ^ (e' - g) * 2 ^ n) = 2 ^ (53 - ea)).
  { rewrite <- !Z.pow_add_r by lia. f_equal. unfold e0, g. lia. }
  assert (HAP : 2 ^ (- f2) * 2 ^ (dN - 53) = 2 ^ (- e0)).
  { rewrite <- Z.pow_add_r by lia. f_equal. unfold f2. lia. }
  assert (HLT : L * 2 ^ (53 - ea) = Z.pos ma * 2 ^ 53).
  { rewrite Hma. replace (53 - ea) with (- ea + 53) by lia.
    rewrite Z.pow_add_r by lia. ring. }
  assert (Hq1 : 2 * (k * W - L * 2 ^ (53 - ea)) <= W) by (rewrite HLT; exact Hup).
  assert (Hq2 : 2 * (L * 2 ^ (53 - ea) - k * W) <= W) by (rewrite HLT; exact Hdown).
  assert (Hsmall : W + 2 ^ (dN - 53) * (2 ^ (e' - g) * 2 ^ n) < 2 * 2 ^ (53 - ea)).
  { assert (Hpq : 2 ^ (dN - 53) * (2 ^ (e' - g) * 2 ^ n) <= 2 ^ 56).
    { rewrite <- !Z.pow_add_r by lia. apply Z.pow_le_mono_r; lia. }
    change (2 ^ 74) with 18889465931478580854784 in HT.
    change (2 ^ 56) with 72057594037927936 in Hpq.
    change (2 ^ 54) with 18014398509481984 in HW. lia. }
  pose proof (nearest_twice L (2 ^ (53 - ea)) W k (Z.pos (m' * Mr)) (2 ^ (e' - g) * 2 ^ n)
                (2 ^ (- e0)) (2 ^ (dN - 53)) (2 ^ (- f2)) k2
                HT0 HQ HP2 HA HN2 HE0 HAP Hq1 Hq2 Hp1 Hp2 Hsmall) as Hrange.
  destruct Hrange as [Hlow Hhigh].
  assert (HLA : (L + 1) * 2 ^ (- f2) <= 2 ^ 33 * 2 ^ (- f2)).
  { apply Z.mul_le_mono_nonneg_r; [lia | ]. change (2 ^ 33) with 8589934592.
    rewrite H32 in HL. lia. }
  destruct Hres as [[Hk2z ->] | [(_ & _ & Hinf) | (m2 & e2 & -> & Hb2 & Hfe & Hkm2)]].
  - exists 0. split; [reflexivity | ]. subst k2.
    assert (L - 1 <= 0); [ | lia].
    destruct (Z.le_gt_cases (L - 1) 0) as [ | Hgt]; auto. exfalso.
    assert (1 * 2 ^ (- f2) <= (L - 1) * 2 ^ (- f2))
      by (apply Z.mul_le_mono_nonneg_r; lia).
    lia.
  - exfalso.
    assert (Hdk : Zdigits2 k2 <= 34 - f2).
    { destruct (Z.eq_dec k2 0) as [-> | Hne]; [simpl; lia | ].
      destruct (Zdigits2_bounds k2 ltac:(lia)) as [[Hlok _] _].
      destruct (Z.le_gt_cases (Zdigits2 k2) (34 - f2)) as [ | Hgt]; auto. exfalso.
      assert (2 ^ (34 - f2) <= 2 ^ (Zdigits2 k2 - 1)) by (apply Z.pow_le_mono_r; lia).
      assert (Hp : 2 ^ (34 - f2) = 2 ^ 34 * 2 ^ (- f2))
        by (rewrite <- Z.pow_add_r by lia; f_equal; lia).
      change (2 ^ 34) with (2 * 2 ^ 33) in Hp. lia. }
    unfold fexp, emin, prec, emax in Hinf. lia.
  - assert (HE : 0 < 2 ^ (e2 - f2)) by (apply Z.pow_pos_nonneg; lia).
    assert (He2 : e2 < 0).
    { destruct (Z.lt_ge_cases e2 0) as [ | Hge]; auto. exfalso.
      destruct (valid_mantissa false m2 e2 Hb2) as [_ Hbig]. specialize (Hbig Hge).
      assert (2 ^ (- f2) <= 2 ^ (e2 - f2)) by (apply Z.pow_le_mono_r; lia).
      assert (2 ^ 52 * 2 ^ (- f2) <= Z.pos m2 * 2 ^ (e2 - f2))
        by (apply Z.mul_le_mono_nonneg; lia).
      assert (2 ^ 33 * 2 ^ (- f2) < 2 ^ 52 * 2 ^ (- f2))
        by (apply Z.mul_lt_mono_pos_r; [lia | reflexivity]).
      lia. }
    assert (HD : 0 < 2 ^ (- e2)) by (apply Z.pow_pos_nonneg; lia).
    assert (Hsplit : 2 ^ (- f2) = 2 ^ (- e2) * 2 ^ (e2 - f2))
      by (rewrite <- Z.pow_add_r by lia; f_equal; lia).
    rewrite Hsplit, Hkm2 in Hlow, Hhigh.
    assert (Hm2lo : (L - 1) * 2 ^ (- e2) <= Z.pos m2).
    { apply (Z.mul_le_mono_pos_r _ _ (2 ^ (e2 - f2))); [lia | ].
      rewrite <- Z.mul_assoc. exact Hlow. }
    assert (Hm2hi : Z.pos m2 < (L + 1) * 2 ^ (- e2)).
    { apply (Z.mul_lt_mono_pos_r (2 ^ (e2 - f2))); [lia | ].
      rewrite <- (Z.mul_assoc (L + 1)). exact Hhigh. }
    unfold Math_floor. destruct (Z.leb_spec 0 e2) as [ | _]; [lia | ].
    cbn [signed cond_Zopp]. rewrite Z.shiftr_div_pow2 by lia.
    set (q := Z.pos m2 / 2 ^ (- e2)).
    assert (Hq : L - 1 <= q <= L).
    { unfold q. split.
      - apply Z.div_le_lower_bound; lia.
      - assert (Z.pos m2 / 2 ^ (- e2) < L + 1); [ | lia].
        apply Z.div_lt_upper_bound; lia. }
    exists q. split; [ | exact Hq].
    destruct q as [ | p | p] eqn:Hqe; try lia; [reflexivity | ].
    apply truncate_of_Z. rewrite H32, H53 in *. lia.
Qed.

(** The sample rate of a buffer is a normal number between 2^12 and 2^17. *)
Lemma wf_rate_exponent (b : AudioBuffer.t) :
  wf_buffer b = true ->
  exists (Mr : positive) (er : Z),
    AudioBuffer.sampleRate b = S754_finite false Mr er
    /\ 2 ^ 52 <= Zpos Mr < 2 ^ 53 /\ -40 <= er <= -36.
Proof.
  intros Hwf. destruct (wf_buffer_inv b Hwf) as [_ _ _ _ _ Hfin Hf32 [Hr1 Hr2]].
  destruct (positive_rate b Hwf) as (Mr & er & Hrate). rewrite Hrate in *.
  exists Mr, er. split; [reflexivity | ].
  destruct (float32_normal false Mr er Hf32) as [HMr _]. split; [exact HMr | ].
  change (of_Z 8000) with (S754_finite false 8796093022208000 (-40)) in Hr1.
  change (of_Z 96000) with (S754_finite false 6597069766656000 (-36)) in Hr2.
  apply fle_finite_order in Hr1, Hr2. lia.
Qed.

(** X18. The trim from 0 to the duration keeps all samples or all but the
    last.  With [duration = length / sampleRate], the end index
    [e = floor(duration * sampleRate)] that [trimAudio] computes is the
    length or the length minus 1; the call returns the first [e] samples of
    every channel, or throws NotSupportedError when [e = 0], which needs a
    buffer of one sample. *)
Theorem trimAudio_whole_bounds (h : Heap) (r : Ref) (b : AudioBuffer.t) :
  h !! r = Some b -> wf_buffer b = true ->
  exists e : Z,
    truncate (Math_floor (fmul (AudioBuffer.duration b) (AudioBuffer.sampleRate b))) = Some e
    /\ Z.of_nat (AudioBuffer.length b) - 1 <= e <= Z.of_nat (AudioBuffer.length b)
    /\ (1 <= e ->
        trimAudio h r pzero (AudioBuffer.duration b)
        = Returns (length h,
                   h ++ [AudioBuffer.mk (AudioBuffer.sampleRate b) (Z.to_nat e)
                           (AudioBuffer.numberOfChannels b)
                           (map (take (Z.to_nat e)) (AudioBuffer.channels b))]))
    /\ (e = 0 -> trimAudio h r pzero (AudioBuffer.duration b) = Throws NotSupportedError).
Proof.
  intros Hr Hwf. pose proof (wf_buffer_inv b Hwf) as Hf.
  pose proof (wf_length_pos b Hf) as Hpos. pose proof (wf_length_u32 b Hf) as Hu32.
  destruct (wf_rate_exponent b Hwf) as (Mr & er & Hrate & HMr & Her).
  destruct (floor_quotient_times (Z.of_nat (AudioBuffer.length b)) Mr er
              ltac:(lia) HMr Her) as (e & He & Hrange).
  assert (Hend : truncate (Math_floor (fmul (AudioBuffer.duration b)
                                            (AudioBuffer.sampleRate b))) = Some e)
    by (unfold AudioBuffer.duration, of_nat; rewrite Hrate; exact He).
  exists e. split; [exact Hend | ]. split; [exact Hrange | ]. split.
  - intros He1. apply (trimAudio_prefix h r b _ e Hr Hwf Hend). lia.
  - intros ->.
    assert (Hv : valid (fmul (AudioBuffer.duration b) (AudioBuffer.sampleRate b))).
    { pose proof (wf_rate_valid b Hwf) as Hvr.
      apply valid_fmul; [ | exact Hvr]. apply valid_fdiv; [apply valid_of_Z_any | exact Hvr]. }
    pose proof (Math_floor_index _ 0 Hv Hend ltac:(lia)) as [[Hlt _] | [_ [s Hzero]]];
      [lia | ].
    unfold trimAudio. rewrite (deref_Some _ _ _ Hr). cbn [bind].
    assert (Hstart : Math_floor (fmul pzero (AudioBuffer.sampleRate b)) = pzero)
      by (rewrite Hrate; reflexivity).
    rewrite Hstart, Hzero, (createBuffer_wf h b _ Hwf). now destruct s.
Qed.

Lemma trimAudio_whole_bounds_witness :
  exists e : Z,
    truncate (Math_floor (fmul (AudioBuffer.duration (constant_buffer 15 half))
                               (AudioBuffer.sampleRate (constant_buffer 15 half)))) = Some e
    /\ 14 <= e <= 15.
Proof.
  assert (Hwf : wf_buffer (constant_buffer 15 half) = true) by (vm_compute; reflexivity).
  destruct (trimAudio_whole_bounds [constant_buffer 15 half] 0%nat (constant_buffer 15 half)
              eq_refl Hwf) as (e & He & Hrange & _).
  exists e. split; [exact He | exact Hrange].
Defined.
